(** * DDI operator console: the modal dialog engine and the operation monitor

    A shallow embedding of the parts of [ddi.py] that decide the behaviour of
    the log pane, the menu / text-input / final-warning dialogs and the
    [dd] supervision loop with its two renderers.

    Conventions of the embedding.
    - Python [int] is [Z]; Python [//] is [Z.div] (both floor).
    - A Python [float] is the rational number it holds, in [Q]; [int]
      truncates toward zero.  The quotient and the products that give the
      percentage of a sample and the byte range of a block-map cell are
      rounded to the nearest double ([Binary64.round]); speed, ETA and the
      shares of filled cells and bar glyphs are taken exactly.
    - Python [str] is [string] for key codes, [dd] diagnostics and file
      names (ASCII text), and a list of code points for the text typed in
      the final-warning dialog, which is decoded from UTF-8.
    - The terminal is a stream of [getch] results; a window is recorded by
      the title it was created with.
    - The global logger [log] is the optional [CursesHandler] found by the
      [for handler in log.handlers] search. *)

From Stdlib Require Import ZArith QArith Qround Qminmax Qabs Qpower.
From Stdlib Require Import List String Ascii Bool Lia.
From Stdlib Require DecimalString.
Import ListNotations.

Local Open Scope string_scope.
Local Open Scope Z_scope.

(* ================================================================= *)
(** * Part I: the program *)
(* ================================================================= *)

(** ** Key codes and mouse masks of the curses library (ncurses 6 values) *)

Module Curses.
Definition KEY_DOWN : Z := 258.
Definition KEY_UP : Z := 259.
Definition KEY_LEFT : Z := 260.
Definition KEY_RIGHT : Z := 261.
Definition KEY_HOME : Z := 262.
Definition KEY_BACKSPACE : Z := 263.
Definition KEY_F1 : Z := 265.
Definition KEY_F12 : Z := 276.
Definition KEY_DC : Z := 330.
Definition KEY_NPAGE : Z := 338.
Definition KEY_PPAGE : Z := 339.
Definition KEY_ENTER : Z := 343.
Definition KEY_END : Z := 360.
Definition KEY_MOUSE : Z := 409.

Definition BUTTON1_CLICKED : Z := 4.
Definition BUTTON3_CLICKED : Z := 4096.
Definition BUTTON4_PRESSED : Z := 65536.
Definition BUTTON5_PRESSED : Z := 2097152.

(** [ord(c)] for the characters the dialogs test. *)
Definition ord (c : ascii) : Z := Z.of_N (N_of_ascii c).

Definition TAB : Z := 9.
Definition ESC : Z := 27.
End Curses.

(** ** Python string operations used by the source *)

Module Py.

(** [len(s)] as a Python [int]. *)
Definition len (s : string) : Z := Z.of_nat (String.length s).

(** [needle in hay] on strings: substring test. *)
Fixpoint contains (needle hay : string) : bool :=
  String.prefix needle hay ||
  match hay with
  | EmptyString => false
  | String _ hay' => contains needle hay'
  end.

(** [''.join(parts)]. *)
Definition join (parts : list string) : string := String.concat "" parts.

(** [s.split('\n')]: the pieces between line feeds, at least one piece. *)
Fixpoint split_lf_aux (cur : string) (s : string) : list string :=
  match s with
  | EmptyString => [cur]
  | String c s' =>
      if Ascii.eqb c "010"%char then cur :: split_lf_aux "" s'
      else split_lf_aux (cur ++ String c "") s'
  end.
Definition split_lf (s : string) : list string := split_lf_aux "" s.

Definition is_upper (c : ascii) : bool :=
  let n := Curses.ord c in (65 <=? n) && (n <=? 90).
Definition is_digit (c : ascii) : bool :=
  let n := Curses.ord c in (48 <=? n) && (n <=? 57).

(** [str.isspace] on one ASCII character: TAB, LF, VT, FF, CR, the four
    separators FS GS RS US, and the space. *)
Definition is_space (c : ascii) : bool :=
  let n := Curses.ord c in ((9 <=? n) && (n <=? 13)) || ((28 <=? n) && (n <=? 32)).

(** The class [\s] of [re] restricted to ASCII is the same set. *)
Definition re_space (c : ascii) : bool := is_space c.

Definition chr (n : Z) : ascii := ascii_of_N (Z.to_N n).

Definition lower_char (c : ascii) : ascii :=
  if is_upper c then chr (Curses.ord c + 32) else c.

Fixpoint map_string (f : ascii -> ascii) (s : string) : string :=
  match s with
  | EmptyString => EmptyString
  | String c s' => String (f c) (map_string f s')
  end.

(** [s.lower()] on ASCII text. *)
Definition lower (s : string) : string := map_string lower_char s.

(** [s.lstrip()], [s.rstrip()] and [s.strip()]. *)
Fixpoint lstrip (s : string) : string :=
  match s with
  | EmptyString => EmptyString
  | String c s' => if is_space c then lstrip s' else s
  end.

Fixpoint rstrip (s : string) : string :=
  match s with
  | EmptyString => EmptyString
  | String c s' =>
      match rstrip s' with
      | EmptyString => if is_space c then EmptyString else String c EmptyString
      | r => String c r
      end
  end.

Definition strip (s : string) : string := rstrip (lstrip s).

(** Every character of [s] is white space ([s] may be empty). *)
Fixpoint all_space (s : string) : bool :=
  match s with
  | EmptyString => true
  | String c s' => is_space c && all_space s'
  end.

(** [s[:n]] and [s[n:]] for [0 <= n]. *)
Fixpoint take (n : nat) (s : string) : string :=
  match n, s with
  | O, _ => EmptyString
  | S _, EmptyString => EmptyString
  | S n', String c s' => String c (take n' s')
  end.

Fixpoint drop (n : nat) (s : string) : string :=
  match n, s with
  | O, _ => s
  | S _, EmptyString => EmptyString
  | S n', String _ s' => drop n' s'
  end.

(** [int(q)] on a number: truncation toward zero. *)
Definition int_of (q : Q) : Z := Z.quot (Qnum q) (Zpos (Qden q)).

(** [range(n)]. *)
Definition range (n : Z) : list Z := List.map Z.of_nat (List.seq 0 (Z.to_nat n)).

(** [str(n)] for an [int]. *)
Definition str_of_int (n : Z) : string :=
  DecimalString.NilZero.string_of_int (Z.to_int n).

End Py.

(** ** Unicode text

    The text of a Python [str] as its list of code points, with
    [str.isspace], [str.strip] and [str.upper] as CPython 3.11 computes
    them (Unicode 14.0). *)

Module Unicode.

Definition text : Type := list Z.

(** The code points of an ASCII literal. *)
Fixpoint of_string (s : string) : text :=
  match s with
  | EmptyString => []
  | String c s' => Curses.ord c :: of_string s'
  end.

(** [c.isspace()]: the characters of bidirectional type WS, B or S and of
    category Zs. *)
Definition isspace (c : Z) : bool :=
  ((9 <=? c) && (c <=? 13)) || ((28 <=? c) && (c <=? 32))
  || (c =? 133) || (c =? 160) || (c =? 5760)
  || ((8192 <=? c) && (c <=? 8202))
  || (c =? 8232) || (c =? 8233) || (c =? 8239) || (c =? 8287) || (c =? 12288).

(** [s.lstrip()], [s.rstrip()] and [s.strip()]. *)
Fixpoint lstrip (s : text) : text :=
  match s with
  | [] => []
  | c :: s' => if isspace c then lstrip s' else s
  end.

Fixpoint rstrip (s : text) : text :=
  match s with
  | [] => []
  | c :: s' =>
      match rstrip s' with
      | [] => if isspace c then [] else [c]
      | r => c :: r
      end
  end.

Definition strip (s : text) : text := rstrip (lstrip s).

(** The case mapping.  [upper_runs] lists the characters whose upper case
    is one character, as runs [(first, last, step, delta)]: the characters
    [first, first + step, ..., last] map to themselves plus [delta].
    [upper_special] lists those whose upper case is several characters.
    Every other character is its own upper case. *)
Definition upper_runs : list (Z * Z * Z * Z) :=
  [(97, 122, 1, -32); (181, 181, 1, 743); (224, 246, 1, -32);
   (248, 254, 1, -32); (255, 255, 1, 121); (257, 303, 2, -1);
   (305, 305, 1, -232); (307, 311, 2, -1); (314, 328, 2, -1);
   (331, 375, 2, -1); (378, 382, 2, -1); (383, 383, 1, -300);
   (384, 384, 1, 195); (387, 389, 2, -1); (392, 392, 1, -1);
   (396, 396, 1, -1); (402, 402, 1, -1); (405, 405, 1, 97);
   (409, 409, 1, -1); (410, 410, 1, 163); (414, 414, 1, 130);
   (417, 421, 2, -1); (424, 424, 1, -1); (429, 429, 1, -1);
   (432, 432, 1, -1); (436, 438, 2, -1); (441, 441, 1, -1);
   (445, 445, 1, -1); (447, 447, 1, 56); (453, 453, 1, -1);
   (454, 454, 1, -2); (456, 456, 1, -1); (457, 457, 1, -2);
   (459, 459, 1, -1); (460, 460, 1, -2); (462, 476, 2, -1);
   (477, 477, 1, -79); (479, 495, 2, -1); (498, 498, 1, -1);
   (499, 499, 1, -2); (501, 501, 1, -1); (505, 543, 2, -1);
   (547, 563, 2, -1); (572, 572, 1, -1); (575, 576, 1, 10815);
   (578, 578, 1, -1); (583, 591, 2, -1); (592, 592, 1, 10783);
   (593, 593, 1, 10780); (594, 594, 1, 10782); (595, 595, 1, -210);
   (596, 596, 1, -206); (598, 599, 1, -205); (601, 601, 1, -202);
   (603, 603, 1, -203); (604, 604, 1, 42319); (608, 608, 1, -205);
   (609, 609, 1, 42315); (611, 611, 1, -207); (613, 613, 1, 42280);
   (614, 614, 1, 42308); (616, 616, 1, -209); (617, 617, 1, -211);
   (618, 618, 1, 42308); (619, 619, 1, 10743); (620, 620, 1, 42305);
   (623, 623, 1, -211); (625, 625, 1, 10749); (626, 626, 1, -213);
   (629, 629, 1, -214); (637, 637, 1, 10727); (640, 640, 1, -218);
   (642, 642, 1, 42307); (643, 643, 1, -218); (647, 647, 1, 42282);
   (648, 648, 1, -218); (649, 649, 1, -69); (650, 651, 1, -217);
   (652, 652, 1, -71); (658, 658, 1, -219); (669, 669, 1, 42261);
   (670, 670, 1, 42258); (837, 837, 1, 84); (881, 883, 2, -1);
   (887, 887, 1, -1); (891, 893, 1, 130); (940, 940, 1, -38);
   (941, 943, 1, -37); (945, 961, 1, -32); (962, 962, 1, -31);
   (963, 971, 1, -32); (972, 972, 1, -64); (973, 974, 1, -63);
   (976, 976, 1, -62); (977, 977, 1, -57); (981, 981, 1, -47);
   (982, 982, 1, -54); (983, 983, 1, -8); (985, 1007, 2, -1);
   (1008, 1008, 1, -86); (1009, 1009, 1, -80); (1010, 1010, 1, 7);
   (1011, 1011, 1, -116); (1013, 1013, 1, -96); (1016, 1016, 1, -1);
   (1019, 1019, 1, -1); (1072, 1103, 1, -32); (1104, 1119, 1, -80);
   (1121, 1153, 2, -1); (1163, 1215, 2, -1); (1218, 1230, 2, -1);
   (1231, 1231, 1, -15); (1233, 1327, 2, -1); (1377, 1414, 1, -48);
   (4304, 4346, 1, 3008); (4349, 4351, 1, 3008); (5112, 5117, 1, -8);
   (7296, 7296, 1, -6254); (7297, 7297, 1, -6253); (7298, 7298, 1, -6244);
   (7299, 7300, 1, -6242); (7301, 7301, 1, -6243); (7302, 7302, 1, -6236);
   (7303, 7303, 1, -6181); (7304, 7304, 1, 35266); (7545, 7545, 1, 35332);
   (7549, 7549, 1, 3814); (7566, 7566, 1, 35384); (7681, 7829, 2, -1);
   (7835, 7835, 1, -59); (7841, 7935, 2, -1); (7936, 7943, 1, 8);
   (7952, 7957, 1, 8); (7968, 7975, 1, 8); (7984, 7991, 1, 8);
   (8000, 8005, 1, 8); (8017, 8023, 2, 8); (8032, 8039, 1, 8);
   (8048, 8049, 1, 74); (8050, 8053, 1, 86); (8054, 8055, 1, 100);
   (8056, 8057, 1, 128); (8058, 8059, 1, 112); (8060, 8061, 1, 126);
   (8112, 8113, 1, 8); (8126, 8126, 1, -7205); (8144, 8145, 1, 8);
   (8160, 8161, 1, 8); (8165, 8165, 1, 7); (8526, 8526, 1, -28);
   (8560, 8575, 1, -16); (8580, 8580, 1, -1); (9424, 9449, 1, -26);
   (11312, 11359, 1, -48); (11361, 11361, 1, -1); (11365, 11365, 1, -10795);
   (11366, 11366, 1, -10792); (11368, 11372, 2, -1); (11379, 11379, 1, -1);
   (11382, 11382, 1, -1); (11393, 11491, 2, -1); (11500, 11502, 2, -1);
   (11507, 11507, 1, -1); (11520, 11557, 1, -7264); (11559, 11559, 1, -7264);
   (11565, 11565, 1, -7264); (42561, 42605, 2, -1); (42625, 42651, 2, -1);
   (42787, 42799, 2, -1); (42803, 42863, 2, -1); (42874, 42876, 2, -1);
   (42879, 42887, 2, -1); (42892, 42892, 1, -1); (42897, 42899, 2, -1);
   (42900, 42900, 1, 48); (42903, 42921, 2, -1); (42933, 42947, 2, -1);
   (42952, 42954, 2, -1); (42961, 42961, 1, -1); (42967, 42969, 2, -1);
   (42998, 42998, 1, -1); (43859, 43859, 1, -928); (43888, 43967, 1, -38864);
   (65345, 65370, 1, -32); (66600, 66639, 1, -40); (66776, 66811, 1, -40);
   (66967, 66977, 1, -39); (66979, 66993, 1, -39); (66995, 67001, 1, -39);
   (67003, 67004, 1, -39); (68800, 68850, 1, -64); (71872, 71903, 1, -32);
   (93792, 93823, 1, -32); (125218, 125251, 1, -34)].

Definition upper_special : list (Z * list Z) :=
  [(223, [83; 83]); (329, [700; 78]); (496, [74; 780]);
   (912, [921; 776; 769]); (944, [933; 776; 769]); (1415, [1333; 1362]);
   (7830, [72; 817]); (7831, [84; 776]); (7832, [87; 778]);
   (7833, [89; 778]); (7834, [65; 702]); (8016, [933; 787]);
   (8018, [933; 787; 768]); (8020, [933; 787; 769]); (8022, [933; 787; 834]);
   (8064, [7944; 921]); (8065, [7945; 921]); (8066, [7946; 921]);
   (8067, [7947; 921]); (8068, [7948; 921]); (8069, [7949; 921]);
   (8070, [7950; 921]); (8071, [7951; 921]); (8072, [7944; 921]);
   (8073, [7945; 921]); (8074, [7946; 921]); (8075, [7947; 921]);
   (8076, [7948; 921]); (8077, [7949; 921]); (8078, [7950; 921]);
   (8079, [7951; 921]); (8080, [7976; 921]); (8081, [7977; 921]);
   (8082, [7978; 921]); (8083, [7979; 921]); (8084, [7980; 921]);
   (8085, [7981; 921]); (8086, [7982; 921]); (8087, [7983; 921]);
   (8088, [7976; 921]); (8089, [7977; 921]); (8090, [7978; 921]);
   (8091, [7979; 921]); (8092, [7980; 921]); (8093, [7981; 921]);
   (8094, [7982; 921]); (8095, [7983; 921]); (8096, [8040; 921]);
   (8097, [8041; 921]); (8098, [8042; 921]); (8099, [8043; 921]);
   (8100, [8044; 921]); (8101, [8045; 921]); (8102, [8046; 921]);
   (8103, [8047; 921]); (8104, [8040; 921]); (8105, [8041; 921]);
   (8106, [8042; 921]); (8107, [8043; 921]); (8108, [8044; 921]);
   (8109, [8045; 921]); (8110, [8046; 921]); (8111, [8047; 921]);
   (8114, [8122; 921]); (8115, [913; 921]); (8116, [902; 921]);
   (8118, [913; 834]); (8119, [913; 834; 921]); (8124, [913; 921]);
   (8130, [8138; 921]); (8131, [919; 921]); (8132, [905; 921]);
   (8134, [919; 834]); (8135, [919; 834; 921]); (8140, [919; 921]);
   (8146, [921; 776; 768]); (8147, [921; 776; 769]); (8150, [921; 834]);
   (8151, [921; 776; 834]); (8162, [933; 776; 768]); (8163, [933; 776; 769]);
   (8164, [929; 787]); (8166, [933; 834]); (8167, [933; 776; 834]);
   (8178, [8186; 921]); (8179, [937; 921]); (8180, [911; 921]);
   (8182, [937; 834]); (8183, [937; 834; 921]); (8188, [937; 921]);
   (64256, [70; 70]); (64257, [70; 73]); (64258, [70; 76]);
   (64259, [70; 70; 73]); (64260, [70; 70; 76]); (64261, [83; 84]);
   (64262, [83; 84]); (64275, [1348; 1350]); (64276, [1348; 1333]);
   (64277, [1348; 1339]); (64278, [1358; 1350]); (64279, [1348; 1341])].

Definition in_run (c : Z) (r : Z * Z * Z * Z) : bool :=
  let '(first, last, step, _) := r in
  (first <=? c) && (c <=? last) && ((c - first) mod step =? 0).

Definition upper_char (c : Z) : list Z :=
  match List.find (fun p => fst p =? c) upper_special with
  | Some (_, u) => u
  | None =>
      match List.find (in_run c) upper_runs with
      | Some (_, _, _, delta) => [c + delta]
      | None => [c]
      end
  end.

(** [s.upper()]. *)
Definition upper (s : text) : text := List.flat_map upper_char s.

Fixpoint eqb (s t : text) : bool :=
  match s, t with
  | [], [] => true
  | c :: s', d :: t' => (c =? d) && eqb s' t'
  | _, _ => false
  end.

End Unicode.

(** ** The log pane: [CursesHandler] and [handle_log_scroll_keys] *)

Module LogPane.

(** The fields of [CursesHandler] that the dialogs read or write.
    [scroll_pos] is optional because the source guards its first use with
    [hasattr]; [__init__] sets it to [0]. *)
Record CursesHandler := mkHandler {
  log_messages : list string;
  scroll_pos : option Z
}.

Definition init : CursesHandler := mkHandler [] (Some 0).

Definition total_lines (hd : CursesHandler) : Z :=
  Z.of_nat (List.length (log_messages hd)).

(** [emit]: the formatted record is appended; nothing is ever removed. *)
Definition emit (msg : string) (hd : CursesHandler) : CursesHandler :=
  mkHandler (log_messages hd ++ [msg]) (scroll_pos hd).

(** One branch per handled key, as in the [if]/[elif] chain. *)
Definition scroll_key (key total_lines visible_lines scroll_pos : Z) : Z :=
  if key =? Curses.KEY_UP then Z.max 0 (scroll_pos - 1)
  else if key =? Curses.KEY_DOWN then
    Z.min (Z.max 0 (total_lines - visible_lines)) (scroll_pos + 1)
  else if key =? Curses.KEY_PPAGE then Z.max 0 (scroll_pos - visible_lines)
  else if key =? Curses.KEY_NPAGE then
    Z.min (Z.max 0 (total_lines - visible_lines)) (scroll_pos + visible_lines)
  else if key =? Curses.KEY_HOME then 0
  else if key =? Curses.KEY_END then Z.max 0 (total_lines - visible_lines)
  else scroll_pos.

(** [handle_log_scroll_keys(stdscr, key, log_win_height)] on the handler
    found in [log.handlers] ([None]: the function returns at once). *)
Definition handle_log_scroll_keys
    (log : option CursesHandler) (key log_win_height : Z) : option CursesHandler :=
  match log with
  | None => None
  | Some hd =>
      let total := total_lines hd in
      let visible_lines := log_win_height - 2 in
      let current :=
        match scroll_pos hd with
        | Some p => p
        | None => Z.max 0 (total - visible_lines)
        end in
      Some (mkHandler (log_messages hd)
                      (Some (scroll_key key total visible_lines current)))
  end.

(** The bound of the scroll offset. *)
Definition max_scroll (total_lines visible_lines : Z) : Z :=
  Z.max 0 (total_lines - visible_lines).

Definition in_bounds (total_lines visible_lines pos : Z) : Prop :=
  0 <= pos <= max_scroll total_lines visible_lines.

End LogPane.

(** ** The modal dialogs: menu, text prompt, final warning *)

Module Dialog.
Import LogPane.

(** What [curses.getmouse()] reports: position and button-state flags. *)
Record MouseEvent := mkMouse { mx : Z; my : Z; bstate : Z }.

(** One [getch] result; for [KEY_MOUSE] the event read by [getmouse]
    ([None]: [getmouse] raises, which the source swallows). *)
Record Event := mkEvent { ev_key : Z; ev_mouse : option MouseEvent }.

Definition key_event (k : Z) : Event := mkEvent k None.

(** The terminal and the logger as the dialogs see them: the log handler,
    the pending input, and the titles of the windows created so far by
    [draw_bordered_window] (newest last). *)
Record World := mkWorld {
  log : option CursesHandler;
  input : list Event;
  windows : list string
}.

Definition with_log (l : option CursesHandler) (w : World) : World :=
  mkWorld l (input w) (windows w).
Definition with_input (i : list Event) (w : World) : World :=
  mkWorld (log w) i (windows w).

(** [draw_bordered_window(stdscr, y, x, h, w, title)]. *)
Definition draw_bordered_window (title : string) (w : World) : World :=
  mkWorld (log w) (input w) (windows w ++ [title]).

Inductive Step (S R : Type) : Type :=
| Continue (s : S)
| Return (r : R).
Arguments Continue {S R} s.
Arguments Return {S R} r.

Definition bit_set (flags mask : Z) : bool := negb (Z.land flags mask =? 0).

Section Menu.

(** The formatter installed on the handler,
    ['%(asctime)s - %(levelname)s - %(message)s']: the time stamp is
    not an input of the dialogs, so the formatter is a parameter. *)
Variable format : string -> string -> string.

(** The help and about overlays read their own keys from the same
    terminal, log, and load text from the file system; the menu only
    depends on the world they leave ([None]: the overlay never
    returns). *)
Variable show_help_screen : World -> option World.
Variable show_about_screen : World -> option World.

Definition log_info (msg : string) (w : World) : World :=
  with_log (option_map (emit (format "INFO" msg)) (log w)) w.

Variable title : string.
Variable menu_items : list string.
Variable app_h : Z.
Variable scr_w : Z.

Definition n_items : Z := Z.of_nat (List.length menu_items).

Definition menu_height : Z := n_items + 4.
Definition menu_width : Z :=
  Z.max (Z.max (List.fold_right Z.max 0 (List.map Py.len menu_items) + 8)
               (Py.len title + 5)) 60.
Definition start_y : Z := (app_h - menu_height) / 2.
Definition start_x : Z := (scr_w - menu_width) / 2.

Record MenuState := mkMenu { current_row : Z; log_focused : bool }.

Definition menu_init : MenuState := mkMenu 0 false.

(** The height the menu assumes for the log pane. *)
Definition log_win_height : Z := 8.

(** Tab or Esc while the log pane has the focus: the scroll position is
    put back to the bottom. *)
Definition reset_scroll (l : option CursesHandler) : option CursesHandler :=
  match l with
  | None => None
  | Some hd =>
      let total := total_lines hd in
      let visible_lines := log_win_height - 2 in
      Some (mkHandler (log_messages hd) (Some (Z.max 0 (total - visible_lines))))
  end.

(** The [KEY_MOUSE] branch. *)
Definition menu_mouse (st : MenuState) (ev : Event) : Step MenuState Z :=
  match ev_mouse ev with
  | None => Continue st
  | Some m =>
      if bit_set (bstate m) Curses.BUTTON1_CLICKED then
        let menu_item_y_start := start_y + 2 in
        let menu_item_y_end := start_y + 2 + n_items in
        if (start_x <=? mx m) && (mx m <? start_x + menu_width)
           && (menu_item_y_start <=? my m) && (my m <? menu_item_y_end) then
          let clicked_row := my m - menu_item_y_start in
          if (0 <=? clicked_row) && (clicked_row <? n_items)
          then Return clicked_row else Continue st
        else Continue st
      else if bit_set (bstate m) Curses.BUTTON3_CLICKED then Return (-1)
      else if bit_set (bstate m) Curses.BUTTON4_PRESSED then
        Continue (mkMenu (Z.max 0 (current_row st - 1)) (log_focused st))
      else if bit_set (bstate m) Curses.BUTTON5_PRESSED then
        Continue (mkMenu (Z.min (n_items - 1) (current_row st + 1)) (log_focused st))
      else Continue st
  end.

(** One turn of the [while True] loop, after [key = stdscr.getch()]. *)
Definition menu_step (st : MenuState) (ev : Event) (w : World)
  : option (Step MenuState Z * World) :=
  let key := ev_key ev in
  if log_focused st then
    if (key =? 9) || (key =? 27) then
      Some (Continue (mkMenu (current_row st) false), with_log (reset_scroll (log w)) w)
    else
      Some (Continue st, with_log (handle_log_scroll_keys (log w) key log_win_height) w)
  else
    if (key =? Curses.KEY_UP) && (current_row st >? 0) then
      Some (Continue (mkMenu (current_row st - 1) false), w)
    else if (key =? Curses.KEY_DOWN) && (current_row st <? n_items - 1) then
      Some (Continue (mkMenu (current_row st + 1) false), w)
    else if (Curses.ord "1" <=? key) && (key <=? Curses.ord "9") then
      let num := key - Curses.ord "1" in
      if num <? n_items then Some (Return num, w) else Some (Continue st, w)
    else if (key =? Curses.ord "q") || (key =? Curses.ord "Q") then
      Some (Return (-1), w)
    else if (key =? Curses.KEY_F1) || (key =? Curses.ord "?") then
      let w1 := log_info ("F1 pressed! key=" ++ Py.str_of_int key ++ ", KEY_F1="
                          ++ Py.str_of_int Curses.KEY_F1) w in
      match show_help_screen w1 with
      | None => None
      | Some w2 =>
          let w3 := log_info "Returned from help screen" w2 in
          Some (Continue st, log_info "Complete screen redraw after help" w3)
      end
    else if key =? Curses.KEY_F12 then
      let w1 := log_info ("F12 pressed! key=" ++ Py.str_of_int key ++ ", KEY_F12="
                          ++ Py.str_of_int Curses.KEY_F12) w in
      match show_about_screen w1 with
      | None => None
      | Some w2 =>
          let w3 := log_info "Returned from about screen" w2 in
          Some (Continue st, log_info "Complete screen redraw after about screen" w3)
      end
    else if key =? Curses.KEY_MOUSE then Some (menu_mouse st ev, w)
    else if key =? 9 then Some (Continue (mkMenu (current_row st) true), w)
    else if (key =? Curses.KEY_ENTER) || (key =? 10) || (key =? 13) then
      Some (Return (current_row st), w)
    else if key =? 27 then Some (Return (-1), w)
    else Some (Continue st, w).

(** The loop; [None] when it has not returned: the input is exhausted
    (the blocking [getch] waits), an overlay never returns, or the fuel
    is spent. *)
Fixpoint menu_loop (fuel : nat) (st : MenuState) (w : World) : option (Z * World) :=
  match fuel with
  | O => None
  | S fuel' =>
      match input w with
      | [] => None
      | ev :: rest =>
          match menu_step st ev (with_input rest w) with
          | None => None
          | Some (Return r, w') => Some (r, w')
          | Some (Continue st', w') => menu_loop fuel' st' w'
          end
      end
  end.

(** The first [n] turns of the loop, for statements about a prefix of
    the input: the result of the turn that returns, or the state and
    world reached when all [n] turns continue. *)
Fixpoint menu_steps (n : nat) (st : MenuState) (w : World)
  : option (Step MenuState Z * World) :=
  match n with
  | O => Some (Continue st, w)
  | S n' =>
      match input w with
      | [] => None
      | ev :: rest =>
          match menu_step st ev (with_input rest w) with
          | Some (Continue st', w') => menu_steps n' st' w'
          | r => r
          end
      end
  end.

(** [get_menu_choice(stdscr, title, menu_items, app_h)]. *)
Definition get_menu_choice (fuel : nat) (w : World) : option (Z * World) :=
  match menu_items with
  | [] => Some (-1, w)
  | _ :: _ => menu_loop fuel menu_init (draw_bordered_window title w)
  end.

End Menu.

(** *** [get_input_string] *)

Record EditState := mkEdit { input_str : string; cursor_pos : nat }.

Definition edit_init : EditState := mkEdit "" 0.

Definition editing_keys : list Z :=
  [Curses.KEY_BACKSPACE; Curses.KEY_DC; Curses.KEY_LEFT;
   Curses.KEY_RIGHT; Curses.KEY_HOME; Curses.KEY_END].

Definition key_in (key : Z) (keys : list Z) : bool :=
  List.existsb (Z.eqb key) keys.

(** The inner loop that swallows the rest of an escape sequence; a
    non-blocking [getch] on an empty queue yields [-1]. *)
Fixpoint consume_escape (keys : list Z) : list Z :=
  match keys with
  | [] => []
  | ch :: rest =>
      if ch =? -1 then rest
      else if (64 <=? ch) && (ch <=? 126) then rest
      else consume_escape rest
  end.

(** The editing branches, from Backspace to the printable characters. *)
Definition edit_key (max_len : Z) (key : Z) (st : EditState) : EditState :=
  let s := input_str st in
  let c := cursor_pos st in
  if key_in key [Curses.KEY_BACKSPACE; 127; 8] then
    if (0 <? c)%nat then mkEdit (Py.take (c - 1) s ++ Py.drop c s) (c - 1) else st
  else if key =? Curses.KEY_DC then
    if (c <? String.length s)%nat then mkEdit (Py.take c s ++ Py.drop (c + 1) s) c else st
  else if key =? Curses.KEY_LEFT then
    if (0 <? c)%nat then mkEdit s (c - 1) else st
  else if key =? Curses.KEY_RIGHT then
    if (c <? String.length s)%nat then mkEdit s (c + 1) else st
  else if key =? Curses.KEY_HOME then mkEdit s 0
  else if key =? Curses.KEY_END then mkEdit s (String.length s)
  else if (32 <=? key) && (key <=? 126) then
    if Py.len s <? max_len
    then mkEdit (Py.take c s ++ String (Py.chr key) (Py.drop c s)) (c + 1)
    else st
  else st.

(** The keys of the last editing branch, [32 <= key <= 126]. *)
Definition printable (k : Z) : Prop := 32 <= k <= 126.

(** The [while True] loop over the [getch] results; the value is
    [input_str] at the [break], [None] while the blocking [getch]
    waits. *)
Fixpoint input_loop (fuel : nat) (max_len : Z) (st : EditState) (keys : list Z)
  : option string :=
  match fuel with
  | O => None
  | S fuel' =>
      match keys with
      | [] => None
      | key :: rest =>
          if key =? Curses.KEY_MOUSE then input_loop fuel' max_len st rest
          else if (key >? 255) && negb (key_in key editing_keys) then
            input_loop fuel' max_len st rest
          else if key =? 27 then
            let next_key := match rest with [] => -1 | k :: _ => k end in
            let rest' := List.tl rest in
            if (next_key =? 91) || (next_key =? 79) then
              input_loop fuel' max_len st (consume_escape rest')
            else if next_key =? -1 then Some ""
            else input_loop fuel' max_len st rest'
          else if key_in key [10; 13; Curses.KEY_ENTER] then Some (input_str st)
          else input_loop fuel' max_len (edit_key max_len key st) rest
      end
  end.

(** [get_input_string(stdscr, prompt, app_h, default_value)]: [scr_w] is
    the screen width, [keys] the results of the successive [getch]
    calls. *)
Definition get_input_string (scr_w : Z) (default_value : string) (keys : list Z)
  : option string :=
  let win_w := scr_w - 20 in
  let max_len := win_w - 8 in
  match input_loop (List.length keys) max_len edit_init keys with
  | None => None
  | Some s =>
      if String.eqb s "" && negb (String.eqb default_value "")
      then Some default_value else Some s
  end.

(** *** [show_final_warning] *)

(** [typed] is what [win.getstr(...).decode('utf-8')] yields, [None] when
    it raises. *)
Definition show_final_warning (typed : option Unicode.text) : bool :=
  let user_input :=
    match typed with
    | Some s => Unicode.strip s
    | None => []
    end in
  Unicode.eqb (Unicode.upper user_input) (Unicode.of_string "YES").

End Dialog.

(** ** The handler states the dialogs produce *)

Module LogStates.
Import LogPane.

(** From the handler as created, by log records, by the scroll keys of the
    focused log pane and by the reset on leaving it. *)
Inductive reachable : CursesHandler -> Prop :=
| reach_init : reachable init
| reach_emit (msg : string) (hd : CursesHandler) :
    reachable hd -> reachable (emit msg hd)
| reach_scroll (key : Z) (hd hd' : CursesHandler) :
    reachable hd ->
    handle_log_scroll_keys (Some hd) key Dialog.log_win_height = Some hd' ->
    reachable hd'
| reach_reset (hd hd' : CursesHandler) :
    reachable hd -> Dialog.reset_scroll (Some hd) = Some hd' -> reachable hd'.

End LogStates.

(** ** Double-precision numbers

    The arithmetic of a Python [float] (IEEE 754 binary64): an operation
    gives the double nearest to its exact result, a tie going to the double
    with an even last bit. *)

Module Binary64.

(** [2^e] for any integer [e]. *)
Definition pow2 (e : Z) : Q := (2 ^ e)%Q.

(** The exponent of a positive number: the [e] with [2^e <= q < 2^(e+1)]. *)
Definition ilog2 (q : Q) : Z :=
  let e0 := Z.log2 (Qnum q) - Z.log2 (Zpos (Qden q)) in
  if Qle_bool (pow2 e0) q then e0 else e0 - 1.

(** The nearest integer, a tie going to the even one. *)
Definition rne (x : Q) : Z :=
  let f := Qfloor x in
  match Qcompare (x - inject_Z f) (1 # 2) with
  | Lt => f
  | Gt => f + 1
  | Eq => if Z.even f then f else f + 1
  end.

(** The exponent of the last place of the doubles around a positive [q]:
    53 significant bits, and not below [2^-1074] (gradual underflow). *)
Definition quantum (q : Q) : Z := Z.max (ilog2 q - 52) (-1074).

Definition round_pos (q : Q) : Q :=
  let k := quantum q in
  Qred (inject_Z (rne (q / pow2 k)) * pow2 k).

(** The double nearest to [q] (round to nearest, ties to even), for a
    result below [2^1024] in magnitude. *)
Definition round (q : Q) : Q :=
  match Qcompare q 0 with
  | Eq => 0%Q
  | Gt => round_pos q
  | Lt => (- round_pos (- q))%Q
  end.

(** Whether rounding [q] to the nearest double overflows. *)
Definition overflows (q : Q) : bool :=
  Qle_bool (pow2 1024 - pow2 970) (Qabs q).

End Binary64.

(** ** The operation monitor: [run_dd_with_progress] and its renderers *)

Module Monitor.

(** *** The two regular expressions *)

(** [error_re], compiled with [re.IGNORECASE]. *)
Definition error_re_search (line : string) : bool :=
  let l := Py.lower line in
  Py.contains "error reading" l || Py.contains "error writing" l
  || Py.contains "input/output error" l || Py.contains "cannot allocate memory" l.

(** The longest run of digits at the head of [s], and what follows. *)
Fixpoint span_digits (s : string) : string * string :=
  match s with
  | EmptyString => (EmptyString, EmptyString)
  | String c s' =>
      if Py.is_digit c
      then let (ds, r) := span_digits s' in (String c ds, r)
      else (EmptyString, s)
  end.

Fixpoint skip_spaces (s : string) : string :=
  match s with
  | EmptyString => EmptyString
  | String c s' => if Py.re_space c then skip_spaces s' else s
  end.

(** [(\d+)\s+bytes] anchored at the head of [s]: both repetitions are
    greedy and giving characters back never helps, since the character
    after a shortened run is again a digit (or a blank). *)
Definition dd_re_match (s : string) : option string :=
  let (ds, r) := span_digits s in
  match ds, r with
  | String _ _, String c r' =>
      if Py.re_space c && String.prefix "bytes" (skip_spaces r')
      then Some ds else None
  | _, _ => None
  end.

(** [dd_re.search(line)]: the leftmost match; the value is [group(1)]. *)
Fixpoint dd_re_search (s : string) : option string :=
  match dd_re_match s with
  | Some ds => Some ds
  | None =>
      match s with
      | EmptyString => None
      | String _ s' => dd_re_search s'
      end
  end.

(** [int(digits)]. *)
Fixpoint int_digits_aux (acc : Z) (s : string) : Z :=
  match s with
  | EmptyString => acc
  | String c s' => int_digits_aux (10 * acc + (Curses.ord c - 48)) s'
  end.
Definition int_digits (s : string) : Z := int_digits_aux 0 s.

(** The byte count of a progress line, if it has one. *)
Definition parse_bytes (line : string) : option Z :=
  option_map int_digits (dd_re_search line).

(** *** Samples *)

Inductive Mode := Progress | BlockMap.

Definition flip (m : Mode) : Mode :=
  match m with
  | Progress => BlockMap
  | BlockMap => Progress
  end.

Definition ErrorRange : Type := Z * Z.

Record Sample := mkSample {
  bytes_copied : Z;
  elapsed_time : Q;
  speed_bps : Q;
  percentage : Q;
  eta : Q
}.

Definition Qpositive (q : Q) : bool := (0 <? Qnum q)%Z.

Definition compute_speed (bytes : Z) (elapsed : Q) : Q :=
  if Qpositive elapsed then (inject_Z bytes / elapsed)%Q else 0%Q.

(** [bytes_copied / total_size_bytes], a quotient of two [int], raises
    [OverflowError] when it rounds to no finite double. *)
Definition percentage_overflows (bytes total_size_bytes : Z) : bool :=
  (0 <? total_size_bytes)
  && Binary64.overflows (inject_Z bytes / inject_Z total_size_bytes)%Q.

(** [(bytes_copied / total_size_bytes) * 100 if total_size_bytes > 0 else
    0], then [min(percentage, 100)]: the quotient is rounded to a double,
    and so is its product by 100.  This is the value when the quotient
    does not overflow. *)
Definition compute_percentage (bytes total_size_bytes : Z) : Q :=
  let p := if 0 <? total_size_bytes
           then Binary64.round
                  (Binary64.round (inject_Z bytes / inject_Z total_size_bytes) * 100)%Q
           else 0%Q in
  Qmin p 100.

Definition compute_eta (bytes total_size_bytes : Z) (speed : Q) : Q :=
  if Qpositive speed then (inject_Z (total_size_bytes - bytes) / speed)%Q
  else (-1)%Q.

Definition compute_sample (total_size_bytes bytes : Z) (elapsed : Q) : Sample :=
  let speed := compute_speed bytes elapsed in
  mkSample bytes elapsed speed
           (compute_percentage bytes total_size_bytes)
           (compute_eta bytes total_size_bytes speed).

(** *** The block map *)

Inductive Glyph := GError | GComplete | GWriting | GPending.

(** The test of the inner [for error_start, error_end in error_ranges]. *)
Definition range_hits (char_start_byte char_end_byte : Z) (r : ErrorRange) : bool :=
  negb ((char_end_byte <? fst r) || (char_start_byte >? snd r)).

Definition has_error (char_start_byte char_end_byte : Z)
    (error_ranges : list ErrorRange) : bool :=
  List.existsb (range_hits char_start_byte char_end_byte) error_ranges.

Section Grid.
Variables map_width map_height : Z.
Variable total_size_bytes : Z.

Definition total_chars : Z := map_width * map_height.

(** [total_size_bytes / total_chars if total_chars > 0 else 1]: a double,
    or the [int] 1. *)
Definition bytes_per_char : Q :=
  if 0 <? total_chars
  then Binary64.round (inject_Z total_size_bytes / inject_Z total_chars)%Q
  else 1%Q.

(** [n * bytes_per_char] for an [int] [n]: the product of two doubles,
    rounded, when [bytes_per_char] is a double; the integer [n] when it is
    the [int] 1. *)
Definition times_bytes_per_char (n : Z) : Q :=
  if 0 <? total_chars
  then Binary64.round (Binary64.round (inject_Z n) * bytes_per_char)%Q
  else inject_Z n.

Definition char_start_byte (char_index : Z) : Z :=
  Py.int_of (times_bytes_per_char char_index).
Definition char_end_byte (char_index : Z) : Z :=
  Py.int_of (times_bytes_per_char (char_index + 1)).

Definition filled_chars (pct : Q) : Z :=
  Py.int_of (inject_Z total_chars * pct / 100)%Q.

(** The glyph [_draw_block_map] writes for one cell. *)
Definition cell_glyph (pct : Q) (error_ranges : list ErrorRange)
    (char_index : Z) : Glyph :=
  if has_error (char_start_byte char_index) (char_end_byte char_index) error_ranges
  then GError
  else if char_index <? filled_chars pct then GComplete
  else if char_index =? filled_chars pct then GWriting
  else GPending.

(** The two nested loops: every [addstr(y_pos, x_pos, glyph)], in
    order; [map_start_y] is [5]. *)
Definition draw_cells (pct : Q) (error_ranges : list ErrorRange)
  : list (Z * Z * Glyph) :=
  List.flat_map
    (fun row =>
       List.map
         (fun col =>
            let char_index := row * map_width + col in
            (5 + row, 2 + col, cell_glyph pct error_ranges char_index))
         (Py.range map_width))
    (Py.range map_height).
End Grid.

(** *** The supervision loop *)

(** One call of [_draw_progress_bar] or [_draw_block_map]. *)
Record DrawCall := mkDraw {
  renderer : Mode;
  drawn_sample : Sample;
  drawn_first : bool;
  drawn_ranges : list ErrorRange
}.

(** What one turn of the loop observes: the key polled by the
    non-blocking [getch] ([-1]: none), the line returned by [readline]
    (empty: nothing to read) and the time elapsed since [start_time]. *)
Record Tick := mkTick { tick_key : Z; tick_line : string; tick_elapsed : Q }.

Record State := mkState {
  current_mode : Mode;
  first_draw : bool;
  last_bytes_copied : Z;
  last_error_position : Z;
  error_ranges : list ErrorRange;
  stderr_lines : list string;
  has_prog_win : bool;
  has_block_win : bool;
  repaints : nat;
  draws : list DrawCall
}.

Definition init_state (display_mode : Mode) : State :=
  mkState display_mode true 0 0 [] [] false false 0 [].

(** The toggle key: the mode flips, the window of the mode that is left
    is deleted, the chrome is repainted and the next draw is a first
    draw.  Nothing is drawn by a renderer here. *)
Definition on_key (key : Z) (st : State) : State :=
  if (key =? Curses.ord "v") || (key =? Curses.ord "V") then
    let previous_mode := current_mode st in
    mkState (flip previous_mode) true
            (last_bytes_copied st) (last_error_position st)
            (error_ranges st) (stderr_lines st)
            (match previous_mode with Progress => false | BlockMap => has_prog_win st end)
            (match previous_mode with Progress => has_block_win st | BlockMap => false end)
            (S (repaints st)) (draws st)
  else st.

(** [stderr_lines.append(line)]. *)
Definition append_line (line : string) (st : State) : State :=
  mkState (current_mode st) (first_draw st) (last_bytes_copied st)
          (last_error_position st) (error_ranges st) (stderr_lines st ++ [line])
          (has_prog_win st) (has_block_win st) (repaints st) (draws st).

(** [if error_re.search(line): last_error_position = last_bytes_copied]. *)
Definition note_error (line : string) (st : State) : State :=
  if error_re_search line then
    mkState (current_mode st) (first_draw st) (last_bytes_copied st)
            (last_bytes_copied st) (error_ranges st) (stderr_lines st)
            (has_prog_win st) (has_block_win st) (repaints st) (draws st)
  else st.

(** [if last_error_position > 0: error_ranges.append(...)]. *)
Definition close_error (bytes : Z) (st : State) : State :=
  if last_error_position st >? 0 then
    mkState (current_mode st) (first_draw st) (last_bytes_copied st)
            0 (error_ranges st ++ [(last_error_position st, bytes)]) (stderr_lines st)
            (has_prog_win st) (has_block_win st) (repaints st) (draws st)
  else st.

(** The dispatch to the renderer of the current mode, then
    [first_draw = False; last_bytes_copied = bytes_copied], for a call
    that raises nothing ([Render.turn_raises] tells when one does). *)
Definition draw_sample (smp : Sample) (st : State) : State :=
  mkState (current_mode st) false (bytes_copied smp)
          (last_error_position st) (error_ranges st) (stderr_lines st)
          (match current_mode st with Progress => true | BlockMap => has_prog_win st end)
          (match current_mode st with Progress => has_block_win st | BlockMap => true end)
          (repaints st)
          (draws st ++ [mkDraw (current_mode st) smp (first_draw st) (error_ranges st)]).

(** One turn of [while process.poll() is None] that raises nothing. *)
Definition step (total_size_bytes : Z) (st : State) (t : Tick) : State :=
  let st1 := on_key (tick_key t) st in
  let line := tick_line t in
  if String.eqb line "" then st1
  else
    let st2 := note_error line (append_line line st1) in
    match parse_bytes line with
    | None => st2
    | Some bytes =>
        let st3 := close_error bytes st2 in
        draw_sample (compute_sample total_size_bytes bytes (tick_elapsed t)) st3
    end.

Definition run_loop (total_size_bytes : Z) (st : State) (ticks : list Tick) : State :=
  List.fold_left (step total_size_bytes) ticks st.

(** The diagnostic text kept for the verdict: the lines read by the
    loop, then the pieces of what [process.stderr.read()] returns. *)
Definition stderr_text (lines : list string) (remaining : string) : string :=
  Py.join (lines ++ (if String.eqb remaining "" then [] else Py.split_lf remaining)).

(** The success policy. *)
Definition operation_succeeded (returncode : Z) (text : string) : bool :=
  if returncode =? 0 then true
  else if (returncode =? 1) && Py.contains "No space left on device" text then true
  else false.

(** [_show_operation_result] paints the final screen (and waits for a
    key) only when the window of the current mode exists. *)
Definition result_shown (st : State) : bool :=
  match current_mode st with
  | Progress => has_prog_win st
  | BlockMap => has_block_win st
  end.

(** [run_dd_with_progress]: the flag returned and the final state. *)
Definition run_dd_with_progress (total_size_bytes : Z) (display_mode : Mode)
    (ticks : list Tick) (remaining : string) (returncode : Z) : bool * State :=
  let st := run_loop total_size_bytes (init_state display_mode) ticks in
  (operation_succeeded returncode (stderr_text (stderr_lines st) remaining), st).

(** [run_dd_with_block_map] reads lines until [readline] returns the
    empty string; the value is its local [operation_succeeded]. *)
Fixpoint lines_until_empty (lines : list string) : list string :=
  match lines with
  | [] => []
  | l :: rest => if String.eqb l "" then [] else l :: lines_until_empty rest
  end.

Definition run_dd_with_block_map (lines : list string) (remaining : string)
    (returncode : Z) : bool :=
  operation_succeeded returncode (stderr_text (lines_until_empty lines) remaining).

End Monitor.

(** ** More Python operations: slices, splitting on white space, padding *)

Module PyMore.

(** [s[:k]] for any integer [k]: a negative [k] counts from the end. *)
Definition slice_to (k : Z) (s : string) : string :=
  if k <? 0 then Py.take (Z.to_nat (Py.len s + k)) s else Py.take (Z.to_nat k) s.

(** [l[i:]] on a list, for [0 <= i]. *)
Definition list_from {A : Type} (i : Z) (l : list A) : list A :=
  List.skipn (Z.to_nat i) l.

(** [enumerate(l)]. *)
Fixpoint enumerate_from {A : Type} (i : Z) (l : list A) : list (Z * A) :=
  match l with
  | [] => []
  | x :: l' => (i, x) :: enumerate_from (i + 1) l'
  end.
Definition enumerate {A : Type} (l : list A) : list (Z * A) := enumerate_from 0 l.

(** [s.split()]: the maximal runs of characters that are not white
    space. *)
Fixpoint split_ws_aux (cur : string) (s : string) : list string :=
  match s with
  | EmptyString => if String.eqb cur "" then [] else [cur]
  | String c s' =>
      if Py.is_space c
      then (if String.eqb cur "" then split_ws_aux "" s'
            else cur :: split_ws_aux "" s')
      else split_ws_aux (cur ++ String c "") s'
  end.
Definition split_ws (s : string) : list string := split_ws_aux "" s.

(** [c * n] for a one-character string [c]: empty when [n <= 0]. *)
Fixpoint repeat_char (c : ascii) (n : nat) : string :=
  match n with
  | O => EmptyString
  | S n' => String c (repeat_char c n')
  end.

(** [f"{s:<{width}}"] for [0 <= width]: [s] padded with spaces on the
    right up to [width]; never cut. *)
Definition ljust (width : Z) (s : string) : string :=
  s ++ repeat_char " " (Z.to_nat (width - Py.len s)).

(** [l[i]] on a list: a negative index counts from the end; [None] is
    [IndexError]. *)
Definition index {A : Type} (l : list A) (i : Z) : option A :=
  let n := Z.of_nat (List.length l) in
  if i <? 0 then (if 0 <=? n + i then List.nth_error l (Z.to_nat (n + i)) else None)
  else List.nth_error l (Z.to_nat i).

End PyMore.

(** ** The yes/no confirmation, the message box and the two choice menus *)

Module Choice.
Import Dialog.

(** [show_confirmation]: the loop over [getch]; the value is the answer
    and the keys left unread, [None] while it waits. *)
Definition is_yes (key : Z) : bool := key_in key [Curses.ord "y"; Curses.ord "Y"].
Definition is_no (key : Z) : bool :=
  key_in key [Curses.ord "n"; Curses.ord "N"; 27; Curses.ord "q"; Curses.ord "Q"].

Fixpoint show_confirmation (keys : list Z) : option (bool * list Z) :=
  match keys with
  | [] => None
  | key :: rest =>
      if key =? Curses.KEY_MOUSE then show_confirmation rest
      else if is_yes key then Some (true, rest)
      else if is_no key then Some (false, rest)
      else show_confirmation rest
  end.

(** [show_message_box]: a window, then the events up to the first one that
    is not a mouse event. *)
Fixpoint wait_any_key (evs : list Event) : option (list Event) :=
  match evs with
  | [] => None
  | ev :: rest => if ev_key ev =? Curses.KEY_MOUSE then wait_any_key rest else Some rest
  end.

Definition show_message_box (title : string) (w : World) : option World :=
  let w1 := draw_bordered_window title w in
  match wait_any_key (input w1) with
  | None => None
  | Some rest => Some (with_input rest w1)
  end.

(** What a turn of the menu loop may leave when the menu has [n] rows: a
    selected row of the menu, or a returned value that is [-1] or a row of
    the menu. *)
Definition step_in_range (n : Z) (res : Step MenuState Z) : Prop :=
  match res with
  | Continue st' => 0 <= current_row st' < n
  | Return r => r = -1 \/ 0 <= r < n
  end.

(** What a function gives back: a value, or the exception it raises. *)
Inductive Outcome (A : Type) : Type :=
| Returned (a : A)
| Raised (exn : string).
Arguments Returned {A} a.
Arguments Raised {A} exn.

Section Menus.
Variable format : string -> string -> string.
Variables show_help_screen show_about_screen : World -> option World.
Variables app_h scr_w : Z.

(** [(extension, command, description)]. *)
Definition CompressionInfo : Type := option string * option string * string.

Definition compression_options : list string :=
  ["None - No compression (fastest, largest file)";
   "gzip - Good compression, widely compatible (recommended)";
   "pigz - Parallel gzip (faster on multi-core CPUs)";
   "zstd - Modern compression (fast, excellent ratio)";
   "xz - Maximum compression (slowest, smallest file)"].

(** The dictionary [compression_map]; [None] is [KeyError]. *)
Definition compression_map (k : Z) : option CompressionInfo :=
  if k =? 0 then Some (None, None, "no compression")
  else if k =? 1 then Some (Some ".gz", Some "gzip -c", "gzip compression")
  else if k =? 2 then Some (Some ".gz", Some "pigz -c", "parallel gzip compression")
  else if k =? 3 then Some (Some ".zst", Some "zstd -c", "zstd compression")
  else if k =? 4 then Some (Some ".xz", Some "xz -c", "xz compression")
  else None.

(** [get_compression_choice]: [Returned None] is the cancelled choice. *)
Definition get_compression_choice (fuel : nat) (w : World)
  : option (Outcome (option CompressionInfo) * World) :=
  match get_menu_choice format show_help_screen show_about_screen
          "Select Compression Method" compression_options app_h scr_w fuel w with
  | None => None
  | Some (choice_idx, w') =>
      if choice_idx =? -1 then Some (Returned None, w')
      else match compression_map choice_idx with
           | Some info => Some (Returned (Some info), w')
           | None => Some (Raised "KeyError", w')
           end
  end.

(** [get_block_size_choice]: [detected] is the [recommended_str] of
    [detect_optimal_block_size] when a device was given and the detection
    worked; the message box that announces it comes first. *)
Definition block_size_options (detected : option string) : list string :=
  match detected with
  | Some recommended_str =>
      [recommended_str ++ " - RECOMMENDED for alignment (detected)";
       "512 bytes - Traditional sector size, slowest";
       "4K - Modern sector size, good balance";
       "64K - Fast for most drives";
       "1M - Fastest for large sequential operations"]
  | None =>
      ["64K - Recommended default";
       "512 bytes - Traditional sector size, slowest";
       "4K - Modern sector size, good balance";
       "1M - Fastest for large sequential operations"]
  end.

Definition block_sizes (detected : option string) : list string :=
  match detected with
  | Some recommended_str => [recommended_str; "512"; "4K"; "64K"; "1M"]
  | None => ["64K"; "512"; "4K"; "1M"]
  end.

Definition get_block_size_choice (operation_type : string) (detected : option string)
    (fuel : nat) (w : World) : option (Outcome (option string) * World) :=
  let shown :=
    match detected with
    | Some _ => show_message_box "Drive Alignment Detection" w
    | None => Some w
    end in
  match shown with
  | None => None
  | Some w1 =>
      match get_menu_choice format show_help_screen show_about_screen
              ("Select Block Size for " ++ operation_type)
              (block_size_options detected) app_h scr_w fuel w1 with
      | None => None
      | Some (bs_idx, w') =>
          if bs_idx =? -1 then Some (Returned None, w')
          else match PyMore.index (block_sizes detected) bs_idx with
               | Some bs => Some (Returned (Some bs), w')
               | None => Some (Raised "IndexError", w')
               end
      end
  end.

End Menus.

End Choice.

(** ** Keys typed into the text prompt *)

Module Typing.

(** The [getch] results of typing the characters of [s] one by one. *)
Fixpoint keys_of (s : string) : list Z :=
  match s with
  | EmptyString => []
  | String c s' => Curses.ord c :: keys_of s'
  end.

(** A CSI or SS3 escape sequence as the terminal sends it: Esc, [[] (91)
    or [O] (79), parameter bytes outside 64..126, one final byte inside. *)
Definition escape_sequence (intro : Z) (params : list Z) (final : Z) : list Z :=
  27 :: intro :: (params ++ [final]).

Definition is_param (k : Z) : Prop := k <> -1 /\ ~ (64 <= k <= 126).

(** What the editing loop keeps true of its state. *)
Definition edit_ok (max_len : Z) (st : Dialog.EditState) : Prop :=
  (Dialog.cursor_pos st <= String.length (Dialog.input_str st))%nat
  /\ Py.len (Dialog.input_str st) <= Z.max 0 max_len.

End Typing.

(** ** Formatting of sizes and durations *)

Module Format.

(** The dictionary [power_labels]; [None] is [KeyError]. *)
Definition power_labels (n : Z) : option string :=
  if n =? 0 then Some "B"
  else if n =? 1 then Some "KiB"
  else if n =? 2 then Some "MiB"
  else if n =? 3 then Some "GiB"
  else if n =? 4 then Some "TiB"
  else None.

(** [while b >= power and n < len(power_labels): b /= power; n += 1].
    The counter [n] stops the loop after five turns at most, which is the
    fuel [format_bytes] gives it. *)
Fixpoint scale_loop (fuel : nat) (b : Q) (n : Z) : Q * Z :=
  match fuel with
  | O => (b, n)
  | S fuel' =>
      if Qle_bool 1024 b && (n <? 5)
      then scale_loop fuel' (b / 1024)%Q (n + 1)
      else (b, n)
  end.

(** The text [format_bytes] builds: ["N/A"], ["0.0 B"], or
    [f"{value:.2f} {label}"] (the rendering of the two decimals is not
    modelled). *)
Inductive BytesText :=
| NotAvailable
| ZeroBytes
| Scaled (value : Q) (label : string).

(** [format_bytes(b)]; [None] is the Python [None]. *)
Definition format_bytes (b : option Q) : Choice.Outcome BytesText :=
  match b with
  | None => Choice.Returned NotAvailable
  | Some q =>
      if (Qnum q <? 0)%Z then Choice.Returned NotAvailable
      else if (Qnum q =? 0)%Z then Choice.Returned ZeroBytes
      else
        let (v, n) := scale_loop 5 q 0 in
        match power_labels n with
        | Some label => Choice.Returned (Scaled v label)
        | None => Choice.Raised "KeyError"
        end
  end.

(** [format_time(seconds)]: [None] stands for the text ["??:??:??"], and
    [(h, m, s)] for [f"{int(h):02d}:{int(m):02d}:{int(s):02d}"], after the
    two [divmod]. *)
Definition format_time_fields (seconds : option Q) : option (Z * Z * Z) :=
  match seconds with
  | None => None
  | Some sec =>
      if (Qnum sec <? 0)%Z then None
      else
        let m0 := Qfloor (sec / 60)%Q in
        let s := (sec - inject_Z (60 * m0))%Q in
        let h := m0 / 60 in
        let m := m0 mod 60 in
        Some (h, m, Py.int_of s)
  end.

(** [f"{n:02d}"] for [0 <= n]. *)
Definition pad2 (n : Z) : string :=
  if n <? 10 then "0" ++ Py.str_of_int n else Py.str_of_int n.

Definition format_time (seconds : option Q) : string :=
  match format_time_fields seconds with
  | None => "??:??:??"
  | Some (h, m, s) => pad2 h ++ ":" ++ pad2 m ++ ":" ++ pad2 s
  end.

(** The name column of [format_file_entry]: the name, cut to
    [max_name_len - 3] characters and three dots when it is longer than
    [max_name_len = max_width - 30], then padded to that width. *)
Definition name_column (name : string) (max_width : Z) : string :=
  let max_name_len := max_width - 30 in
  let name' :=
    if Py.len name >? max_name_len
    then PyMore.slice_to (max_name_len - 3) name ++ "..."
    else name in
  PyMore.ljust max_name_len name'.

End Format.

(** ** The progress bar and the log pad *)

Module Widgets.

(** The bar of [_draw_progress_bar] for a screen [scr_w] wide: [true] is a
    filled glyph, [false] an empty one. *)
Definition bar_width (scr_w : Z) : Z := Z.max 1 (scr_w - 10 - 6).

Definition filled_len (scr_w : Z) (pct : Q) : Z :=
  Py.int_of (inject_Z (bar_width scr_w) * pct / 100)%Q.

Definition progress_bar (scr_w : Z) (pct : Q) : list bool :=
  let bw := bar_width scr_w in
  let fl := filled_len scr_w pct in
  List.firstn (Z.to_nat bw)
    (List.repeat true (Z.to_nat fl) ++ List.repeat false (Z.to_nat (bw - fl))).

(** [CursesHandler.emit], the redraw of the pad of [h] rows and [w]
    columns after the record was appended: every [addstr(i, 0, text)]. *)
Definition emit_rows (h w : Z) (log_messages : list string) : list (Z * string) :=
  let start_line := Z.max 0 (Z.of_nat (List.length log_messages) - (h - 1)) in
  List.map (fun '(i, line) => (i, PyMore.slice_to (w - 1) line))
           (PyMore.enumerate (PyMore.list_from start_line log_messages)).

End Widgets.

(** ** Block-size detection and the mount check *)

Module Devices.

(** Python truth of an optional integer: [None] and [0] are false. *)
Definition truthy (x : option Z) : bool :=
  match x with
  | Some v => negb (v =? 0)
  | None => false
  end.

Definition value (x : option Z) : Z :=
  match x with
  | Some v => v
  | None => 0
  end.

(** The value of [blockdev --getioopt], replaced by the one read from
    [fdisk] when it is missing or zero. *)
Definition effective_opt (opt_size fdisk_opt_size : option Z) : option Z :=
  if (negb (truthy opt_size) || (value opt_size =? 0)) && truthy fdisk_opt_size
  then fdisk_opt_size else opt_size.

(** The block size [detect_optimal_block_size] recommends. *)
Definition recommended (opt_size fdisk_opt_size phys_size log_size : option Z) : Z :=
  let opt := effective_opt opt_size fdisk_opt_size in
  if truthy opt && (value opt >? 0) && (value opt <=? 1048576) then value opt
  else if truthy phys_size && (value phys_size >=? 4096) then Z.max (value phys_size) 65536
  else if truthy log_size && (value log_size >=? 4096) then 65536
  else 65536.

(** The number and the unit (in bytes) that [recommended_str] shows. *)
Definition recommended_parts (r : Z) : Z * Z :=
  if r >=? 1048576 then (r / 1048576, 1048576)
  else if r >=? 1024 then (r / 1024, 1024)
  else (r, 1).

Definition recommended_str (r : Z) : string :=
  if r >=? 1048576 then Py.str_of_int (r / 1048576) ++ "M"
  else if r >=? 1024 then Py.str_of_int (r / 1024) ++ "K"
  else Py.str_of_int r.

(** [is_device_mounted] on the text of [/proc/mounts]: the first line with
    two fields at least whose device field starts with [device]. *)
Fixpoint first_mount (device : string) (lines : list string) : bool * option string :=
  match lines with
  | [] => (false, None)
  | line :: rest =>
      if String.eqb (Py.strip line) "" then first_mount device rest
      else
        match PyMore.split_ws line with
        | mounted_device :: mount_point :: _ =>
            if String.eqb mounted_device device || String.prefix device mounted_device
            then (true, Some mount_point)
            else first_mount device rest
        | _ => first_mount device rest
        end
  end.

Definition is_device_mounted (mounts device : string) : bool * option string :=
  first_mount device (Py.split_lf mounts).

End Devices.

(** ** The free-space check and the generated file name *)

Module Storage.

(** The second value [check_free_space] returns: a formatted size, or the
    literal ["Unknown"]. *)
Inductive SpaceText :=
| Unknown
| Formatted (t : Format.BytesText).

(** The [except Exception] branch: [(None, "Unknown",
    format_bytes(required_bytes))]; an exception raised here is not
    caught. *)
Definition could_not_check (required_bytes : Z)
  : Choice.Outcome (option bool * SpaceText * Format.BytesText) :=
  match Format.format_bytes (Some (inject_Z required_bytes)) with
  | Choice.Returned required_str => Choice.Returned (None, Unknown, required_str)
  | Choice.Raised e => Choice.Raised e
  end.

(** [check_free_space(path, required_bytes)] on the result of
    [os.statvfs(path)]: [Some (f_bavail, f_frsize)], or [None] when the
    call raises. *)
Definition check_free_space (stat : option (Z * Z)) (required_bytes : Z)
  : Choice.Outcome (option bool * SpaceText * Format.BytesText) :=
  match stat with
  | None => could_not_check required_bytes
  | Some (f_bavail, f_frsize) =>
      let free_bytes := f_bavail * f_frsize in
      match Format.format_bytes (Some (inject_Z free_bytes)) with
      | Choice.Raised _ => could_not_check required_bytes
      | Choice.Returned free_str =>
          match Format.format_bytes (Some (inject_Z required_bytes)) with
          | Choice.Raised _ => could_not_check required_bytes
          | Choice.Returned required_str =>
              Choice.Returned
                (Some (free_bytes >=? required_bytes), Formatted free_str, required_str)
          end
      end
  end.

(** [s.replace(old, new)] for a non-empty [old]: the occurrences of
    [old] are replaced from the left, without overlap.  [skip] counts the
    characters of a matched occurrence still to pass over. *)
Fixpoint replace_from (skip : nat) (old new s : string) : string :=
  match s with
  | EmptyString => EmptyString
  | String c s' =>
      match skip with
      | S k => replace_from k old new s'
      | O =>
          if String.prefix old s
          then new ++ replace_from (String.length old - 1) old new s'
          else String c (replace_from 0 old new s')
      end
  end.
Definition replace (old new s : string) : string := replace_from 0 old new s.

Definition device_short (device_name : string) : string :=
  replace "/" "_" (replace "/dev/" "" device_name).

(** [generate_filename]; the time stamp and the host name are read from
    the system. *)
Definition generate_filename (base_name device_name extension : string)
    (timestamp hostname : string) : string :=
  if negb (String.eqb base_name "")
  then base_name ++ "_" ++ device_short device_name ++ "_" ++ timestamp ++ extension
  else hostname ++ "_" ++ device_short device_name ++ "_" ++ timestamp ++ extension.

End Storage.

(** ** Summaries of a monitored run *)

Module Run.
Import Monitor.

Definition is_toggle (key : Z) : bool :=
  (key =? Curses.ord "v") || (key =? Curses.ord "V").

(** The byte counts of the lines that carry one, in order. *)
Definition parsed_counts (ticks : list Tick) : list Z :=
  List.flat_map
    (fun t => match parse_bytes (tick_line t) with
              | Some b => [b]
              | None => []
              end) ticks.

(** The windows that exist are tied to [first_draw]: only the window of
    the current mode can exist, and it does exactly when the last turn that
    touched the display was a draw. *)
Definition win_inv (st : State) : Prop :=
  has_prog_win st
  = negb (first_draw st) && match current_mode st with Progress => true | BlockMap => false end
  /\ has_block_win st
     = negb (first_draw st) && match current_mode st with Progress => false | BlockMap => true end.

(** Some line with a byte count was read in a turn after which the toggle
    key was not pressed again. *)
Definition drawn_after_last_toggle (ticks : list Tick) : Prop :=
  exists pre t post,
    ticks = (pre ++ t :: post)%list
    /\ parse_bytes (tick_line t) <> None
    /\ Forall (fun u => is_toggle (tick_key u) = false) post.

End Run.

(** ** The exceptions of a loop turn

    Nothing in the loop of [run_dd_with_progress] catches what the
    arithmetic of a sample or a renderer raises: the exception ends the
    run.  [Monitor.step] is the turn that raises nothing. *)

Module Render.
Import Monitor.

Definition raised {A : Type} (o : Choice.Outcome A) : option string :=
  match o with
  | Choice.Raised e => Some e
  | Choice.Returned _ => None
  end.

Definition or_else (a b : option string) : option string :=
  match a with
  | Some e => Some e
  | None => b
  end.

(** The statistics lines of both renderers call [format_bytes], outside
    any [try], on the total size, on the speed and on the bytes copied.
    The speed is the double the code holds. *)
Definition stats_raise (total_size_bytes : Z) (smp : Sample) : option string :=
  or_else (raised (Format.format_bytes (Some (inject_Z total_size_bytes))))
    (or_else (raised (Format.format_bytes (Some (Binary64.round (speed_bps smp)))))
       (raised (Format.format_bytes (Some (inject_Z (bytes_copied smp)))))).

(** What a turn that read the byte count [bytes] raises, if anything:
    [OverflowError] from the conversion of an [int] to a double (in the
    speed, the percentage or the ETA), then [KeyError] from the renderer. *)
Definition turn_raises (total_size_bytes bytes : Z) (elapsed : Q) : option string :=
  if Qpositive elapsed && Binary64.overflows (inject_Z bytes)
  then Some "OverflowError"
  else if percentage_overflows bytes total_size_bytes then Some "OverflowError"
  else if Qpositive (compute_speed bytes elapsed)
          && Binary64.overflows (inject_Z (total_size_bytes - bytes))
  then Some "OverflowError"
  else stats_raise total_size_bytes (compute_sample total_size_bytes bytes elapsed).

(** One turn of the loop, with its exceptions. *)
Definition step_checked (total_size_bytes : Z) (st : State) (t : Tick)
  : Choice.Outcome State :=
  match parse_bytes (tick_line t) with
  | Some bytes =>
      match turn_raises total_size_bytes bytes (tick_elapsed t) with
      | Some e => Choice.Raised e
      | None => Choice.Returned (step total_size_bytes st t)
      end
  | None => Choice.Returned (step total_size_bytes st t)
  end.

Fixpoint run_loop_checked (total_size_bytes : Z) (st : State) (ticks : list Tick)
  : Choice.Outcome State :=
  match ticks with
  | [] => Choice.Returned st
  | t :: rest =>
      match step_checked total_size_bytes st t with
      | Choice.Returned st' => run_loop_checked total_size_bytes st' rest
      | Choice.Raised e => Choice.Raised e
      end
  end.

End Render.

(* ================================================================= *)
(** * Part II: properties *)
(* ================================================================= *)

From Stdlib Require Import Lqa.

(** ** Rounding to a double *)

Section Binary64Facts.
Import Binary64.
Local Open Scope Q_scope.

Lemma two_neq_0 : ~ 2 == 0.
Proof. discriminate. Qed.

Lemma pow2_pos (e : Z) : 0 < pow2 e.
Proof. apply Qpower_0_lt. reflexivity. Qed.

Lemma pow2_add (a b : Z) : pow2 (a + b) == pow2 a * pow2 b.
Proof. apply Qpower_plus, two_neq_0. Qed.

Lemma pow2_le (a b : Z) : (a <= b)%Z -> pow2 a <= pow2 b.
Proof. intros H. apply Qpower_le_compat_l; [exact H | discriminate]. Qed.

Lemma pow2_lt (a b : Z) : (a < b)%Z -> pow2 a < pow2 b.
Proof. intros H. apply Qpower_lt_compat_l; [exact H | reflexivity]. Qed.

Lemma pow2_int (n : Z) : (0 <= n)%Z -> pow2 n == inject_Z (2 ^ n).
Proof. intros H. unfold pow2. now rewrite (Zpower_Qpower 2 n H). Qed.

Lemma pow2_sub (a b : Z) : pow2 (a - b) * pow2 b == pow2 a.
Proof. rewrite <- pow2_add. now replace (a - b + b)%Z with a by lia. Qed.

(** *** The exponent *)

Lemma ilog2_spec (q : Q) :
  0 < q -> pow2 (ilog2 q) <= q /\ q < pow2 (ilog2 q + 1).
Proof.
  intros Hq. destruct q as [n d]. unfold ilog2. cbn [Qnum Qden].
  assert (Hn : (0 < n)%Z) by (unfold Qlt in Hq; cbn in Hq; lia).
  set (a := Z.log2 n). set (b := Z.log2 (Z.pos d)).
  destruct (Z.log2_spec n Hn) as [A1 A2]. fold a in A1, A2.
  destruct (Z.log2_spec (Z.pos d) eq_refl) as [B1 B2]. fold b in B1, B2.
  assert (Ha : (0 <= a)%Z) by apply Z.log2_nonneg.
  assert (Hb : (0 <= b)%Z) by apply Z.log2_nonneg.
  assert (QA1 : pow2 a <= inject_Z n) by (rewrite pow2_int by lia; now rewrite <- Zle_Qle).
  assert (QA2 : inject_Z n < pow2 (a + 1))
    by (rewrite pow2_int by lia; rewrite <- Zlt_Qlt; exact A2).
  assert (QB1 : pow2 b <= inject_Z (Z.pos d)) by (rewrite pow2_int by lia; now rewrite <- Zle_Qle).
  assert (QB2 : inject_Z (Z.pos d) < pow2 (b + 1))
    by (rewrite pow2_int by lia; rewrite <- Zlt_Qlt; exact B2).
  assert (HD : 0 < inject_Z (Z.pos d)) by reflexivity.
  assert (E : n # d == inject_Z n / inject_Z (Z.pos d)) by apply Qmake_Qdiv.
  assert (Up : n # d < pow2 (a - b + 1)).
  { rewrite E. apply Qlt_shift_div_r; [exact HD|].
    apply Qlt_le_trans with (pow2 (a + 1)); [exact QA2|].
    rewrite <- (pow2_sub (a + 1) b). replace (a + 1 - b)%Z with (a - b + 1)%Z by lia.
    apply Qmult_le_l; [apply pow2_pos | exact QB1]. }
  assert (Lo : pow2 (a - b - 1) <= n # d).
  { rewrite E. apply Qle_shift_div_l; [exact HD|].
    apply Qle_trans with (pow2 a); [|exact QA1].
    rewrite <- (pow2_sub a (b + 1)). replace (a - (b + 1))%Z with (a - b - 1)%Z by lia.
    apply Qmult_le_l; [apply pow2_pos | apply Qlt_le_weak, QB2]. }
  destruct (Qle_bool (pow2 (a - b)) (n # d)) eqn:T.
  - apply Qle_bool_iff in T. split; [exact T | exact Up].
  - split; [exact Lo|]. replace (a - b - 1 + 1)%Z with (a - b)%Z by lia.
    apply Qnot_le_lt. intros H. apply Qle_bool_iff in H. congruence.
Qed.

Lemma ilog2_unique (q : Q) (e : Z) :
  pow2 e <= q -> q < pow2 (e + 1) -> 0 < q -> ilog2 q = e.
Proof.
  intros L U Hq. destruct (ilog2_spec q Hq) as [L' U'].
  destruct (Z.lt_trichotomy (ilog2 q) e) as [H | [H | H]]; [exfalso | exact H | exfalso].
  - assert (pow2 (ilog2 q + 1) <= pow2 e) by (apply pow2_le; lia). lra.
  - assert (pow2 (e + 1) <= pow2 (ilog2 q)) by (apply pow2_le; lia). lra.
Qed.

Lemma ilog2_comp (p q : Q) : p == q -> 0 < p -> ilog2 p = ilog2 q.
Proof.
  intros E Hp. destruct (ilog2_spec p Hp) as [L U].
  symmetry. apply ilog2_unique; rewrite <- E; assumption.
Qed.

Lemma ilog2_mono (x y : Q) : 0 < x -> x <= y -> (ilog2 x <= ilog2 y)%Z.
Proof.
  intros Hx Hxy. assert (Hy : 0 < y) by lra.
  destruct (ilog2_spec x Hx) as [Lx Ux]. destruct (ilog2_spec y Hy) as [Ly Uy].
  apply Z.le_ngt. intros H.
  assert (pow2 (ilog2 y + 1) <= pow2 (ilog2 x)) by (apply pow2_le; lia). lra.
Qed.

Lemma ilog2_below (q : Q) (n : Z) : 0 < q -> q < pow2 n -> (ilog2 q < n)%Z.
Proof.
  intros Hq H. destruct (ilog2_spec q Hq) as [L _].
  apply Z.lt_nge. intros Hn.
  assert (pow2 n <= pow2 (ilog2 q)) by (apply pow2_le; lia). lra.
Qed.

(** *** Rounding to an integer *)

Lemma rne_cases (x : Q) :
  (rne x = Qfloor x /\ x - inject_Z (Qfloor x) <= 1 # 2)
  \/ (rne x = (Qfloor x + 1)%Z /\ (1 # 2) <= x - inject_Z (Qfloor x)).
Proof.
  unfold rne. destruct (Qcompare_spec (x - inject_Z (Qfloor x)) (1 # 2)) as [E | L | G].
  - destruct (Z.even (Qfloor x)); [left | right]; split; try reflexivity; lra.
  - left. split; [reflexivity | lra].
  - right. split; [reflexivity | lra].
Qed.

Lemma rne_comp (x y : Q) : x == y -> rne x = rne y.
Proof.
  intros E. unfold rne. rewrite (Qfloor_comp x y E).
  assert (E2 : x - inject_Z (Qfloor y) == y - inject_Z (Qfloor y)) by now rewrite E.
  now rewrite (Qcompare_comp _ _ E2 (1 # 2) (1 # 2) (Qeq_refl _)).
Qed.

Lemma rne_error (x : Q) : Qabs (inject_Z (rne x) - x) <= 1 # 2.
Proof.
  pose proof (Qfloor_le x) as Fl. pose proof (Qlt_floor x) as Fu.
  rewrite inject_Z_plus in Fu. change (inject_Z 1) with 1 in Fu.
  apply Qabs_Qle_condition.
  destruct (rne_cases x) as [[-> H] | [-> H]].
  - split; lra.
  - rewrite inject_Z_plus. change (inject_Z 1) with 1. split; lra.
Qed.

Lemma rne_int (n : Z) : rne (inject_Z n) = n.
Proof.
  unfold rne. rewrite Qfloor_Z.
  destruct (Qcompare_spec (inject_Z n - inject_Z n) (1 # 2)) as [E | L | G];
    [exfalso; lra | reflexivity | exfalso; lra].
Qed.

Lemma rne_mono (x y : Q) : x <= y -> (rne x <= rne y)%Z.
Proof.
  intros Hxy. pose proof (Qfloor_resp_le x y Hxy) as Hf.
  pose proof (Qfloor_le x) as Flx. pose proof (Qlt_floor x) as Fux.
  pose proof (Qfloor_le y) as Fly. pose proof (Qlt_floor y) as Fuy.
  destruct (Z.eq_dec (Qfloor x) (Qfloor y)) as [E | NE].
  - unfold rne. rewrite <- E.
    destruct (Qcompare_spec (x - inject_Z (Qfloor x)) (1 # 2)) as [Ex | Lx | Gx];
      destruct (Qcompare_spec (y - inject_Z (Qfloor x)) (1 # 2)) as [Ey | Ly | Gy];
      try lia; try (exfalso; lra); destruct (Z.even (Qfloor x)); lia.
  - assert (Qfloor x + 1 <= Qfloor y)%Z by lia.
    destruct (rne_cases x) as [[-> _] | [-> _]]; destruct (rne_cases y) as [[-> _] | [-> _]]; lia.
Qed.

Lemma rne_ge_int (x : Q) (n : Z) : inject_Z n <= x -> (n <= rne x)%Z.
Proof. intros H. rewrite <- (rne_int n). now apply rne_mono. Qed.

Lemma rne_le_int (x : Q) (n : Z) : x <= inject_Z n -> (rne x <= n)%Z.
Proof. intros H. rewrite <- (rne_int n). now apply rne_mono. Qed.

(** *** Rounding to a double *)

Lemma round_pos_eq (q : Q) :
  round_pos q == inject_Z (rne (q / pow2 (quantum q))) * pow2 (quantum q).
Proof. unfold round_pos. apply Qred_correct. Qed.

Lemma quantum_comp (p q : Q) : p == q -> 0 < p -> quantum p = quantum q.
Proof. intros E Hp. unfold quantum. now rewrite (ilog2_comp p q E Hp). Qed.

Lemma round_pos_comp (p q : Q) : p == q -> 0 < p -> round_pos p = round_pos q.
Proof.
  intros E Hp. unfold round_pos. apply Qred_complete.
  rewrite (quantum_comp p q E Hp).
  assert (E2 : p / pow2 (quantum q) == q / pow2 (quantum q)) by now rewrite E.
  now rewrite (rne_comp _ _ E2).
Qed.

Lemma scaled_pos (q : Q) (k : Z) : 0 < q -> 0 < q / pow2 k.
Proof. intros H. apply Qlt_shift_div_l; [apply pow2_pos | lra]. Qed.

Lemma round_pos_nonneg (q : Q) : 0 < q -> 0 <= round_pos q.
Proof.
  intros Hq. rewrite round_pos_eq.
  apply Qmult_le_0_compat; [|apply Qlt_le_weak, pow2_pos].
  change 0 with (inject_Z 0). rewrite <- Zle_Qle. apply rne_ge_int.
  apply Qlt_le_weak. now apply scaled_pos.
Qed.

Lemma round_pos_error (q : Q) :
  0 < q -> Qabs (round_pos q - q) <= pow2 (quantum q - 1).
Proof.
  intros Hq. rewrite round_pos_eq. set (k := quantum q).
  pose proof (pow2_pos k) as Pk.
  assert (Eq : q == (q / pow2 k) * pow2 k) by (field; lra).
  assert (Eh : pow2 (k - 1) == (1 # 2) * pow2 k).
  { rewrite <- (pow2_sub k 1). change (pow2 1) with 2.
    replace (k - 1)%Z with (k - 1)%Z by reflexivity. field. }
  pose proof (rne_error (q / pow2 k)) as Hr.
  apply Qabs_Qle_condition in Hr. destruct Hr as [H1 H2].
  apply Qabs_Qle_condition. rewrite Eh.
  set (z := q / pow2 k) in *. set (m := inject_Z (rne z)) in *.
  generalize dependent (pow2 k). intros P Pk Eq Eh.
  split; nra.
Qed.

Lemma round_pos_normal_ge (q : Q) :
  0 < q -> (-1074 <= ilog2 q - 52)%Z -> pow2 (ilog2 q) <= round_pos q.
Proof.
  intros Hq Hn. rewrite round_pos_eq.
  unfold quantum. rewrite Z.max_l by lia. set (e := ilog2 q).
  destruct (ilog2_spec q Hq) as [L _]. fold e in L.
  assert (Hm : (2 ^ 52 <= rne (q / pow2 (e - 52)))%Z).
  { apply rne_ge_int. apply Qle_shift_div_l; [apply pow2_pos|].
    rewrite <- pow2_int by lia. rewrite <- pow2_add.
    now replace (52 + (e - 52))%Z with e by lia. }
  rewrite Zle_Qle in Hm. rewrite <- pow2_int in Hm by lia.
  rewrite <- (pow2_sub e (e - 52)). replace (e - (e - 52))%Z with 52%Z by lia.
  apply Qmult_le_compat_r; [exact Hm | apply Qlt_le_weak, pow2_pos].
Qed.

Lemma round_pos_le_pow2 (q : Q) (n : Z) :
  0 < q -> q <= pow2 n -> (quantum q <= n)%Z -> round_pos q <= pow2 n.
Proof.
  intros Hq Hle Hk. rewrite round_pos_eq. set (k := quantum q) in *.
  assert (Hm : (rne (q / pow2 k) <= 2 ^ (n - k))%Z).
  { apply rne_le_int. apply Qle_shift_div_r; [apply pow2_pos|].
    rewrite <- pow2_int by lia. now rewrite pow2_sub. }
  rewrite Zle_Qle in Hm. rewrite <- pow2_int in Hm by lia.
  rewrite <- (pow2_sub n k).
  apply Qmult_le_compat_r; [exact Hm | apply Qlt_le_weak, pow2_pos].
Qed.

Lemma round_pos_mono (x y : Q) : 0 < x -> x <= y -> round_pos x <= round_pos y.
Proof.
  intros Hx Hxy. assert (Hy : 0 < y) by lra.
  pose proof (ilog2_mono x y Hx Hxy) as He.
  destruct (Z.eq_dec (quantum x) (quantum y)) as [E | NE].
  - rewrite !round_pos_eq, E.
    apply Qmult_le_compat_r; [|apply Qlt_le_weak, pow2_pos].
    rewrite <- Zle_Qle. apply rne_mono.
    apply Qle_shift_div_l; [apply pow2_pos|].
    assert (Ex : x / pow2 (quantum y) * pow2 (quantum y) == x)
      by (field; pose proof (pow2_pos (quantum y)); lra).
    now rewrite Ex.
  - assert (Hk : (quantum x < quantum y)%Z) by (unfold quantum in *; lia).
    assert (Hny : (-1074 <= ilog2 y - 52)%Z) by (unfold quantum in *; lia).
    assert (Hex : (ilog2 x + 1 <= ilog2 y)%Z) by (unfold quantum in *; lia).
    apply Qle_trans with (pow2 (ilog2 y)); [|now apply round_pos_normal_ge].
    apply round_pos_le_pow2; [exact Hx | | unfold quantum in *; lia].
    destruct (ilog2_spec x Hx) as [_ U].
    apply Qle_trans with (pow2 (ilog2 x + 1)); [lra | now apply pow2_le].
Qed.

Lemma round_comp (p q : Q) : p == q -> round p = round q.
Proof.
  intros E. unfold round. rewrite (Qcompare_comp _ _ E 0 0 (Qeq_refl _)).
  destruct (Qcompare_spec q 0) as [E0 | L | G]; [reflexivity | |].
  - f_equal. apply round_pos_comp; [now rewrite E | lra].
  - apply round_pos_comp; [exact E | lra].
Qed.

Lemma round_0 : round 0 = 0.
Proof. reflexivity. Qed.

Lemma round_of_pos (q : Q) : 0 < q -> round q = round_pos q.
Proof.
  intros H. unfold round. destruct (Qcompare_spec q 0); [exfalso; lra | exfalso; lra | reflexivity].
Qed.

Lemma round_nonneg (q : Q) : 0 <= q -> 0 <= round q.
Proof.
  intros H. unfold round. destruct (Qcompare_spec q 0) as [E | L | G].
  - lra.
  - exfalso; lra.
  - now apply round_pos_nonneg.
Qed.

Lemma round_nonpos (q : Q) : q <= 0 -> round q <= 0.
Proof.
  intros H. unfold round. destruct (Qcompare_spec q 0) as [E | L | G].
  - lra.
  - assert (0 <= round_pos (- q)) by (apply round_pos_nonneg; lra). lra.
  - exfalso; lra.
Qed.

Lemma round_mono (x y : Q) : x <= y -> round x <= round y.
Proof.
  intros Hxy.
  destruct (Qlt_le_dec 0 x) as [Px | Nx].
  - rewrite !round_of_pos by lra. now apply round_pos_mono.
  - destruct (Qlt_le_dec y 0) as [Ny | Py].
    + unfold round.
      destruct (Qcompare_spec x 0) as [E | L | G]; [exfalso; lra | | exfalso; lra].
      destruct (Qcompare_spec y 0) as [E' | L' | G']; [exfalso; lra | | exfalso; lra].
      assert (round_pos (- y) <= round_pos (- x)) by (apply round_pos_mono; lra). lra.
    + apply Qle_trans with 0; [now apply round_nonpos | now apply round_nonneg].
Qed.

(** The error of one rounding of a number below [2^n]. *)
Lemma round_error_below (q : Q) (n : Z) :
  0 <= q -> q < pow2 n -> (-1021 <= n)%Z -> Qabs (round q - q) <= pow2 (n - 54).
Proof.
  intros Hq Hn Hr. destruct (Qlt_le_dec 0 q) as [P | Z0].
  - rewrite round_of_pos by exact P.
    apply Qle_trans with (pow2 (quantum q - 1)); [now apply round_pos_error|].
    apply pow2_le. pose proof (ilog2_below q n P Hn). unfold quantum. lia.
  - assert (E : q == 0) by lra. rewrite (round_comp q 0 E).
    rewrite round_0. setoid_replace (0 - q) with 0 by lra.
    apply Qlt_le_weak, pow2_pos.
Qed.

(** Numbers below [2^1023] in magnitude are in the range of the doubles. *)
Lemma overflows_below (q : Q) : Qabs q < pow2 1023 -> overflows q = false.
Proof.
  intros H. unfold overflows.
  destruct (Qle_bool _ _) eqn:E; [exfalso | reflexivity].
  apply Qle_bool_iff in E.
  assert (P1 : pow2 1024 == pow2 1023 * pow2 1) by (rewrite <- pow2_add; reflexivity).
  change (pow2 1) with 2 in P1.
  assert (P2 : pow2 970 <= pow2 1023) by (apply pow2_le; lia).
  lra.
Qed.

Lemma overflows_int_below (z : Z) : (Z.abs z < 2 ^ 1023)%Z -> overflows (inject_Z z) = false.
Proof.
  intros H. apply overflows_below. rewrite pow2_int by lia.
  change (Qabs (inject_Z z)) with (inject_Z (Z.abs z)). now rewrite <- Zlt_Qlt.
Qed.

End Binary64Facts.

(** ** Strings *)

Section StringFacts.

Lemma prefix_app (n h : string) :
  String.prefix n h = true <-> exists b, h = n ++ b.
Proof.
  revert h; induction n as [|a n IH]; intros h; destruct h as [|c h]; simpl.
  - split; [intros _; exists ""; reflexivity | reflexivity].
  - split; [intros _; exists (String c h); reflexivity | reflexivity].
  - split; [discriminate | intros [b Hb]; discriminate].
  - destruct (ascii_dec a c) as [->|Hne].
    + rewrite IH. split; intros [b Hb]; exists b.
      * now rewrite Hb.
      * now inversion Hb.
    + split; [discriminate | intros [b Hb]; inversion Hb; congruence].
Qed.

(** [needle in hay] holds exactly when [hay] splits around [needle]. *)
Lemma contains_spec (n h : string) :
  Py.contains n h = true <-> exists a b, h = a ++ n ++ b.
Proof.
  induction h as [|c h IH]; cbn [Py.contains].
  - rewrite orb_false_r, prefix_app. split.
    + intros [b Hb]. exists "", b. exact Hb.
    + intros [a [b Hb]]. destruct a; [exists b; exact Hb | discriminate].
  - rewrite orb_true_iff, prefix_app, IH. split.
    + intros [[b Hb] | [a [b Hb]]].
      * exists "", b. exact Hb.
      * exists (String c a), b. simpl. now rewrite Hb.
    + intros [a [b Hb]]. destruct a as [|c' a]; simpl in Hb.
      * left. exists b. exact Hb.
      * right. exists a, b. now inversion Hb.
Qed.

End StringFacts.

(** ** The log pane *)

Section LogPaneFacts.
Import LogPane.

Lemma scroll_key_in_bounds (key total visible pos : Z) :
  0 <= visible ->
  in_bounds total visible pos ->
  in_bounds total visible (scroll_key key total visible pos).
Proof.
  unfold in_bounds, max_scroll, scroll_key. intros Hv Hp.
  repeat match goal with
         | |- context [if ?b then _ else _] => destruct b
         end; lia.
Qed.

(** Appending to the log only widens the bound. *)
Lemma emit_in_bounds (msg : string) (hd : CursesHandler) (visible pos : Z) :
  in_bounds (total_lines hd) visible pos ->
  in_bounds (total_lines (emit msg hd)) visible pos.
Proof.
  unfold in_bounds, max_scroll, total_lines, emit; simpl.
  rewrite length_app; simpl. lia.
Qed.

(** The scroll keys never touch the messages. *)
Lemma handle_log_scroll_keys_messages (hd hd' : CursesHandler) (key lwh : Z) :
  handle_log_scroll_keys (Some hd) key lwh = Some hd' ->
  log_messages hd' = log_messages hd.
Proof. unfold handle_log_scroll_keys. intros H; inversion H; reflexivity. Qed.

End LogPaneFacts.

(** C8. Whatever key [handle_log_scroll_keys] is given (Up, Down, PageUp,
    PageDown, Home, End or any other), for a log pane that shows
    [log_win_height - 2 >= 0] lines and a scroll position that lies in
    [0, max(0, total_lines - visible_lines)] (or is not set yet), the
    position stored afterwards lies in the same interval, and the messages
    are untouched. *)
Theorem C8_scroll_offset_stays_in_bounds
    (hd : LogPane.CursesHandler) (key log_win_height : Z) :
  2 <= log_win_height ->
  (forall p, LogPane.scroll_pos hd = Some p ->
             LogPane.in_bounds (LogPane.total_lines hd) (log_win_height - 2) p) ->
  exists p',
    LogPane.handle_log_scroll_keys (Some hd) key log_win_height
    = Some (LogPane.mkHandler (LogPane.log_messages hd) (Some p'))
    /\ LogPane.in_bounds (LogPane.total_lines hd) (log_win_height - 2) p'.
Proof.
  intros Hh Hinv. unfold LogPane.handle_log_scroll_keys.
  eexists; split; [reflexivity|].
  apply scroll_key_in_bounds; [lia|].
  destruct (LogPane.scroll_pos hd) as [p|] eqn:E.
  - now apply Hinv.
  - unfold LogPane.in_bounds, LogPane.max_scroll. lia.
Qed.

Lemma C8_witness :
  exists p',
    LogPane.handle_log_scroll_keys
      (Some (LogPane.mkHandler ["a"; "b"; "c"; "d"; "e"; "f"; "g"; "h"; "i"] (Some 3)))
      Curses.KEY_NPAGE 8
    = Some (LogPane.mkHandler ["a"; "b"; "c"; "d"; "e"; "f"; "g"; "h"; "i"] (Some p'))
    /\ LogPane.in_bounds 9 6 p'.
Proof.
  apply (C8_scroll_offset_stays_in_bounds
           (LogPane.mkHandler ["a"; "b"; "c"; "d"; "e"; "f"; "g"; "h"; "i"] (Some 3))
           Curses.KEY_NPAGE 8).
  - lia.
  - intros p Hp. simpl in Hp. inversion Hp; subst.
    unfold LogPane.in_bounds, LogPane.max_scroll; simpl. lia.
Defined.

(** The bound holds in every handler state the dialogs produce, for the
    six lines the menu shows. *)
Lemma reachable_in_bounds (hd : LogPane.CursesHandler) :
  LogStates.reachable hd ->
  exists p, LogPane.scroll_pos hd = Some p
            /\ LogPane.in_bounds (LogPane.total_lines hd) 6 p.
Proof.
  induction 1 as [|msg hd _ [p [Hp Hb]]|key hd hd' _ [p [Hp Hb]] Hs|hd hd' _ _ Hr].
  - exists 0. split; [reflexivity|].
    unfold LogPane.in_bounds, LogPane.max_scroll; simpl. lia.
  - exists p. split; [exact Hp | now apply emit_in_bounds].
  - unfold LogPane.handle_log_scroll_keys, Dialog.log_win_height in Hs.
    rewrite Hp in Hs. inversion Hs; subst; clear Hs. eexists; split; [reflexivity|].
    change (LogPane.total_lines (LogPane.mkHandler (LogPane.log_messages hd) _))
      with (LogPane.total_lines hd).
    apply scroll_key_in_bounds; [lia | exact Hb].
  - unfold Dialog.reset_scroll, Dialog.log_win_height in Hr.
    inversion Hr; subst; clear Hr. eexists; split; [reflexivity|].
    unfold LogPane.in_bounds, LogPane.max_scroll, LogPane.total_lines; simpl. lia.
Qed.

(** ** The menu dialog *)

Section MenuFacts.
Import LogPane Dialog.

Variable format : string -> string -> string.
Variables show_help_screen show_about_screen : World -> option World.
Variable title : string.
Variable menu_items : list string.
Variables app_h scr_w : Z.

Let step := menu_step format show_help_screen show_about_screen title menu_items app_h scr_w.
Let steps := menu_steps format show_help_screen show_about_screen title menu_items app_h scr_w.
Let loop := menu_loop format show_help_screen show_about_screen title menu_items app_h scr_w.

(** A prefix of turns that all continue can be cut off the loop. *)
Lemma menu_loop_steps (n fuel : nat) (st st' : MenuState) (w w' : World) :
  steps n st w = Some (Continue st', w') ->
  loop (n + fuel) st w = loop fuel st' w'.
Proof.
  revert st w. induction n as [|n IH]; intros st w H; simpl in H.
  - inversion H; reflexivity.
  - simpl. destruct (input w) as [|ev rest]; [discriminate|].
    fold step in H |- *.
    destruct (step st ev (with_input rest w)) as [[[s|r] w1]|]; try discriminate.
    now apply IH.
Qed.

Lemma menu_steps_app (n m : nat) (st st' : MenuState) (w w' : World) :
  steps n st w = Some (Continue st', w') ->
  steps (n + m) st w = steps m st' w'.
Proof.
  revert st w. induction n as [|n IH]; intros st w H; simpl in H.
  - inversion H; reflexivity.
  - simpl. destruct (input w) as [|ev rest]; [discriminate|].
    fold step in H |- *.
    destruct (step st ev (with_input rest w)) as [[[s|r] w1]|]; try discriminate.
    now apply IH.
Qed.

(** Tab in the navigating state gives the focus to the log pane. *)
Lemma menu_step_tab_enters_log (row : Z) (w : World) :
  step (mkMenu row false) (key_event 9) w = Some (Continue (mkMenu row true), w).
Proof.
  unfold step, menu_step; simpl.
  destruct (row >? 0), (row <? n_items menu_items - 1); reflexivity.
Qed.

(** Tab with the log pane focused goes back and resets the scroll. *)
Lemma menu_step_tab_leaves_log (row : Z) (w : World) :
  step (mkMenu row true) (key_event 9) w
  = Some (Continue (mkMenu row false), with_log (reset_scroll (log w)) w).
Proof. reflexivity. Qed.

(** While the log pane has the focus every other key only scrolls. *)
Lemma menu_step_log_focused (row : Z) (ev : Event) (w : World) :
  ev_key ev <> 9 -> ev_key ev <> 27 ->
  step (mkMenu row true) ev w
  = Some (Continue (mkMenu row true),
          with_log (handle_log_scroll_keys (log w) (ev_key ev) log_win_height) w).
Proof.
  intros H9 H27. unfold step, menu_step; simpl.
  destruct (Z.eqb_spec (ev_key ev) 9); [contradiction|].
  destruct (Z.eqb_spec (ev_key ev) 27); [contradiction|].
  reflexivity.
Qed.

Lemma menu_steps_scrolling (scrolls rest : list Event) (row : Z)
    (msgs : list string) (pos : option Z) (wins : list string) :
  Forall (fun ev => ev_key ev <> 9 /\ ev_key ev <> 27) scrolls ->
  exists pos',
    steps (List.length scrolls) (mkMenu row true)
          (mkWorld (Some (mkHandler msgs pos)) (scrolls ++ rest) wins)
    = Some (Continue (mkMenu row true),
            mkWorld (Some (mkHandler msgs pos')) rest wins).
Proof.
  intros H. revert pos. induction H as [|ev scrolls [H9 H27] _ IH]; intros pos.
  - exists pos. reflexivity.
  - simpl. fold step. rewrite (menu_step_log_focused _ _ _ H9 H27).
    unfold with_log, with_input; simpl. apply IH.
Qed.

End MenuFacts.

(** C9. In the menu, Tab gives the focus to the log pane; after any keys
    other than Tab and Esc (they scroll), Tab returns to the menu with the
    same selected row and leaves the scroll position at
    [max(0, total_lines - visible_lines)], with [visible_lines = 6], the
    messages being unchanged. *)
Theorem C9_tab_returns_log_to_bottom
    (format : string -> string -> string)
    (show_help_screen show_about_screen : Dialog.World -> option Dialog.World)
    (title : string) (menu_items : list string) (app_h scr_w : Z)
    (row : Z) (hd : LogPane.CursesHandler)
    (scrolls rest : list Dialog.Event) (wins : list string) :
  Forall (fun ev => Dialog.ev_key ev <> 9 /\ Dialog.ev_key ev <> 27) scrolls ->
  Dialog.menu_steps format show_help_screen show_about_screen title menu_items app_h scr_w
    (2 + List.length scrolls) (Dialog.mkMenu row false)
    (Dialog.mkWorld (Some hd)
       (Dialog.key_event 9 :: scrolls ++ Dialog.key_event 9 :: rest) wins)
  = Some (Dialog.Continue (Dialog.mkMenu row false),
          Dialog.mkWorld
            (Some (LogPane.mkHandler (LogPane.log_messages hd)
                     (Some (Z.max 0 (LogPane.total_lines hd - 6)))))
            rest wins).
Proof.
  intros H.
  destruct hd as [msgs pos].
  destruct (menu_steps_scrolling format show_help_screen show_about_screen title
              menu_items app_h scr_w scrolls (Dialog.key_event 9 :: rest) row msgs pos wins H)
    as [pos' Hs].
  replace (2 + List.length scrolls)%nat with (1 + (List.length scrolls + 1))%nat by lia.
  rewrite (menu_steps_app format show_help_screen show_about_screen title menu_items
             app_h scr_w 1 (List.length scrolls + 1)
             (Dialog.mkMenu row false) (Dialog.mkMenu row true)
             (Dialog.mkWorld (Some (LogPane.mkHandler msgs pos))
                (Dialog.key_event 9 :: scrolls ++ Dialog.key_event 9 :: rest) wins)
             (Dialog.mkWorld (Some (LogPane.mkHandler msgs pos))
                (scrolls ++ Dialog.key_event 9 :: rest) wins)).
  - rewrite (menu_steps_app _ _ _ _ _ _ _ _ _ _ _ _ _ Hs). reflexivity.
  - cbn [Dialog.menu_steps Dialog.input].
    rewrite menu_step_tab_enters_log. reflexivity.
Qed.

Lemma C9_witness :
  Dialog.menu_steps (fun _ m => m) (fun w => Some w) (fun w => Some w)
    "Main Menu" ["Clone"; "Backup"] 16 80
    (2 + 2) (Dialog.mkMenu 1 false)
    (Dialog.mkWorld
       (Some (LogPane.mkHandler ["1"; "2"; "3"; "4"; "5"; "6"; "7"; "8"; "9"] (Some 3)))
       (Dialog.key_event 9
          :: [Dialog.key_event Curses.KEY_HOME; Dialog.key_event Curses.KEY_DOWN]
          ++ Dialog.key_event 9 :: [Dialog.key_event 10])
       [])
  = Some (Dialog.Continue (Dialog.mkMenu 1 false),
          Dialog.mkWorld
            (Some (LogPane.mkHandler ["1"; "2"; "3"; "4"; "5"; "6"; "7"; "8"; "9"]
                     (Some (Z.max 0 (9 - 6)))))
            [Dialog.key_event 10] []).
Proof.
  apply (C9_tab_returns_log_to_bottom (fun _ m => m) (fun w => Some w) (fun w => Some w)
           "Main Menu" ["Clone"; "Backup"] 16 80 1
           (LogPane.mkHandler ["1"; "2"; "3"; "4"; "5"; "6"; "7"; "8"; "9"] (Some 3))
           [Dialog.key_event Curses.KEY_HOME; Dialog.key_event Curses.KEY_DOWN]
           [Dialog.key_event 10] []).
  repeat constructor; simpl; unfold Curses.KEY_HOME, Curses.KEY_DOWN; lia.
Defined.

(** C10. With an empty item list [get_menu_choice] returns [-1] at once,
    whatever the fuel: no window is created and no input is read (the
    world is returned as it was).  The same value [-1] is what Esc yields
    on a non-empty menu, after the window was drawn and the key read. *)
Theorem C10_empty_menu_returns_cancel
    (format : string -> string -> string)
    (show_help_screen show_about_screen : Dialog.World -> option Dialog.World)
    (title : string) (app_h scr_w : Z) (fuel : nat) (w : Dialog.World)
    (item : string) (items : list string) :
  Dialog.get_menu_choice format show_help_screen show_about_screen title []
    app_h scr_w fuel w = Some (-1, w)
  /\ Dialog.get_menu_choice format show_help_screen show_about_screen title (item :: items)
       app_h scr_w (S fuel)
       (Dialog.mkWorld (Dialog.log w) (Dialog.key_event 27 :: Dialog.input w) (Dialog.windows w))
     = Some (-1, Dialog.mkWorld (Dialog.log w) (Dialog.input w) (Dialog.windows w ++ [title])).
Proof.
  split; [reflexivity|].
  unfold Dialog.get_menu_choice, Dialog.draw_bordered_window.
  cbn [Dialog.menu_loop Dialog.input Dialog.log Dialog.windows].
  unfold Dialog.menu_step, Dialog.menu_init; simpl.
  destruct (0 <? Dialog.n_items (item :: items) - 1); reflexivity.
Qed.

(** ** White space in ASCII text *)

Section StripFacts.

Lemma lstrip_decompose (s : string) :
  exists l, s = l ++ Py.lstrip s /\ Py.all_space l = true.
Proof.
  induction s as [|c s [l [Hl Hsp]]]; simpl.
  - exists "". split; reflexivity.
  - destruct (Py.is_space c) eqn:E.
    + exists (String c l). simpl. rewrite E, Hsp. split; [now rewrite <- Hl | reflexivity].
    + exists "". split; reflexivity.
Qed.

Lemma rstrip_decompose (s : string) :
  exists r, s = Py.rstrip s ++ r /\ Py.all_space r = true.
Proof.
  induction s as [|c s [r [Hr Hsp]]]; simpl.
  - exists "". split; reflexivity.
  - destruct (Py.rstrip s) as [|c' t] eqn:E.
    + simpl in Hr. subst r. destruct (Py.is_space c) eqn:Ec.
      * exists (String c s). simpl. rewrite Ec, Hsp. split; reflexivity.
      * exists s. split; [reflexivity | assumption].
    + exists r. split; [simpl; now rewrite Hr at 1 | assumption].
Qed.

End StripFacts.

(** ** The final-warning dialog *)

Section UnicodeFacts.
Import Unicode.

Lemma text_eqb_eq (s t : text) : eqb s t = true <-> s = t.
Proof.
  revert t. induction s as [|c s IH]; intros [|d t]; cbn [eqb];
    try (split; [discriminate | discriminate]); [split; reflexivity|].
  rewrite andb_true_iff, Z.eqb_eq, IH. split; [intros [-> ->]; reflexivity|].
  intros [= -> ->]. split; reflexivity.
Qed.

Lemma lstrip_split (s : text) :
  exists l, s = (l ++ lstrip s)%list /\ forallb isspace l = true.
Proof.
  induction s as [|c s [l [Hl Hsp]]]; cbn [lstrip].
  - exists []. split; reflexivity.
  - destruct (isspace c) eqn:E.
    + exists (c :: l). cbn [forallb app]. rewrite E, Hsp. split; [now rewrite <- Hl | reflexivity].
    + exists []. split; reflexivity.
Qed.

Lemma rstrip_split (s : text) :
  exists r, s = (rstrip s ++ r)%list /\ forallb isspace r = true.
Proof.
  induction s as [|c s [r [Hr Hsp]]]; cbn [rstrip].
  - exists []. split; reflexivity.
  - destruct (rstrip s) as [|c' t] eqn:E.
    + cbn [app] in Hr. subst r. destruct (isspace c) eqn:Ec.
      * exists (c :: s). cbn [forallb app]. rewrite Ec, Hsp. split; reflexivity.
      * exists s. split; [reflexivity | assumption].
    + exists r. split; [cbn [app]; now rewrite Hr at 1 | assumption].
Qed.

Lemma lstrip_spaces (l x : text) :
  forallb isspace l = true -> lstrip (l ++ x)%list = lstrip x.
Proof.
  induction l as [|c l IH]; cbn [forallb app lstrip]; [reflexivity|].
  intros H. apply andb_prop in H as [Hc Hl]. rewrite Hc. now apply IH.
Qed.

Lemma rstrip_only_spaces (r : text) :
  forallb isspace r = true -> rstrip r = [].
Proof.
  induction r as [|c r IH]; cbn [forallb rstrip]; [reflexivity|].
  intros H. apply andb_prop in H as [Hc Hr]. now rewrite (IH Hr), Hc.
Qed.

Lemma rstrip_spaces (x r : text) :
  forallb isspace r = true -> rstrip (x ++ r)%list = rstrip x.
Proof.
  intros H. induction x as [|c x IH]; cbn [app rstrip].
  - now apply rstrip_only_spaces.
  - now rewrite IH.
Qed.

(** *** Which characters have a given upper case *)

Lemma find_special (c : Z) (p : Z * list Z) :
  List.find (fun p => fst p =? c) upper_special = Some p ->
  In p upper_special /\ fst p = c.
Proof.
  intros H. apply find_some in H as [Hin He]. split; [exact Hin | lia].
Qed.

Lemma upper_char_cases (c : Z) :
  In (c, upper_char c) upper_special
  \/ (exists first last step delta,
        In (first, last, step, delta) upper_runs
        /\ first <= c <= last /\ upper_char c = [c + delta])
  \/ upper_char c = [c].
Proof.
  unfold upper_char.
  destruct (List.find (fun p => fst p =? c) upper_special) as [[k u]|] eqn:S.
  - left. apply find_special in S as [Hin Hk]. cbn [fst] in Hk. now subst k.
  - right. destruct (List.find (in_run c) upper_runs) as [[[[first last] step] delta]|] eqn:R.
    + left. apply find_some in R as [Hin Hr]. unfold in_run in Hr.
      apply andb_prop in Hr as [Hr _]. apply andb_prop in Hr as [H1 H2].
      exists first, last, step, delta. split; [exact Hin|]. split; [lia | reflexivity].
    + right. reflexivity.
Qed.

(** No character has the upper case [u]: a test on the table of the
    upper cases of several characters. *)
Definition no_special (u : list Z) : bool :=
  forallb (fun p => negb (eqb (snd p) u)) upper_special.

Lemma no_special_spec (u : list Z) (c : Z) :
  no_special u = true -> ~ In (c, u) upper_special.
Proof.
  intros H Hin. unfold no_special in H. rewrite forallb_forall in H.
  specialize (H _ Hin). cbn [snd] in H.
  assert (E : eqb u u = true) by now apply text_eqb_eq.
  rewrite E in H. discriminate.
Qed.

(** The characters of [allowed] are the only ones with the one-character
    upper case [t]: a test on the two tables. *)
Definition only_from (t : Z) (allowed : list Z) : bool :=
  no_special [t]
  && forallb (fun r => let '(first, last, _, delta) := r in
                       negb ((first <=? t - delta) && (t - delta <=? last))
                       || existsb (Z.eqb (t - delta)) allowed) upper_runs
  && existsb (Z.eqb t) allowed.

Lemma existsb_eqb_in (c : Z) (l : list Z) : existsb (Z.eqb c) l = true -> In c l.
Proof.
  intros H. apply existsb_exists in H as [x [Hin He]]. apply Z.eqb_eq in He. now subst.
Qed.

Lemma only_from_spec (t : Z) (allowed : list Z) (c : Z) :
  only_from t allowed = true -> upper_char c = [t] -> In c allowed.
Proof.
  unfold only_from. intros H Hu.
  apply andb_prop in H as [H Hid]. apply andb_prop in H as [Hs Hr].
  destruct (upper_char_cases c) as [Hin | [(first & last & step & delta & Hin & Hc & E) | E]].
  - rewrite Hu in Hin. exfalso. exact (no_special_spec _ _ Hs Hin).
  - rewrite Hu in E. injection E as E.
    rewrite forallb_forall in Hr. specialize (Hr _ Hin). cbn beta iota in Hr.
    replace (t - delta) with c in Hr by lia.
    replace ((first <=? c) && (c <=? last)) with true in Hr by lia.
    cbn [negb orb] in Hr. now apply existsb_eqb_in.
  - rewrite Hu in E. injection E as ->. now apply existsb_eqb_in.
Qed.

Lemma upper_char_not_empty (c : Z) : upper_char c <> [].
Proof.
  intros Hu.
  destruct (upper_char_cases c) as [Hin | [(first & last & step & delta & _ & _ & E) | E]].
  - rewrite Hu in Hin. exact (no_special_spec [] c eq_refl Hin).
  - rewrite Hu in E. discriminate.
  - rewrite Hu in E. discriminate.
Qed.

Lemma upper_char_long (c a b : Z) (u : list Z) :
  upper_char c = a :: b :: u -> In (c, a :: b :: u) upper_special.
Proof.
  intros Hu.
  destruct (upper_char_cases c) as [Hin | [(first & last & step & delta & _ & _ & E) | E]].
  - now rewrite Hu in Hin.
  - rewrite Hu in E. discriminate.
  - rewrite Hu in E. discriminate.
Qed.

Lemma upper_Y (c : Z) : upper_char c = [89] -> c = 121 \/ c = 89.
Proof.
  intros H. apply (only_from_spec 89 [121; 89]) in H; [|vm_compute; reflexivity].
  cbn [In] in H. lia.
Qed.

Lemma upper_E (c : Z) : upper_char c = [69] -> c = 101 \/ c = 69.
Proof.
  intros H. apply (only_from_spec 69 [101; 69]) in H; [|vm_compute; reflexivity].
  cbn [In] in H. lia.
Qed.

Lemma upper_S (c : Z) : upper_char c = [83] -> c = 115 \/ c = 83 \/ c = 383.
Proof.
  intros H. apply (only_from_spec 83 [115; 83; 383]) in H; [|vm_compute; reflexivity].
  cbn [In] in H. lia.
Qed.

(** The first character of a text gives the head of its upper case, alone
    or with more characters after it. *)
Lemma upper_head (c : Z) (rest ts : text) (t : Z) :
  upper (c :: rest) = t :: ts ->
  (upper_char c = [t] /\ upper rest = ts)
  \/ (exists n, (2 <= n)%nat /\ In (c, firstn n (t :: ts)) upper_special).
Proof.
  unfold upper. cbn [flat_map]. fold (upper rest). intros H.
  destruct (upper_char c) as [|a [|b u]] eqn:E.
  - exfalso. exact (upper_char_not_empty c E).
  - left. cbn [app] in H. injection H as -> H. now split.
  - right. exists (List.length (a :: b :: u)). split; [cbn [List.length]; lia|].
    rewrite <- H, firstn_app, firstn_all, Nat.sub_diag, firstn_O, app_nil_r.
    now apply upper_char_long.
Qed.

Ltac no_long_upper H :=
  exfalso; destruct H as [n [Hn Hin]];
  destruct n as [|[|[|[|n]]]]; try lia; cbn [firstn] in Hin;
  match type of Hin with
  | In (_, ?u) _ => apply (no_special_spec u _ ltac:(vm_compute; reflexivity) Hin)
  end.

(** The texts whose upper case is YES. *)
Lemma upper_yes (core : text) :
  upper core = of_string "YES" <->
  exists c1 c2 c3,
    core = [c1; c2; c3]
    /\ (c1 = 121 \/ c1 = 89) /\ (c2 = 101 \/ c2 = 69)
    /\ (c3 = 115 \/ c3 = 83 \/ c3 = 383).
Proof.
  change (of_string "YES") with [89; 69; 83]. split.
  - intros H. destruct core as [|c1 r1]; [discriminate|].
    apply upper_head in H as [[H1 H] | H]; [|no_long_upper H].
    destruct r1 as [|c2 r2]; [discriminate|].
    apply upper_head in H as [[H2 H] | H]; [|no_long_upper H].
    destruct r2 as [|c3 r3]; [discriminate|].
    apply upper_head in H as [[H3 H] | H]; [|no_long_upper H].
    destruct r3 as [|c4 r4].
    + exists c1, c2, c3. split; [reflexivity|].
      split; [now apply upper_Y|]. split; [now apply upper_E | now apply upper_S].
    + exfalso. unfold upper in H. cbn [flat_map] in H.
      apply app_eq_nil in H as [H _]. exact (upper_char_not_empty c4 H).
  - intros (c1 & c2 & c3 & -> & H1 & H2 & H3).
    destruct H1 as [-> | ->]; destruct H2 as [-> | ->]; destruct H3 as [-> | [-> | ->]];
      vm_compute; reflexivity.
Qed.

(** White space around a text that begins and ends with other characters
    is what [strip] removes. *)
Lemma strip_padded (l r : text) (c1 c2 c3 : Z) :
  forallb isspace l = true -> forallb isspace r = true ->
  isspace c1 = false -> isspace c3 = false ->
  strip (l ++ [c1; c2; c3] ++ r)%list = [c1; c2; c3].
Proof.
  intros Hl Hr H1 H3. unfold strip. rewrite (lstrip_spaces _ _ Hl).
  cbn [app lstrip]. rewrite H1.
  change (c1 :: c2 :: c3 :: r) with ([c1; c2; c3] ++ r)%list.
  rewrite (rstrip_spaces _ _ Hr). cbn [rstrip]. now rewrite H3.
Qed.

End UnicodeFacts.

(** C5, as amended. [show_final_warning] returns true exactly when the
    text typed is one of [y Y], then one of [e E], then one of [s S] or
    the long s (U+017F), with any white space before and after it: the
    code strips the text before it upper-cases it, and both operations
    follow Unicode.  Everything else, the empty text and a failed read
    included, gives false. *)
Theorem C5_final_warning_accepts_padded_yes (typed : option Unicode.text) :
  Dialog.show_final_warning typed = true <->
  exists l c1 c2 c3 r,
    typed = Some (l ++ [c1; c2; c3] ++ r)%list
    /\ forallb Unicode.isspace l = true /\ forallb Unicode.isspace r = true
    /\ (c1 = 121 \/ c1 = 89) /\ (c2 = 101 \/ c2 = 69)
    /\ (c3 = 115 \/ c3 = 83 \/ c3 = 383).
Proof.
  unfold Dialog.show_final_warning. rewrite text_eqb_eq. split.
  - destruct typed as [s|]; [|discriminate].
    intros H. apply upper_yes in H as (c1 & c2 & c3 & Hcore & H1 & H2 & H3).
    destruct (lstrip_split s) as [l [Hl Hlsp]].
    destruct (rstrip_split (Unicode.lstrip s)) as [r [Hr Hrsp]].
    exists l, c1, c2, c3, r. repeat split; try assumption.
    unfold Unicode.strip in Hcore. rewrite <- Hcore, <- Hr, <- Hl. reflexivity.
  - intros (l & c1 & c2 & c3 & r & -> & Hl & Hr & H1 & H2 & H3).
    rewrite (strip_padded l r c1 c2 c3 Hl Hr).
    + apply upper_yes. exists c1, c2, c3. now repeat split.
    + destruct H1 as [-> | ->]; reflexivity.
    + destruct H3 as [-> | [-> | ->]]; reflexivity.
Qed.

(** C5, as stated, fails: a padded [yes] is accepted although it is not
    YES in any letter case. *)
Lemma C5_counterexample :
  Dialog.show_final_warning (Some (Unicode.of_string " yes")) = true
  /\ Unicode.upper (Unicode.of_string " yes") <> Unicode.of_string "YES".
Proof. split; [vm_compute; reflexivity | vm_compute; discriminate]. Qed.

(** The empty input and a failed read are refused; [yes] written with
    the long s (U+017F), and [yes] between two no-break spaces (U+00A0),
    are accepted; [yeß] is not (its upper case is YESS). *)
Example show_final_warning_examples :
  Dialog.show_final_warning (Some []) = false
  /\ Dialog.show_final_warning None = false
  /\ Dialog.show_final_warning (Some [121; 101; 383]) = true
  /\ Dialog.show_final_warning (Some [160; 121; 101; 115; 160]) = true
  /\ Dialog.show_final_warning (Some [121; 101; 223]) = false
  /\ Dialog.show_final_warning (Some (Unicode.of_string "yes!")) = false.
Proof. repeat split; vm_compute; reflexivity. Qed.

(** ** The text-input dialog *)

Section InputFacts.
Import Dialog.

(** A printable key goes to the editing branch. *)
Lemma input_loop_printable (fuel : nat) (max_len k : Z) (st : EditState) (rest : list Z) :
  printable k ->
  input_loop (S fuel) max_len st (k :: rest)
  = input_loop fuel max_len (edit_key max_len k st) rest.
Proof.
  unfold printable. intros Hk. cbn [input_loop].
  unfold Curses.KEY_MOUSE, key_in, editing_keys, Curses.KEY_ENTER; cbn [existsb].
  replace (k =? 409) with false by lia.
  replace (k >? 255) with false by lia.
  replace (k =? 27) with false by lia.
  replace (k =? 10) with false by lia.
  replace (k =? 13) with false by lia.
  replace (k =? 343) with false by lia.
  reflexivity.
Qed.

Lemma input_loop_typed (typed : list Z) :
  Forall printable typed ->
  forall (fuel : nat) (max_len : Z) (st : EditState) (rest : list Z),
    input_loop (List.length typed + fuel) max_len st (typed ++ rest)
    = input_loop fuel max_len
        (List.fold_left (fun s k => edit_key max_len k s) typed st) rest.
Proof.
  induction 1 as [|k typed Hk _ IH]; intros fuel max_len st rest.
  - reflexivity.
  - cbn [List.length Nat.add app fold_left].
    rewrite (input_loop_printable _ _ _ _ _ Hk). apply IH.
Qed.

(** Enter (LF or CR) leaves the loop with the buffer as it is. *)
Lemma input_loop_enter (fuel : nat) (max_len k : Z) (st : EditState) (rest : list Z) :
  k = 10 \/ k = 13 ->
  input_loop (S fuel) max_len st (k :: rest) = Some (input_str st).
Proof. intros [-> | ->]; reflexivity. Qed.

(** A lone Esc leaves the loop with an empty buffer, whatever was typed. *)
Lemma input_loop_lone_esc (fuel : nat) (max_len : Z) (st : EditState) :
  input_loop (S fuel) max_len st [27] = Some ""
  /\ forall rest, input_loop (S fuel) max_len st (27 :: -1 :: rest) = Some "".
Proof. split; reflexivity. Qed.

(** Enter on an empty buffer submits the default; typed text is submitted
    as typed. *)
Lemma get_input_string_enter (scr_w : Z) (default_value : string) (typed : list Z) :
  Forall printable typed ->
  exists buf,
    List.fold_left (fun s k => edit_key (scr_w - 20 - 8) k s) typed edit_init = buf
    /\ get_input_string scr_w default_value (typed ++ [10])
       = Some (if String.eqb (input_str buf) "" && negb (String.eqb default_value "")
               then default_value else input_str buf).
Proof.
  intros H. eexists; split; [reflexivity|].
  unfold get_input_string. rewrite length_app; cbn [List.length].
  rewrite (input_loop_typed typed H 1).
  rewrite (input_loop_enter 0 _ 10); [|now left].
  destruct (_ && _); reflexivity.
Qed.

(** Whatever printable text was typed before it, a lone Esc makes
    [get_input_string] return the default value. *)
Lemma get_input_string_typed_esc (scr_w : Z) (default_value : string) (typed : list Z) :
  Forall printable typed ->
  get_input_string scr_w default_value (typed ++ [27]) = Some default_value.
Proof.
  intros H. unfold get_input_string. rewrite length_app; cbn [List.length].
  rewrite (input_loop_typed typed H 1).
  destruct (input_loop_lone_esc 0 (scr_w - 20 - 8)
              (fold_left (fun s k => edit_key (scr_w - 20 - 8) k s) typed edit_init))
    as [-> _].
  destruct (String.eqb_spec default_value "") as [-> | Hne]; reflexivity.
Qed.

End InputFacts.

(** C6. The Enter half holds ([get_input_string_enter]); the Esc half does
    not: after a lone Esc the buffer is cleared, and the substitution of the
    default that follows the loop then applies, so the dialog returns the
    pre-supplied default, not the empty string, whenever a default was
    given.  Evaluated here for every default, with Esc as the only key and
    with Esc followed by an empty poll, and at the default [backup.img]. *)
Theorem C6_lone_esc_returns_default (scr_w : Z) (default_value : string) :
  Dialog.get_input_string scr_w default_value [27] = Some default_value
  /\ Dialog.get_input_string scr_w default_value [27; -1] = Some default_value
  /\ Dialog.get_input_string 80 "backup.img" [27] = Some "backup.img"
  /\ Dialog.get_input_string 80 "backup.img" [27] <> Some "".
Proof.
  repeat split.
  - apply (get_input_string_typed_esc scr_w default_value []). constructor.
  - unfold Dialog.get_input_string; simpl.
    destruct (String.eqb_spec default_value "") as [-> | Hne]; reflexivity.
  - discriminate.
Qed.

(** Enter alone submits the default; typed text followed by Enter is
    submitted as typed. *)
Example get_input_string_enter_examples :
  Dialog.get_input_string 80 "backup.img" [10] = Some "backup.img"
  /\ Dialog.get_input_string 80 "backup.img" [100; 100; 105; 13] = Some "ddi"
  /\ Dialog.get_input_string 80 "" [10] = Some "".
Proof. repeat split; reflexivity. Qed.

(** ** The operation monitor *)

Section MonitorFacts.
Import Monitor.

Lemma operation_succeeded_spec (returncode : Z) (text : string) :
  operation_succeeded returncode text = true <->
  returncode = 0
  \/ (returncode = 1 /\ exists a b, text = a ++ "No space left on device" ++ b).
Proof.
  unfold operation_succeeded.
  destruct (Z.eqb_spec returncode 0) as [E0|N0].
  - split; [now left | reflexivity].
  - destruct (Z.eqb_spec returncode 1) as [E1|N1]; cbn [andb].
    + destruct (Py.contains "No space left on device" text) eqn:C.
      * split; [|reflexivity]. intros _. right. split; [exact E1|].
        now apply contains_spec.
      * split; [discriminate|]. intros [H0 | [_ H]]; [contradiction|].
        apply contains_spec in H. congruence.
    + split; [discriminate|]. intros [H0 | [H1 _]]; contradiction.
Qed.

(** The fields that the toggle key leaves alone. *)
Lemma on_key_keeps (key : Z) (st : State) :
  last_bytes_copied (on_key key st) = last_bytes_copied st
  /\ last_error_position (on_key key st) = last_error_position st
  /\ error_ranges (on_key key st) = error_ranges st
  /\ stderr_lines (on_key key st) = stderr_lines st
  /\ draws (on_key key st) = draws st.
Proof. unfold on_key. destruct (_ || _); repeat split; reflexivity. Qed.

Lemma step_stderr_lines (total : Z) (st : State) (t : Tick) :
  stderr_lines (step total st t)
  = (stderr_lines st ++ (if String.eqb (tick_line t) "" then [] else [tick_line t]))%list.
Proof.
  unfold step. destruct (on_key_keeps (tick_key t) st) as [_ [_ [_ [Hl _]]]].
  destruct (String.eqb (tick_line t) "").
  - now rewrite app_nil_r.
  - unfold parse_bytes. destruct (dd_re_search (tick_line t)); simpl;
      unfold note_error, close_error;
      repeat match goal with
             | |- context [if ?b then _ else _] => destruct b; simpl
             end; now rewrite Hl.
Qed.

(** The lines kept by the loop are the non-empty lines read, in order. *)
Lemma run_loop_stderr_lines (total : Z) (ticks : list Tick) (st : State) :
  stderr_lines (run_loop total st ticks)
  = (stderr_lines st
     ++ List.filter (fun l => negb (String.eqb l "")) (List.map tick_line ticks))%list.
Proof.
  unfold run_loop. revert st. induction ticks as [|t ticks IH]; intros st; simpl.
  - now rewrite app_nil_r.
  - rewrite IH, step_stderr_lines.
    destruct (String.eqb (tick_line t) ""); simpl.
    + now rewrite app_nil_r.
    + now rewrite <- app_assoc.
Qed.

End MonitorFacts.

(** C1. The flag returned by [run_dd_with_progress] is true exactly when
    the exit code is 0, or it is 1 and the diagnostic text kept by the
    monitor (the non-empty lines read by the loop, then what was left to
    read) contains [No space left on device]; every other case gives
    false.  The flag computed by [run_dd_with_block_map] follows the same
    rule on the text it keeps. *)
Theorem C1_success_policy
    (total_size_bytes : Z) (display_mode : Monitor.Mode) (ticks : list Monitor.Tick)
    (lines : list string) (remaining : string) (returncode : Z) :
  (fst (Monitor.run_dd_with_progress total_size_bytes display_mode ticks remaining returncode)
   = true
   <-> returncode = 0
       \/ (returncode = 1
           /\ exists a b,
                Monitor.stderr_text
                  (List.filter (fun l => negb (String.eqb l ""))
                     (List.map Monitor.tick_line ticks)) remaining
                = a ++ "No space left on device" ++ b))
  /\ (Monitor.run_dd_with_block_map lines remaining returncode = true
      <-> returncode = 0
          \/ (returncode = 1
              /\ exists a b,
                   Monitor.stderr_text (Monitor.lines_until_empty lines) remaining
                   = a ++ "No space left on device" ++ b)).
Proof.
  split.
  - unfold Monitor.run_dd_with_progress; cbn [fst].
    rewrite operation_succeeded_spec, run_loop_stderr_lines. reflexivity.
  - unfold Monitor.run_dd_with_block_map. apply operation_succeeded_spec.
Qed.

(** The four cases of the policy on concrete runs. *)
Example success_policy_cases :
  let tick l := Monitor.mkTick (-1) l 1 in
  let full := [tick "dd: error writing '/dev/sdb': No space left on device"] in
  let bad := [tick "dd: failed to open '/dev/sdz': No such file or directory"] in
  fst (Monitor.run_dd_with_progress 1000 Monitor.Progress bad "" 0) = true
  /\ fst (Monitor.run_dd_with_progress 1000 Monitor.Progress full "" 1) = true
  /\ fst (Monitor.run_dd_with_progress 1000 Monitor.Progress bad "" 1) = false
  /\ fst (Monitor.run_dd_with_progress 1000 Monitor.Progress full "" 2) = false
  /\ fst (Monitor.run_dd_with_progress 1000 Monitor.Progress full "" (-9)) = false.
Proof. repeat split; vm_compute; reflexivity. Qed.

(** ** Progress samples *)

Section SampleFacts.
Import Monitor.
Local Open Scope Q_scope.

Lemma inject_Z_pos (t : Z) : (0 < t)%Z -> 0 < inject_Z t.
Proof. intros H. unfold Qlt; simpl. lia. Qed.

Lemma quotient_nonneg (bytes total : Z) :
  (0 <= bytes)%Z -> (0 < total)%Z -> 0 <= inject_Z bytes / inject_Z total.
Proof.
  intros Hb Ht. apply Qle_shift_div_l; [now apply inject_Z_pos|].
  rewrite Qmult_0_l. change 0 with (inject_Z 0). now rewrite <- Zle_Qle.
Qed.

Lemma round_1 : Binary64.round 1 = 1.
Proof. reflexivity. Qed.

Lemma round_100 : Binary64.round 100 = 100.
Proof. reflexivity. Qed.

Lemma compute_percentage_nonpos (bytes total : Z) :
  (total <= 0)%Z -> compute_percentage bytes total == 0.
Proof.
  intros Ht. unfold compute_percentage.
  replace (0 <? total)%Z with false by lia. reflexivity.
Qed.

Lemma compute_percentage_range (bytes total : Z) :
  (0 <= bytes)%Z -> 0 <= compute_percentage bytes total <= 100.
Proof.
  intros Hb. unfold compute_percentage. split; [|apply Q.le_min_r].
  apply Q.min_glb; [|discriminate].
  destruct (Z.ltb_spec 0 total) as [Ht|Ht]; [|apply Qle_refl].
  apply round_nonneg. apply Qmult_le_0_compat; [|discriminate].
  apply round_nonneg. now apply quotient_nonneg.
Qed.

(** Once the bytes copied reach the total, the percentage is exactly 100. *)
Lemma compute_percentage_full (bytes total : Z) :
  (0 < total <= bytes)%Z -> compute_percentage bytes total == 100.
Proof.
  intros H. unfold compute_percentage.
  replace (0 <? total)%Z with true by lia.
  apply Q.min_r.
  assert (Ht : 0 < inject_Z total) by (apply inject_Z_pos; lia).
  assert (Hb : inject_Z total <= inject_Z bytes) by (rewrite <- Zle_Qle; lia).
  assert (H1 : 1 <= inject_Z bytes / inject_Z total).
  { apply Qle_shift_div_l; [exact Ht|]. now rewrite Qmult_1_l. }
  apply (round_mono 1) in H1. rewrite round_1 in H1.
  rewrite <- round_100 at 1. apply round_mono. lra.
Qed.

(** Below the total, the two roundings move the percentage by less than
    [2^-46] from the exact quotient. *)
Lemma compute_percentage_error (bytes total : Z) :
  (0 <= bytes)%Z -> (0 < total)%Z ->
  Qabs (compute_percentage bytes total
        - Qmin 100 (100 * inject_Z bytes / inject_Z total))
  <= 1 # 70368744177664.
Proof.
  intros Hb Ht.
  assert (HT : 0 < inject_Z total) by now apply inject_Z_pos.
  assert (Ex : 100 * inject_Z bytes / inject_Z total
               == 100 * (inject_Z bytes / inject_Z total))
    by (unfold Qdiv; ring).
  destruct (Z.le_gt_cases total bytes) as [Hfull | Hpart].
  - rewrite (compute_percentage_full bytes total) by lia.
    assert (H1 : 1 <= inject_Z bytes / inject_Z total).
    { apply Qle_shift_div_l; [exact HT|]. rewrite Qmult_1_l. now rewrite <- Zle_Qle. }
    rewrite Q.min_l by (rewrite Ex; lra).
    setoid_replace (100 - 100) with 0 by ring. discriminate.
  - unfold compute_percentage. replace (0 <? total)%Z with true by lia.
    set (x := inject_Z bytes / inject_Z total) in *.
    assert (Hx0 : 0 <= x) by now apply quotient_nonneg.
    assert (Hx1 : x < 1).
    { apply Qlt_shift_div_r; [exact HT|]. rewrite Qmult_1_l. now rewrite <- Zlt_Qlt. }
    pose proof (round_error_below x 0 Hx0 Hx1 ltac:(lia)) as E1.
    change (Binary64.pow2 (0 - 54)) with (1 # 18014398509481984) in E1.
    apply Qabs_Qle_condition in E1.
    pose proof (round_nonneg x Hx0) as R0.
    assert (R1 : Binary64.round x <= 1)
      by (rewrite <- round_1; apply round_mono; lra).
    set (r1 := Binary64.round x) in *.
    assert (Hy0 : 0 <= r1 * 100) by lra.
    assert (Hy1 : r1 * 100 < Binary64.pow2 7) by (change (Binary64.pow2 7) with 128; lra).
    pose proof (round_error_below (r1 * 100) 7 Hy0 Hy1 ltac:(lia)) as E2.
    change (Binary64.pow2 (7 - 54)) with (1 # 140737488355328) in E2.
    apply Qabs_Qle_condition in E2.
    assert (R2 : Binary64.round (r1 * 100) <= 100)
      by (apply Qle_trans with (Binary64.round 100);
          [apply round_mono; lra | rewrite round_100; apply Qle_refl]).
    set (r2 := Binary64.round (r1 * 100)) in *.
    rewrite (Q.min_l r2 100 R2).
    rewrite (Q.min_r 100 (100 * inject_Z bytes / inject_Z total)) by (rewrite Ex; lra).
    rewrite Ex. apply Qabs_Qle_condition. split; lra.
Qed.

(** A byte count below [2^1023] never makes the quotient overflow. *)
Lemma percentage_never_overflows (bytes total : Z) :
  (0 <= bytes < 2 ^ 1023)%Z -> percentage_overflows bytes total = false.
Proof.
  intros Hb. unfold percentage_overflows.
  destruct (Z.ltb_spec 0 total) as [Ht|Ht]; [|reflexivity]. cbn [andb].
  unfold Binary64.overflows.
  destruct (Qle_bool _ _) eqn:E; [exfalso | reflexivity].
  apply Qle_bool_iff in E.
  assert (HT : 0 < inject_Z total) by now apply inject_Z_pos.
  assert (Hx0 : 0 <= inject_Z bytes / inject_Z total) by (apply quotient_nonneg; lia).
  rewrite (Qabs_pos _ Hx0) in E.
  assert (H1 : 1 <= inject_Z total)
    by (change 1 with (inject_Z 1); rewrite <- Zle_Qle; lia).
  assert (HB0 : 0 <= inject_Z bytes)
    by (change 0 with (inject_Z 0); rewrite <- Zle_Qle; lia).
  assert (Hxb : inject_Z bytes / inject_Z total <= inject_Z bytes).
  { apply Qle_shift_div_r; [exact HT|]. nra. }
  assert (HB : inject_Z bytes < Binary64.pow2 1023).
  { rewrite pow2_int by lia. rewrite <- Zlt_Qlt. lia. }
  assert (P1 : Binary64.pow2 1024 == Binary64.pow2 1023 * Binary64.pow2 1) by (rewrite <- pow2_add; reflexivity).
  change (Binary64.pow2 1) with 2 in P1.
  assert (P2 : Binary64.pow2 970 <= Binary64.pow2 1023) by (apply pow2_le; lia).
  fold (Binary64.pow2 1024) in E. lra.
Qed.

Local Close Scope Q_scope.

(** A parsed byte count is never negative: [group(1)] is made of digits. *)
Lemma span_digits_digits (s : string) :
  forall acc, (0 <= acc)%Z -> (0 <= int_digits_aux acc (fst (span_digits s)))%Z.
Proof.
  induction s as [|c s IH]; intros acc Hacc; cbn [span_digits]; [exact Hacc|].
  destruct (Py.is_digit c) eqn:E; [|exact Hacc].
  destruct (span_digits s) as [ds r]; cbn [fst int_digits_aux] in *.
  apply IH. unfold Py.is_digit in E. apply andb_prop in E as [E1 E2]. lia.
Qed.

Lemma dd_re_match_span (s ds : string) :
  dd_re_match s = Some ds -> ds = fst (span_digits s).
Proof.
  unfold dd_re_match. destruct (span_digits s) as [d r]; simpl.
  destruct d; [discriminate|]. destruct r; [discriminate|].
  destruct (_ && _); [|discriminate]. now intros [= <-].
Qed.

Lemma dd_re_search_span (s ds : string) :
  dd_re_search s = Some ds -> exists s', ds = fst (span_digits s').
Proof.
  induction s as [|c s IH]; cbn [dd_re_search].
  - destruct (dd_re_match "") eqn:E; [|discriminate].
    intros [= <-]. exists "". now apply dd_re_match_span.
  - destruct (dd_re_match (String c s)) eqn:E.
    + intros [= <-]. exists (String c s). now apply dd_re_match_span.
    + exact IH.
Qed.

Lemma parse_bytes_nonneg (line : string) (bytes : Z) :
  parse_bytes line = Some bytes -> 0 <= bytes.
Proof.
  unfold parse_bytes. destruct (dd_re_search line) as [ds|] eqn:E; [|discriminate].
  intros [= <-]. destruct (dd_re_search_span _ _ E) as [s' ->].
  apply span_digits_digits. lia.
Qed.

End SampleFacts.

(** C2, as amended. For a byte count [0 <= bytes < 2^1023] (every parsed
    count is at least 0, [parse_bytes_nonneg]) the quotient
    [bytes / total] never raises, and the percentage of the sample, which
    the code computes in double precision as [min((bytes / total) * 100,
    100)], lies between 0 and 100; it is 0 when the total size is 0 or
    less, exactly 100 once [bytes] reaches a positive total, and below
    that within [2^-46] of [min(100, 100 * bytes / total)], which it need
    not equal. *)
Theorem C2_percentage_clamped (total_size_bytes bytes : Z) (elapsed : Q) :
  0 <= bytes < 2 ^ 1023 ->
  let pct := Monitor.percentage (Monitor.compute_sample total_size_bytes bytes elapsed) in
  Monitor.percentage_overflows bytes total_size_bytes = false
  /\ (0 < total_size_bytes ->
      (Qabs (pct - Qmin 100 (100 * inject_Z bytes / inject_Z total_size_bytes))
       <= 1 # 70368744177664)%Q
      /\ (total_size_bytes <= bytes -> (pct == 100)%Q))
  /\ (total_size_bytes <= 0 -> (pct == 0)%Q)
  /\ (0 <= pct <= 100)%Q.
Proof.
  intros Hb pct. subst pct. cbn [Monitor.percentage Monitor.compute_sample].
  split; [|split; [|split]].
  - now apply percentage_never_overflows.
  - intros Ht. split.
    + apply compute_percentage_error; lia.
    + intros Hfull. apply compute_percentage_full. lia.
  - intros Ht. now apply compute_percentage_nonpos.
  - apply compute_percentage_range. lia.
Qed.

Lemma C2_witness :
  let pct := Monitor.percentage (Monitor.compute_sample 1048576 2097152 1) in
  Monitor.percentage_overflows 2097152 1048576 = false
  /\ (0 < 1048576 ->
      (Qabs (pct - Qmin 100 (100 * inject_Z 2097152 / inject_Z 1048576))
       <= 1 # 70368744177664)%Q
      /\ (1048576 <= 2097152 -> (pct == 100)%Q))
  /\ (1048576 <= 0 -> (pct == 0)%Q)
  /\ (0 <= pct <= 100)%Q.
Proof. apply (C2_percentage_clamped 1048576 2097152 1). lia. Defined.

(** C2, as stated, fails: for 29 bytes of 100 the code computes
    [(29 / 100) * 100] in doubles, which is 28.999999999999996 and not
    [min(100, 100 * 29 / 100) = 29]. *)
Lemma C2_counterexample :
  let pct := Monitor.percentage (Monitor.compute_sample 100 29 1) in
  ~ (pct == Qmin 100 (100 * inject_Z 29 / inject_Z 100))%Q
  /\ pct = (8162774324609023 # 281474976710656)%Q.
Proof.
  split; [|vm_compute; reflexivity].
  intros H. vm_compute in H. discriminate H.
Qed.

(** The run of the specification: a total of 1048576 bytes and progress
    lines for 0, 262144, 524288, 786432 and 1048576 bytes give the
    percentages 0, 25, 50, 75 and 100, no error range, and a final screen. *)
Example quarter_steps_scenario :
  let tick l := Monitor.mkTick (-1) l 1 in
  let run :=
    Monitor.run_dd_with_progress 1048576 Monitor.Progress
      [tick "0 bytes copied"; tick "262144 bytes (262 kB, 256 KiB) copied";
       tick "524288 bytes (524 kB, 512 KiB) copied";
       tick "786432 bytes (786 kB, 768 KiB) copied";
       tick "1048576 bytes (1.0 MB, 1.0 MiB) copied"] "" 0 in
  List.map (fun d => Qred (Monitor.percentage (Monitor.drawn_sample d)))
           (Monitor.draws (snd run))
  = [0%Q; 25%Q; 50%Q; 75%Q; 100%Q]
  /\ Monitor.error_ranges (snd run) = []
  /\ fst run = true
  /\ Monitor.result_shown (snd run) = true.
Proof. vm_compute. repeat split; reflexivity. Qed.

(** ** The supervision loop: error ranges and the toggle key *)

(** Evaluation of the field projections, then case analysis on what one
    turn tests (the toggle key, the error pattern), from the inside out. *)
Ltac fields :=
  cbv beta iota delta
    [Monitor.current_mode Monitor.first_draw Monitor.last_bytes_copied
     Monitor.last_error_position Monitor.error_ranges Monitor.stderr_lines
     Monitor.has_prog_win Monitor.has_block_win Monitor.repaints Monitor.draws].

Ltac turn_cases t :=
  unfold Monitor.on_key;
  destruct ((Monitor.tick_key t =? Curses.ord "v") || (Monitor.tick_key t =? Curses.ord "V"));
  fields; unfold Monitor.append_line; fields;
  unfold Monitor.note_error; destruct (Monitor.error_re_search (Monitor.tick_line t));
  fields; unfold Monitor.close_error; fields;
  try (unfold Monitor.draw_sample; fields).

Section LoopFacts.
Import Monitor.

Lemma error_re_search_nonempty (line : string) :
  error_re_search line = true -> String.eqb line "" = false.
Proof. destruct line; [discriminate | reflexivity]. Qed.

Lemma parse_bytes_nonempty (line : string) (bytes : Z) :
  parse_bytes line = Some bytes -> String.eqb line "" = false.
Proof. destruct line; [discriminate | reflexivity]. Qed.

(** A turn whose line carries no byte count. *)
Lemma step_without_count (total : Z) (st : State) (t : Tick) :
  parse_bytes (tick_line t) = None ->
  step total st t
  = if String.eqb (tick_line t) "" then on_key (tick_key t) st
    else note_error (tick_line t) (append_line (tick_line t) (on_key (tick_key t) st)).
Proof. unfold step. now intros ->. Qed.

(** A turn whose line carries a byte count. *)
Lemma step_with_count (total : Z) (st : State) (t : Tick) (bytes : Z) :
  parse_bytes (tick_line t) = Some bytes ->
  step total st t
  = draw_sample (compute_sample total bytes (tick_elapsed t))
      (close_error bytes
         (note_error (tick_line t) (append_line (tick_line t) (on_key (tick_key t) st)))).
Proof.
  intros H. unfold step. now rewrite (parse_bytes_nonempty _ _ H), H.
Qed.

(** Before the first byte count nothing can become pending. *)
Lemma step_at_offset_zero (total : Z) (st : State) (t : Tick) :
  last_bytes_copied st = 0 -> last_error_position st = 0 ->
  error_ranges (step total st t) = error_ranges st
  /\ last_error_position (step total st t) = 0
  /\ (parse_bytes (tick_line t) = None -> last_bytes_copied (step total st t) = 0).
Proof.
  intros Hb He. destruct st as [m fd lb lep er sl pw bw rp dr]; cbn in Hb, He; subst.
  destruct (parse_bytes (tick_line t)) as [bytes|] eqn:P.
  - rewrite (step_with_count _ _ _ _ P).
    generalize (compute_sample total bytes (tick_elapsed t)) as smp. intros smp.
    turn_cases t; cbn [Z.gtb Z.compare];
      (split; [reflexivity | split; [reflexivity | congruence]]).
  - rewrite (step_without_count _ _ _ P).
    destruct (String.eqb (tick_line t) "");
      turn_cases t; repeat split; reflexivity.
Qed.

Lemma run_loop_at_offset_zero (total : Z) (errs : list Tick) (st : State) :
  Forall (fun e => parse_bytes (tick_line e) = None) errs ->
  last_bytes_copied st = 0 -> last_error_position st = 0 ->
  let st' := run_loop total st errs in
  error_ranges st' = error_ranges st
  /\ last_error_position st' = 0 /\ last_bytes_copied st' = 0.
Proof.
  intros H. revert st. unfold run_loop.
  induction H as [|e errs He _ IH]; intros st Hb Hp; cbn.
  - repeat split; assumption.
  - destruct (step_at_offset_zero total st e Hb Hp) as [H1 [H2 H3]].
    destruct (IH (step total st e) (H3 He) H2) as [I1 [I2 I3]].
    repeat split; congruence.
Qed.

(** An error line without a byte count makes the last byte count pending. *)
Lemma error_line_marks_pending (total : Z) (st : State) (t : Tick) :
  error_re_search (tick_line t) = true ->
  parse_bytes (tick_line t) = None ->
  let st' := step total st t in
  last_error_position st' = last_bytes_copied st
  /\ last_bytes_copied st' = last_bytes_copied st
  /\ error_ranges st' = error_ranges st.
Proof.
  intros He P. cbv zeta. rewrite (step_without_count _ _ _ P).
  rewrite (error_re_search_nonempty _ He).
  destruct st as [m fd lb lep er sl pw bw rp dr].
  unfold on_key;
    destruct ((tick_key t =? Curses.ord "v") || (tick_key t =? Curses.ord "V"));
    fields; unfold append_line; fields; unfold note_error; rewrite He; fields;
    repeat split; reflexivity.
Qed.

(** A line with a byte count closes what is pending: the offset noted by
    this very line if it also matches the error pattern, else the one noted
    before.  A positive pending offset gives one new range and is cleared;
    a pending offset of 0 gives nothing. *)
Lemma count_line_closes_pending (total : Z) (st : State) (t : Tick) (bytes : Z) :
  parse_bytes (tick_line t) = Some bytes ->
  let pending := if error_re_search (tick_line t)
                 then last_bytes_copied st else last_error_position st in
  let st' := step total st t in
  error_ranges st'
  = (if pending >? 0 then error_ranges st ++ [(pending, bytes)] else error_ranges st)%list
  /\ last_error_position st' = (if pending >? 0 then 0 else pending)
  /\ last_bytes_copied st' = bytes.
Proof.
  intros P. cbv zeta. rewrite (step_with_count _ _ _ _ P).
  pose proof (eq_refl : bytes_copied (compute_sample total bytes (tick_elapsed t)) = bytes)
    as Hs.
  revert Hs. generalize (compute_sample total bytes (tick_elapsed t)) as smp. intros smp Hs.
  destruct st as [m fd lb lep er sl pw bw rp dr].
  unfold on_key;
    destruct ((tick_key t =? Curses.ord "v") || (tick_key t =? Curses.ord "V"));
    fields; unfold append_line; fields;
    unfold note_error; destruct (error_re_search (tick_line t)); fields;
    unfold close_error; fields;
    match goal with
    | |- context [if ?b then _ else _] => destruct b
    end; unfold draw_sample; fields; repeat split; try reflexivity; exact Hs.
Qed.

(** An error line seen after a positive byte count is closed by the next
    progress line: one range, from the last count to the new one, and
    the pending marker is cleared. *)
Lemma error_range_closed_once (total : Z) (st : State) (t1 t2 : Tick) (bytes : Z) :
  0 < last_bytes_copied st ->
  error_re_search (tick_line t1) = true ->
  parse_bytes (tick_line t1) = None ->
  parse_bytes (tick_line t2) = Some bytes ->
  let st' := run_loop total st [t1; t2] in
  error_ranges st' = (error_ranges st ++ [(last_bytes_copied st, bytes)])%list
  /\ last_error_position st' = 0
  /\ last_bytes_copied st' = bytes.
Proof.
  intros Hb He P1 P2. unfold run_loop; cbn [fold_left].
  destruct (error_line_marks_pending total st t1 He P1) as [E1 [E2 E3]].
  destruct (count_line_closes_pending total (step total st t1) t2 bytes P2) as [C1 [C2 C3]].
  rewrite E1, E2, E3 in *.
  assert (Hp : (if error_re_search (tick_line t2)
                then last_bytes_copied st else last_bytes_copied st) = last_bytes_copied st)
    by (destruct (error_re_search (tick_line t2)); reflexivity).
  rewrite Hp in *.
  replace (last_bytes_copied st >? 0) with true in * by lia.
  repeat split; assumption.
Qed.

Lemma toggle_key_flips (key : Z) (st : State) :
  key = 118 \/ key = 86 ->
  on_key key st
  = mkState (flip (current_mode st)) true
      (last_bytes_copied st) (last_error_position st) (error_ranges st) (stderr_lines st)
      (match current_mode st with Progress => false | BlockMap => has_prog_win st end)
      (match current_mode st with Progress => has_block_win st | BlockMap => false end)
      (S (repaints st)) (draws st).
Proof. intros [-> | ->]; reflexivity. Qed.

End LoopFacts.

(** C3. What the code does at the failing input: error lines read before
    the first byte count (while the last byte count is still 0) leave no
    pending offset, so the progress line that follows records no
    ErrorRange. *)
Theorem C3_error_at_offset_zero_is_dropped
    (total_size_bytes : Z) (display_mode : Monitor.Mode)
    (errs : list Monitor.Tick) (t : Monitor.Tick) :
  Forall (fun e => Monitor.parse_bytes (Monitor.tick_line e) = None) errs ->
  Monitor.error_ranges
    (Monitor.run_loop total_size_bytes (Monitor.init_state display_mode) (errs ++ [t]))
  = [].
Proof.
  intros H. unfold Monitor.run_loop. rewrite fold_left_app; cbn [fold_left].
  destruct (run_loop_at_offset_zero total_size_bytes errs
              (Monitor.init_state display_mode) H eq_refl eq_refl) as [H1 [H2 H3]].
  unfold Monitor.run_loop in H1, H2, H3.
  destruct (step_at_offset_zero total_size_bytes _ t H3 H2) as [S1 _].
  now rewrite S1, H1.
Qed.

Lemma C3_witness :
  Monitor.error_ranges
    (Monitor.run_loop 1000000 (Monitor.init_state Monitor.Progress)
       ([Monitor.mkTick (-1) "dd: error reading '/dev/sdb': Input/output error" 1]
        ++ [Monitor.mkTick (-1) "512 bytes copied, 2 s, 0.3 kB/s" 2]))
  = [].
Proof.
  apply (C3_error_at_offset_zero_is_dropped 1000000 Monitor.Progress
           [Monitor.mkTick (-1) "dd: error reading '/dev/sdb': Input/output error" 1]
           (Monitor.mkTick (-1) "512 bytes copied, 2 s, 0.3 kB/s" 2)).
  repeat constructor.
Defined.

(** The two runs side by side: the error line is recognised in both; the
    range is recorded once when the last count was 100000 and not at all
    when it was 0. *)
Example error_range_scenarios :
  let err := "dd: error reading '/dev/sdb': Input/output error" in
  let tick l := Monitor.mkTick (-1) l 1 in
  Monitor.error_re_search err = true
  /\ Monitor.error_ranges
       (Monitor.run_loop 1000000 (Monitor.init_state Monitor.Progress)
          [tick "100000 bytes copied"; tick err; tick "150000 bytes copied";
           tick "200000 bytes copied"])
     = [(100000, 150000)]
  /\ Monitor.error_ranges
       (Monitor.run_loop 1000000 (Monitor.init_state Monitor.Progress)
          [tick err; tick "512 bytes copied"; tick "1024 bytes copied"])
     = [].
Proof. vm_compute. repeat split; reflexivity. Qed.

(** C7, as amended. A press of the toggle key ([v] is 118, [V] is 86)
    flips the display mode, deletes the window of the renderer that is
    left, repaints the chrome and arms a first draw; the key press itself
    calls no renderer and changes neither the last byte count nor the
    error ranges.  The newly active renderer is called only for the sample
    computed from a line with a byte count: in the same turn when the line
    read in that turn has one, as a first draw and with the ranges recorded
    so far. *)
Theorem C7_toggle_defers_redraw
    (total_size_bytes : Z) (st : Monitor.State) (key : Z) (line : string) (elapsed : Q) :
  key = 118 \/ key = 86 ->
  let st' := Monitor.step total_size_bytes st (Monitor.mkTick key line elapsed) in
  Monitor.current_mode st' = Monitor.flip (Monitor.current_mode st)
  /\ Monitor.repaints st' = S (Monitor.repaints st)
  /\ match Monitor.current_mode st with
     | Monitor.Progress => Monitor.has_prog_win st' = false
     | Monitor.BlockMap => Monitor.has_block_win st' = false
     end
  /\ match Monitor.parse_bytes line with
     | None =>
         Monitor.draws st' = Monitor.draws st
         /\ Monitor.first_draw st' = true
         /\ Monitor.last_bytes_copied st' = Monitor.last_bytes_copied st
         /\ Monitor.error_ranges st' = Monitor.error_ranges st
     | Some bytes =>
         Monitor.draws st'
         = (Monitor.draws st
            ++ [Monitor.mkDraw (Monitor.flip (Monitor.current_mode st))
                  (Monitor.compute_sample total_size_bytes bytes elapsed)
                  true (Monitor.error_ranges st')])%list
         /\ Monitor.first_draw st' = false
         /\ Monitor.last_bytes_copied st' = bytes
     end.
Proof.
  intros Hkey st'. subst st'.
  destruct (Monitor.parse_bytes line) as [bytes|] eqn:P.
  - rewrite (step_with_count total_size_bytes st (Monitor.mkTick key line elapsed) bytes P).
    cbn [Monitor.tick_key Monitor.tick_line Monitor.tick_elapsed].
    pose proof (eq_refl : Monitor.bytes_copied
                            (Monitor.compute_sample total_size_bytes bytes elapsed) = bytes)
      as Hs.
    revert Hs.
    generalize (Monitor.compute_sample total_size_bytes bytes elapsed) as smp. intros smp Hs.
    rewrite (toggle_key_flips key st Hkey).
    destruct st as [m fd lb lep er sl pw bw rp dr]. fields.
    unfold Monitor.append_line; fields.
    unfold Monitor.note_error; destruct (Monitor.error_re_search line); fields;
      unfold Monitor.close_error; fields;
      match goal with
      | |- context [if ?b then _ else _] => destruct b
      end; unfold Monitor.draw_sample; fields;
      repeat split; try reflexivity; try exact Hs; destruct m; reflexivity.
  - rewrite (step_without_count total_size_bytes st (Monitor.mkTick key line elapsed) P).
    cbn [Monitor.tick_key Monitor.tick_line Monitor.tick_elapsed].
    rewrite (toggle_key_flips key st Hkey).
    destruct st as [m fd lb lep er sl pw bw rp dr]. fields.
    destruct (String.eqb line "");
      [repeat split; try reflexivity; destruct m; reflexivity|].
    unfold Monitor.append_line; fields.
    unfold Monitor.note_error; destruct (Monitor.error_re_search line); fields;
      repeat split; try reflexivity; destruct m; reflexivity.
Qed.

Lemma C7_witness :
  let st := Monitor.run_loop 1048576 (Monitor.init_state Monitor.Progress)
              [Monitor.mkTick (-1) "262144 bytes copied" 1] in
  let st' := Monitor.step 1048576 st (Monitor.mkTick 118 "1+0 records in" 2) in
  (118 = 118 \/ 118 = 86)
  /\ Monitor.current_mode st' = Monitor.flip (Monitor.current_mode st).
Proof.
  split; [left; reflexivity|].
  exact (proj1 (C7_toggle_defers_redraw 1048576
                  (Monitor.run_loop 1048576 (Monitor.init_state Monitor.Progress)
                     [Monitor.mkTick (-1) "262144 bytes copied" 1])
                  118 "1+0 records in" 2 (or_introl eq_refl))).
Defined.

(** C7, as stated, fails: after one sample drawn by the progress bar, a
    press of [v] followed by a line without a byte count switches to the
    block map, and the block-map renderer has drawn nothing: the only draw
    on record is the progress bar's, and there is no block-map window for
    a final screen. *)
Lemma C7_counterexample :
  let st := Monitor.run_loop 1048576 (Monitor.init_state Monitor.Progress)
              [Monitor.mkTick (-1) "262144 bytes copied" 1;
               Monitor.mkTick 118 "1+0 records in" 2] in
  Monitor.current_mode st = Monitor.BlockMap
  /\ List.map Monitor.renderer (Monitor.draws st) = [Monitor.Progress]
  /\ Monitor.has_block_win st = false
  /\ Monitor.result_shown st = false.
Proof. vm_compute. repeat split; reflexivity. Qed.

(** ** The block map *)

Section GridFacts.
Import Monitor.

Lemma range_hits_spec (cs ce : Z) (r : ErrorRange) :
  range_hits cs ce r = true <-> fst r <= ce /\ cs <= snd r.
Proof.
  unfold range_hits. rewrite negb_true_iff, orb_false_iff. lia.
Qed.

Lemma has_error_spec (cs ce : Z) (ranges : list ErrorRange) :
  has_error cs ce ranges = true <->
  exists error_start error_end,
    In (error_start, error_end) ranges /\ error_start <= ce /\ cs <= error_end.
Proof.
  unfold has_error. rewrite existsb_exists. split.
  - intros [[es ee] [Hin Hhit]]. apply range_hits_spec in Hhit.
    exists es, ee. now split.
  - intros [es [ee [Hin Hhit]]]. exists (es, ee). split; [exact Hin|].
    now apply range_hits_spec.
Qed.

(** Half-open intervals that share a byte pass the test of the code; the
    converse is what fails. *)
Lemma half_open_overlap_is_flagged (cs ce : Z) (ranges : list ErrorRange)
    (error_start error_end x : Z) :
  In (error_start, error_end) ranges ->
  cs <= x < ce -> error_start <= x < error_end ->
  has_error cs ce ranges = true.
Proof.
  intros Hin Hc He. apply has_error_spec.
  exists error_start, error_end. split; [exact Hin | lia].
Qed.

(** The cells written by the two loops are those of the grid, each with
    the glyph of its index. *)
Lemma draw_cells_spec (map_width map_height total : Z) (pct : Q)
    (ranges : list ErrorRange) (y x : Z) (g : Glyph) :
  In (y, x, g) (draw_cells map_width map_height total pct ranges) <->
  exists row col,
    0 <= row < map_height /\ 0 <= col < map_width
    /\ y = 5 + row /\ x = 2 + col
    /\ g = cell_glyph map_width map_height total pct ranges (row * map_width + col).
Proof.
  assert (Hrange : forall n k, In k (Py.range n) <-> 0 <= k < n).
  { intros n k. unfold Py.range. rewrite in_map_iff. split.
    - intros [i [<- Hi]]. apply in_seq in Hi. lia.
    - intros Hk. exists (Z.to_nat k). split; [lia|]. apply in_seq. lia. }
  unfold draw_cells. rewrite in_flat_map. split.
  - intros [row [Hrow Hin]]. apply in_map_iff in Hin as [col [Heq Hcol]].
    inversion Heq; subst. exists row, col.
    apply Hrange in Hrow, Hcol. repeat split; try lia.
  - intros [row [col [Hrow [Hcol [-> [-> ->]]]]]]. exists row. split.
    + now apply Hrange.
    + apply in_map_iff. exists col. split; [reflexivity | now apply Hrange].
Qed.

(** The error glyph is drawn exactly when some recorded range passes the
    test of the code, which compares the cell and the range as closed
    intervals. *)
Lemma error_glyph_iff_closed_overlap
    (map_width map_height total_size_bytes : Z) (pct : Q)
    (error_ranges : list ErrorRange) (char_index : Z) :
  cell_glyph map_width map_height total_size_bytes pct error_ranges char_index = GError
  <-> exists error_start error_end,
        In (error_start, error_end) error_ranges
        /\ error_start <= char_end_byte map_width map_height total_size_bytes char_index
        /\ char_start_byte map_width map_height total_size_bytes char_index <= error_end.
Proof.
  rewrite <- has_error_spec. unfold cell_glyph.
  destruct (has_error _ _ error_ranges).
  - split; reflexivity.
  - split; [|discriminate].
    destruct (_ <? _); [discriminate|]. destruct (_ =? _); discriminate.
Qed.

End GridFacts.

(** C4. The claim fails on every cell that ends where a recorded range
    starts: when no recorded range starts before the end of the cell, the
    half-open interval [[char_start_byte, char_end_byte)] of the cell
    shares no byte with any range, even with the end points of the ranges
    counted in; yet the cell is drawn with the error glyph as soon as one
    range starts exactly at [char_end_byte], because the test of the code
    also counts the end point of the cell in. *)
Theorem C4_touching_cell_is_flagged
    (map_width map_height total_size_bytes : Z) (pct : Q)
    (error_ranges : list Monitor.ErrorRange) (char_index error_start error_end : Z) :
  In (error_start, error_end) error_ranges ->
  Monitor.char_end_byte map_width map_height total_size_bytes char_index = error_start ->
  Monitor.char_start_byte map_width map_height total_size_bytes char_index <= error_end ->
  (forall r, In r error_ranges ->
             Monitor.char_end_byte map_width map_height total_size_bytes char_index
             <= fst r) ->
  Monitor.cell_glyph map_width map_height total_size_bytes pct error_ranges char_index
  = Monitor.GError
  /\ forall r x,
       In r error_ranges ->
       Monitor.char_start_byte map_width map_height total_size_bytes char_index <= x
       < Monitor.char_end_byte map_width map_height total_size_bytes char_index ->
       ~ (fst r <= x <= snd r).
Proof.
  intros Hin Hend Hstart Hafter. split.
  - apply error_glyph_iff_closed_overlap.
    exists error_start, error_end. split; [exact Hin | lia].
  - intros r x Hr Hx Hrx. specialize (Hafter r Hr). lia.
Qed.

Lemma C4_witness :
  Monitor.cell_glyph 10 1 100 50 [(10, 20)] 0 = Monitor.GError
  /\ forall r x,
       In r [(10, 20)] ->
       Monitor.char_start_byte 10 1 100 0 <= x < Monitor.char_end_byte 10 1 100 0 ->
       ~ (fst r <= x <= snd r).
Proof.
  apply (C4_touching_cell_is_flagged 10 1 100 50 [(10, 20)] 0 10 20).
  - left; reflexivity.
  - reflexivity.
  - vm_compute. discriminate.
  - intros r [<- | []]. vm_compute. discriminate.
Defined.

(** On a row of ten cells of ten bytes each, the range (10, 20) covers
    exactly cell 1; the cells 0 and 2, which only touch it, are drawn with
    the error glyph too.  A range over the whole device flags all ten
    cells.  On a map of 1700 cells for 256060514304 bytes the end of cell
    424 is 64015128575, one byte less than the exact product. *)
Example touching_cells_scenario :
  Monitor.char_start_byte 10 1 100 0 = 0
  /\ Monitor.char_end_byte 10 1 100 0 = 10
  /\ List.map snd (Monitor.draw_cells 10 1 100 50 [(10, 20)])
     = [Monitor.GError; Monitor.GError; Monitor.GError; Monitor.GComplete;
        Monitor.GComplete; Monitor.GWriting; Monitor.GPending; Monitor.GPending;
        Monitor.GPending; Monitor.GPending]
  /\ List.map snd (Monitor.draw_cells 10 1 100 50 [(0, 100)])
     = List.repeat Monitor.GError 10
  /\ Monitor.char_end_byte 100 17 256060514304 424 = 64015128575.
Proof. repeat split; vm_compute; reflexivity. Qed.

(* ================================================================= *)
(** * Part III: further properties of the code *)
(* ================================================================= *)

(** Boolean tests of the source as propositions. *)
Ltac bool_hyps :=
  repeat match goal with
         | H : (_ && _) = true |- _ => apply andb_prop in H; destruct H
         | H : (_ || _) = false |- _ => apply orb_false_iff in H; destruct H
         | H : (_ && _) = false |- _ => apply andb_false_iff in H; destruct H
         | H : (_ || _) = true |- _ => apply orb_prop in H; destruct H
         | H : negb _ = true |- _ => apply negb_true_iff in H
         | H : negb _ = false |- _ => apply negb_false_iff in H
         | H : (_ <? _) = true |- _ => apply Z.ltb_lt in H
         | H : (_ <? _) = false |- _ => apply Z.ltb_ge in H
         | H : (_ <=? _) = true |- _ => apply Z.leb_le in H
         | H : (_ <=? _) = false |- _ => apply Z.leb_gt in H
         | H : (_ =? _) = true |- _ => apply Z.eqb_eq in H
         | H : (_ =? _) = false |- _ => apply Z.eqb_neq in H
         | H : (_ >? _) = _ |- _ => rewrite Z.gtb_ltb in H
         | H : (_ >=? _) = _ |- _ => rewrite Z.geb_leb in H
         end.

Ltac split_ifs :=
  repeat match goal with
         | |- context [if ?b then _ else _] => destruct b eqn:?
         | H : context [if ?b then _ else _] |- _ => destruct b eqn:?
         end.

(** ** The menu: the value returned *)

Section MenuRange.
Import LogPane Dialog.

Variable format : string -> string -> string.
Variables show_help_screen show_about_screen : World -> option World.
Variable title : string.
Variable menu_items : list string.
Variables app_h scr_w : Z.

Let n := n_items menu_items.
Let step := menu_step format show_help_screen show_about_screen title menu_items app_h scr_w.
Let steps := menu_steps format show_help_screen show_about_screen title menu_items app_h scr_w.
Let loop := menu_loop format show_help_screen show_about_screen title menu_items app_h scr_w.

Lemma menu_mouse_range (st : MenuState) (ev : Event) :
  0 <= current_row st < n ->
  Choice.step_in_range n (menu_mouse title menu_items app_h scr_w st ev).
Proof.
  intros Hrow. unfold menu_mouse. fold n.
  destruct (ev_mouse ev) as [m|]; [|exact Hrow].
  split_ifs; cbn; bool_hyps; try lia; try exact Hrow.
Qed.

Lemma menu_step_range (st : MenuState) (ev : Event) (w w' : World)
    (res : Step MenuState Z) :
  0 <= current_row st < n ->
  step st ev w = Some (res, w') ->
  Choice.step_in_range n res.
Proof.
  intros Hrow. unfold step, menu_step. fold n.
  destruct (log_focused st).
  - destruct ((ev_key ev =? 9) || (ev_key ev =? 27)); intros [= <- _]; exact Hrow.
  - destruct ((ev_key ev =? Curses.KEY_UP) && (current_row st >? 0)) eqn:E1.
    { intros [= <- _]; cbn. bool_hyps; lia. }
    destruct ((ev_key ev =? Curses.KEY_DOWN) && (current_row st <? n - 1)) eqn:E2.
    { intros [= <- _]; cbn. bool_hyps; lia. }
    destruct ((Curses.ord "1" <=? ev_key ev) && (ev_key ev <=? Curses.ord "9")) eqn:E3.
    { destruct (ev_key ev - Curses.ord "1" <? n) eqn:E4; intros [= <- _]; cbn.
      - apply andb_prop in E3 as [E3 _]. apply Z.leb_le in E3. apply Z.ltb_lt in E4.
        right. change (Curses.ord "1") with 49 in *. lia.
      - exact Hrow. }
    destruct ((ev_key ev =? Curses.ord "q") || (ev_key ev =? Curses.ord "Q")).
    { intros [= <- _]; cbn. now left. }
    destruct ((ev_key ev =? Curses.KEY_F1) || (ev_key ev =? Curses.ord "?")).
    { destruct (show_help_screen _); [|discriminate]. intros [= <- _]; exact Hrow. }
    destruct (ev_key ev =? Curses.KEY_F12).
    { destruct (show_about_screen _); [|discriminate]. intros [= <- _]; exact Hrow. }
    destruct (ev_key ev =? Curses.KEY_MOUSE).
    { intros [= <- _]. now apply menu_mouse_range. }
    destruct (ev_key ev =? 9).
    { intros [= <- _]; exact Hrow. }
    destruct ((ev_key ev =? Curses.KEY_ENTER) || (ev_key ev =? 10) || (ev_key ev =? 13)).
    { intros [= <- _]; cbn. right. exact Hrow. }
    destruct (ev_key ev =? 27); intros [= <- _]; cbn; [now left | exact Hrow].
Qed.

Lemma menu_loop_range (fuel : nat) (st : MenuState) (w w' : World) (r : Z) :
  0 <= current_row st < n ->
  loop fuel st w = Some (r, w') ->
  r = -1 \/ 0 <= r < n.
Proof.
  revert st w. induction fuel as [|fuel IH]; intros st w Hrow; cbn; [discriminate|].
  destruct (input w) as [|ev rest]; [discriminate|].
  fold step. destruct (step st ev (with_input rest w)) as [[[st'|x] w1]|] eqn:E;
    [| |discriminate].
  - apply IH. exact (menu_step_range _ _ _ _ _ Hrow E).
  - intros [= <- _]. exact (menu_step_range _ _ _ _ _ Hrow E).
Qed.

(** An arrow key keeps the menu open, reads nothing else and leaves the
    world alone. *)
Lemma menu_step_arrow (row : Z) (ev : Event) (w : World) :
  ev_key ev = Curses.KEY_UP \/ ev_key ev = Curses.KEY_DOWN ->
  exists row',
    step (mkMenu row false) ev w = Some (Continue (mkMenu row' false), w)
    /\ (0 <= row < n -> 0 <= row' < n).
Proof.
  intros [E | E]; unfold step, menu_step; rewrite E; cbn; fold n.
  - destruct (row >? 0) eqn:R.
    + exists (row - 1). split; [reflexivity|]. bool_hyps; lia.
    + exists row. split; [reflexivity | auto].
  - destruct (row <? n - 1) eqn:R.
    + exists (row + 1). split; [reflexivity|]. bool_hyps; lia.
    + exists row. split; [reflexivity | auto].
Qed.

Lemma menu_steps_arrows (navs rest : list Event) (row : Z)
    (l : option CursesHandler) (wins : list string) :
  Forall (fun ev => ev_key ev = Curses.KEY_UP \/ ev_key ev = Curses.KEY_DOWN) navs ->
  exists row',
    steps (List.length navs) (mkMenu row false) (mkWorld l (navs ++ rest) wins)
    = Some (Continue (mkMenu row' false), mkWorld l rest wins)
    /\ (0 <= row < n -> 0 <= row' < n).
Proof.
  intros H. revert row. induction H as [|ev navs Hev _ IH]; intros row.
  - exists row. split; [reflexivity | auto].
  - destruct (menu_step_arrow row ev (mkWorld l (navs ++ rest) wins) Hev) as [r1 [S1 R1]].
    destruct (IH r1) as [r2 [S2 R2]].
    exists r2. split; [|auto].
    unfold steps, step in *.
    cbn [List.length menu_steps app input].
    unfold with_input; cbn [log windows]. rewrite S1. exact S2.
Qed.

(** A digit key in the navigating state. *)
Lemma menu_step_digit (row d : Z) (w : World) :
  1 <= d <= 9 -> d <= n ->
  step (mkMenu row false) (key_event (48 + d)) w = Some (Return (d - 1), w).
Proof.
  intros Hd Hn. unfold step, menu_step; cbn [log_focused ev_key key_event].
  unfold Curses.KEY_UP, Curses.KEY_DOWN.
  replace (48 + d =? 259) with false by lia.
  replace (48 + d =? 258) with false by lia.
  cbn [andb].
  change (Curses.ord "1") with 49. change (Curses.ord "9") with 57.
  replace (49 <=? 48 + d) with true by lia.
  replace (48 + d <=? 57) with true by lia.
  cbn [andb]. fold n.
  replace (48 + d - 49 <? n) with true by lia.
  do 2 f_equal. f_equal. lia.
Qed.

(** Down pressed [k] times from row [row]. *)
Lemma menu_steps_down (k : nat) (rest : list Event) (row : Z)
    (l : option CursesHandler) (wins : list string) :
  0 <= row < n ->
  steps k (mkMenu row false)
        (mkWorld l (List.repeat (key_event Curses.KEY_DOWN) k ++ rest) wins)
  = Some (Continue (mkMenu (Z.min (row + Z.of_nat k) (n - 1)) false),
          mkWorld l rest wins).
Proof.
  revert row. induction k as [|k IH]; intros row Hrow.
  - cbn. do 3 f_equal. f_equal. lia.
  - unfold steps in *.
    cbn [List.repeat app menu_steps input].
    unfold with_input; cbn [log windows].
    assert (Hstep :
      menu_step format show_help_screen show_about_screen title menu_items app_h scr_w
        (mkMenu row false) (key_event Curses.KEY_DOWN)
        (mkWorld l (List.repeat (key_event Curses.KEY_DOWN) k ++ rest) wins)
      = Some (Continue (mkMenu (Z.min (row + 1) (n - 1)) false),
              mkWorld l (List.repeat (key_event Curses.KEY_DOWN) k ++ rest) wins)).
    { unfold menu_step; cbn [log_focused ev_key key_event current_row].
      change (Curses.KEY_DOWN =? Curses.KEY_UP) with false. cbn [andb].
      rewrite Z.eqb_refl. cbn [andb]. fold n.
      destruct (row <? n - 1) eqn:R.
      - do 3 f_equal. f_equal. bool_hyps; lia.
      - cbn. do 3 f_equal. f_equal. bool_hyps; lia. }
    rewrite Hstep. rewrite IH by lia. do 3 f_equal. f_equal. lia.
Qed.

End MenuRange.

Lemma get_menu_choice_range
    (format : string -> string -> string)
    (show_help_screen show_about_screen : Dialog.World -> option Dialog.World)
    (title : string) (menu_items : list string) (app_h scr_w : Z)
    (fuel : nat) (w w' : Dialog.World) (r : Z) :
  Dialog.get_menu_choice format show_help_screen show_about_screen title menu_items
    app_h scr_w fuel w = Some (r, w') ->
  r = -1 \/ 0 <= r < Z.of_nat (List.length menu_items).
Proof.
  unfold Dialog.get_menu_choice.
  destruct menu_items as [|item items].
  - intros [= <- _]. now left.
  - intros H. apply menu_loop_range in H; [exact H|].
    unfold Dialog.menu_init, Dialog.n_items; cbn [Dialog.current_row List.length]. lia.
Qed.

(** X1. Whatever the keys, the mouse events and the overlays do,
    [get_menu_choice] returns either the cancellation value [-1] or the
    index of one of the items it was given. *)
Theorem X1_menu_choice_is_cancel_or_row
    (format : string -> string -> string)
    (show_help_screen show_about_screen : Dialog.World -> option Dialog.World)
    (title : string) (menu_items : list string) (app_h scr_w : Z)
    (fuel : nat) (w w' : Dialog.World) (r : Z) :
  Dialog.get_menu_choice format show_help_screen show_about_screen title menu_items
    app_h scr_w fuel w = Some (r, w') ->
  r = -1 \/ 0 <= r < Z.of_nat (List.length menu_items).
Proof.
  intros H. eapply get_menu_choice_range. exact H.
Qed.

Lemma X1_witness :
  2 = -1 \/ 0 <= 2 < Z.of_nat (List.length ["Clone"; "Backup"; "Restore"]).
Proof.
  exact (X1_menu_choice_is_cancel_or_row (fun _ m => m) (fun w => Some w) (fun w => Some w)
           "Main Menu" ["Clone"; "Backup"; "Restore"] 16 80 5
           (Dialog.mkWorld None
              [Dialog.key_event Curses.KEY_DOWN; Dialog.key_event Curses.KEY_DOWN;
               Dialog.key_event Curses.KEY_DOWN; Dialog.key_event 10] [])
           (Dialog.mkWorld None [] ["Main Menu"]) 2 eq_refl).
Defined.

(** X2. After any sequence of Up and Down keys, a digit key [d] between 1
    and 9 that names an existing item closes the menu at once with the
    index [d - 1]; the rest of the input is left unread. *)
Theorem X2_digit_selects_after_navigation
    (format : string -> string -> string)
    (show_help_screen show_about_screen : Dialog.World -> option Dialog.World)
    (title : string) (item : string) (items : list string) (app_h scr_w : Z)
    (fuel : nat) (navs rest : list Dialog.Event) (d : Z)
    (l : option LogPane.CursesHandler) (wins : list string) :
  Forall (fun ev => Dialog.ev_key ev = Curses.KEY_UP \/ Dialog.ev_key ev = Curses.KEY_DOWN)
         navs ->
  1 <= d <= 9 -> d <= Z.of_nat (List.length (item :: items)) ->
  Dialog.get_menu_choice format show_help_screen show_about_screen title (item :: items)
    app_h scr_w (List.length navs + S fuel)
    (Dialog.mkWorld l (navs ++ Dialog.key_event (48 + d) :: rest) wins)
  = Some (d - 1, Dialog.mkWorld l rest (wins ++ [title])).
Proof.
  intros Hnavs Hd Hn.
  unfold Dialog.get_menu_choice, Dialog.draw_bordered_window;
    cbn [Dialog.log Dialog.input Dialog.windows].
  destruct (menu_steps_arrows format show_help_screen show_about_screen title
              (item :: items) app_h scr_w navs (Dialog.key_event (48 + d) :: rest)
              0 l (wins ++ [title]) Hnavs) as [row [Hs _]].
  unfold Dialog.menu_init.
  rewrite (menu_loop_steps _ _ _ _ _ _ _ _ (S fuel) _ _ _ _ Hs).
  cbn [Dialog.menu_loop Dialog.input]. unfold Dialog.with_input; cbn [Dialog.log Dialog.windows].
  rewrite menu_step_digit; [reflexivity | exact Hd | exact Hn].
Qed.

Lemma X2_witness :
  Dialog.get_menu_choice (fun _ m => m) (fun w => Some w) (fun w => Some w)
    "Main Menu" ["Clone"; "Backup"; "Restore"; "Verify"; "Wipe"] 16 80
    (List.length [Dialog.key_event Curses.KEY_DOWN; Dialog.key_event Curses.KEY_UP;
                  Dialog.key_event Curses.KEY_UP] + 1)
    (Dialog.mkWorld None
       ([Dialog.key_event Curses.KEY_DOWN; Dialog.key_event Curses.KEY_UP;
         Dialog.key_event Curses.KEY_UP] ++ Dialog.key_event (48 + 3) :: []) [])
  = Some (3 - 1, Dialog.mkWorld None [] ([] ++ ["Main Menu"])).
Proof.
  apply (X2_digit_selects_after_navigation (fun _ m => m) (fun w => Some w) (fun w => Some w)
           "Main Menu" "Clone" ["Backup"; "Restore"; "Verify"; "Wipe"] 16 80 0
           [Dialog.key_event Curses.KEY_DOWN; Dialog.key_event Curses.KEY_UP;
            Dialog.key_event Curses.KEY_UP] [] 3 None []).
  - repeat (apply Forall_cons; [cbn; auto|]). apply Forall_nil.
  - lia.
  - cbn; lia.
Defined.

(** X3. Down never wraps around: pressed [k] times from the top and
    followed by Enter, it selects row [min(k, n - 1)] of a menu of [n]
    items. *)
Theorem X3_down_stops_at_last_row
    (format : string -> string -> string)
    (show_help_screen show_about_screen : Dialog.World -> option Dialog.World)
    (title : string) (item : string) (items : list string) (app_h scr_w : Z)
    (fuel k : nat) (rest : list Dialog.Event)
    (l : option LogPane.CursesHandler) (wins : list string) :
  Dialog.get_menu_choice format show_help_screen show_about_screen title (item :: items)
    app_h scr_w (k + S fuel)
    (Dialog.mkWorld l
       (List.repeat (Dialog.key_event Curses.KEY_DOWN) k ++ Dialog.key_event 10 :: rest) wins)
  = Some (Z.min (Z.of_nat k) (Z.of_nat (List.length items)),
          Dialog.mkWorld l rest (wins ++ [title])).
Proof.
  unfold Dialog.get_menu_choice, Dialog.draw_bordered_window, Dialog.menu_init;
    cbn [Dialog.log Dialog.input Dialog.windows].
  assert (Hrow : 0 <= 0 < Dialog.n_items (item :: items))
    by (unfold Dialog.n_items; cbn [List.length]; lia).
  rewrite (menu_loop_steps _ _ _ _ _ _ _ _ (S fuel) _ _ _ _
             (menu_steps_down format show_help_screen show_about_screen title
                (item :: items) app_h scr_w k (Dialog.key_event 10 :: rest) 0 l
                (wins ++ [title]) Hrow)).
  replace (Z.min (0 + Z.of_nat k) (Dialog.n_items (item :: items) - 1))
    with (Z.min (Z.of_nat k) (Z.of_nat (List.length items)))
    by (unfold Dialog.n_items; cbn [List.length]; lia).
  generalize (Z.min (Z.of_nat k) (Z.of_nat (List.length items))) as row. intros row.
  cbn [Dialog.menu_loop Dialog.input]. unfold Dialog.with_input; cbn [Dialog.log Dialog.windows].
  unfold Dialog.menu_step; cbn [Dialog.log_focused Dialog.ev_key Dialog.key_event
                                  Dialog.current_row].
  reflexivity.
Qed.

(** ** The two choice menus and the confirmation *)

Section ChoiceFacts.
Import Dialog Choice.

Lemma prefix_of_app (s t : string) : String.prefix s (s ++ t) = true.
Proof. apply prefix_app. now exists t. Qed.

Lemma index_in_range {A : Type} (l : list A) (i : Z) :
  0 <= i < Z.of_nat (List.length l) ->
  exists x, PyMore.index l i = Some x /\ List.nth_error l (Z.to_nat i) = Some x.
Proof.
  intros Hi. unfold PyMore.index. replace (i <? 0) with false by lia.
  destruct (List.nth_error l (Z.to_nat i)) as [x|] eqn:E.
  - exists x. now split.
  - apply nth_error_None in E. lia.
Qed.

(** A yes or no key is not a mouse event. *)
Lemma decisive_not_mouse (k : Z) :
  is_yes k = true \/ is_no k = true -> (k =? Curses.KEY_MOUSE) = false.
Proof.
  intros H. destruct (Z.eqb_spec k Curses.KEY_MOUSE) as [-> | _]; [|reflexivity].
  destruct H as [H | H]; discriminate H.
Qed.

Lemma show_confirmation_skips (noise rest : list Z) :
  Forall (fun x => is_yes x = false /\ is_no x = false) noise ->
  show_confirmation (noise ++ rest) = show_confirmation rest.
Proof.
  induction 1 as [|x noise [Hy Hn] _ IH]; [reflexivity|].
  cbn [app show_confirmation]. rewrite Hy, Hn, IH. now destruct (x =? Curses.KEY_MOUSE).
Qed.

End ChoiceFacts.

(** X4. [get_compression_choice] never fails on its dictionary lookup: it
    returns nothing (the cancelled choice, when the menu returned [-1]) or
    the entry of [compression_map] for one of the five options. *)
Theorem X4_compression_choice_never_fails
    (format : string -> string -> string)
    (show_help_screen show_about_screen : Dialog.World -> option Dialog.World)
    (app_h scr_w : Z) (fuel : nat) (w w' : Dialog.World)
    (out : Choice.Outcome (option Choice.CompressionInfo)) :
  Choice.get_compression_choice format show_help_screen show_about_screen app_h scr_w fuel w
  = Some (out, w') ->
  out = Choice.Returned None
  \/ exists k info,
       0 <= k <= 4 /\ Choice.compression_map k = Some info
       /\ out = Choice.Returned (Some info).
Proof.
  unfold Choice.get_compression_choice.
  destruct (Dialog.get_menu_choice _ _ _ _ _ _ _ fuel w) as [[idx w1]|] eqn:E; [|discriminate].
  apply get_menu_choice_range in E. cbn [List.length Choice.compression_options] in E.
  destruct (Z.eqb_spec idx (-1)) as [-> | Hne].
  - intros [= <- _]. now left.
  - assert (Hk : idx = 0 \/ idx = 1 \/ idx = 2 \/ idx = 3 \/ idx = 4) by lia.
    destruct Hk as [-> | [-> | [-> | [-> | ->]]]]; cbn; intros [= <- _]; right;
      [exists 0 | exists 1 | exists 2 | exists 3 | exists 4];
      eexists; (split; [lia | split; reflexivity]).
Qed.

Lemma X4_witness :
  Choice.Returned (Some (Some ".zst", Some "zstd -c", "zstd compression"))
  = Choice.Returned None
  \/ exists k info,
       0 <= k <= 4 /\ Choice.compression_map k = Some info
       /\ Choice.Returned (Some (Some ".zst", Some "zstd -c", "zstd compression"))
          = Choice.Returned (Some info).
Proof.
  exact (X4_compression_choice_never_fails (fun _ m => m) (fun w => Some w) (fun w => Some w)
           16 80 3
           (Dialog.mkWorld None [Dialog.key_event Curses.KEY_DOWN; Dialog.key_event 52] [])
           (Dialog.mkWorld None [] ["Select Compression Method"])
           (Choice.Returned (Some (Some ".zst", Some "zstd -c", "zstd compression")))
           eq_refl).
Defined.

(** X5. [get_block_size_choice] never indexes outside its list: with
    [bs_idx] the index the menu returned, it returns nothing when
    [bs_idx] is [-1] (the cancelled choice) and otherwise the block size
    at position [bs_idx], and the menu line at that same position begins
    with the size returned. *)
Theorem X5_block_size_matches_menu_line
    (format : string -> string -> string)
    (show_help_screen show_about_screen : Dialog.World -> option Dialog.World)
    (app_h scr_w : Z) (operation_type : string) (detected : option string)
    (fuel : nat) (w w' : Dialog.World) (out : Choice.Outcome (option string)) :
  Choice.get_block_size_choice format show_help_screen show_about_screen app_h scr_w
    operation_type detected fuel w = Some (out, w') ->
  exists w1 bs_idx,
    match detected with
    | Some _ => Choice.show_message_box "Drive Alignment Detection" w
    | None => Some w
    end = Some w1
    /\ Dialog.get_menu_choice format show_help_screen show_about_screen
         ("Select Block Size for " ++ operation_type)
         (Choice.block_size_options detected) app_h scr_w fuel w1
       = Some (bs_idx, w')
    /\ ((bs_idx = -1 /\ out = Choice.Returned None)
        \/ (0 <= bs_idx
            /\ exists label bs,
                 List.nth_error (Choice.block_size_options detected) (Z.to_nat bs_idx)
                 = Some label
                 /\ List.nth_error (Choice.block_sizes detected) (Z.to_nat bs_idx)
                    = Some bs
                 /\ String.prefix bs label = true
                 /\ out = Choice.Returned (Some bs))).
Proof.
  unfold Choice.get_block_size_choice.
  destruct (match detected with
            | Some _ => Choice.show_message_box "Drive Alignment Detection" w
            | None => Some w
            end) as [w1|]; [|discriminate].
  destruct (Dialog.get_menu_choice _ _ _ _ _ _ _ fuel w1) as [[idx w2]|] eqn:E; [|discriminate].
  pose proof (get_menu_choice_range _ _ _ _ _ _ _ _ _ _ _ E) as R.
  intros H. exists w1, idx.
  destruct (Z.eqb_spec idx (-1)) as [-> | Hne].
  { injection H as <- <-. split; [reflexivity|]. split; [exact E|]. now left. }
  destruct R as [R | R]; [contradiction|].
  assert (Hlen : List.length (Choice.block_sizes detected)
                 = List.length (Choice.block_size_options detected))
    by (destruct detected; reflexivity).
  destruct (index_in_range (Choice.block_sizes detected) idx) as [bs [Hi Hnth]];
    [rewrite Hlen; exact R|].
  rewrite Hi in H. injection H as <- <-.
  split; [reflexivity|]. split; [exact E|]. right. split; [lia|].
  destruct detected as [rs|]; cbn [Choice.block_sizes Choice.block_size_options] in *.
  - assert (Hk : (Z.to_nat idx = 0 \/ Z.to_nat idx = 1 \/ Z.to_nat idx = 2
                  \/ Z.to_nat idx = 3 \/ Z.to_nat idx = 4)%nat) by (cbn in R; lia).
    destruct Hk as [Hk | [Hk | [Hk | [Hk | Hk]]]]; rewrite Hk in *; cbn in Hnth;
      injection Hnth as <-; eexists _, _;
      (split; [reflexivity | split; [reflexivity | split; [|reflexivity]]]);
      first [apply prefix_of_app | reflexivity].
  - assert (Hk : (Z.to_nat idx = 0 \/ Z.to_nat idx = 1 \/ Z.to_nat idx = 2
                  \/ Z.to_nat idx = 3)%nat) by (cbn in R; lia).
    destruct Hk as [Hk | [Hk | [Hk | Hk]]]; rewrite Hk in *; cbn in Hnth;
      injection Hnth as <-; eexists _, _;
      (split; [reflexivity | split; [reflexivity | split; reflexivity]]).
Qed.

Lemma X5_witness :
  exists w1 bs_idx,
    Choice.show_message_box "Drive Alignment Detection"
      (Dialog.mkWorld None [Dialog.key_event 32; Dialog.key_event 51] []) = Some w1
    /\ Dialog.get_menu_choice (fun _ m => m) (fun w => Some w) (fun w => Some w)
         ("Select Block Size for " ++ "Clone")
         (Choice.block_size_options (Some "128K")) 16 80 3 w1
       = Some (bs_idx,
               Dialog.mkWorld None []
                 ["Drive Alignment Detection"; "Select Block Size for Clone"])
    /\ ((bs_idx = -1 /\ Choice.Returned (Some "4K") = Choice.Returned None)
        \/ (0 <= bs_idx
            /\ exists label bs,
                 List.nth_error (Choice.block_size_options (Some "128K")) (Z.to_nat bs_idx)
                 = Some label
                 /\ List.nth_error (Choice.block_sizes (Some "128K")) (Z.to_nat bs_idx)
                    = Some bs
                 /\ String.prefix bs label = true
                 /\ Choice.Returned (Some "4K") = Choice.Returned (Some bs))).
Proof.
  exact (X5_block_size_matches_menu_line (fun _ m => m) (fun w => Some w) (fun w => Some w)
           16 80 "Clone" (Some "128K") 3
           (Dialog.mkWorld None [Dialog.key_event 32; Dialog.key_event 51] [])
           (Dialog.mkWorld None []
              ["Drive Alignment Detection"; "Select Block Size for Clone"])
           (Choice.Returned (Some "4K")) eq_refl).
Defined.

(** X6. [show_confirmation] answers with the first key that is one of
    [y Y] (true) or [n N Esc q Q] (false); every other key, Enter and
    mouse events included, is passed over, and the keys after the
    deciding one are left unread. *)
Theorem X6_confirmation_first_decisive_key (keys rest : list Z) (b : bool) :
  Choice.show_confirmation keys = Some (b, rest)
  <-> exists noise k,
        keys = (noise ++ k :: rest)%list
        /\ Forall (fun x => Choice.is_yes x = false /\ Choice.is_no x = false) noise
        /\ (Choice.is_yes k = true \/ Choice.is_no k = true)
        /\ b = Choice.is_yes k.
Proof.
  split.
  - induction keys as [|x keys IH]; [discriminate|].
    cbn [Choice.show_confirmation].
    destruct (x =? Curses.KEY_MOUSE) eqn:Em.
    + intros H. destruct (IH H) as [noise [k [-> [Hn [Hk Hb]]]]].
      exists (x :: noise), k. repeat split; try assumption.
      constructor; [|exact Hn]. apply Z.eqb_eq in Em. subst x. split; reflexivity.
    + destruct (Choice.is_yes x) eqn:Ey.
      * intros [= <- <-]. exists [], x. repeat split; auto.
      * destruct (Choice.is_no x) eqn:En.
        -- intros [= <- <-]. exists [], x. repeat split; auto.
        -- intros H. destruct (IH H) as [noise [k [-> [Hn [Hk Hb]]]]].
           exists (x :: noise), k. repeat split; try assumption.
           constructor; [now split | exact Hn].
  - intros [noise [k [-> [Hn [Hk ->]]]]].
    rewrite (show_confirmation_skips noise (k :: rest) Hn).
    cbn [Choice.show_confirmation]. rewrite (decisive_not_mouse k Hk).
    destruct (Choice.is_yes k); [reflexivity|].
    destruct Hk as [Hk | Hk]; [discriminate | now rewrite Hk].
Qed.

(** ** The text prompt: what the editing loop keeps and ignores *)

Section EditFacts.
Import Dialog Typing.

Lemma length_append (a b : string) :
  String.length (a ++ b) = (String.length a + String.length b)%nat.
Proof. induction a as [|c a IH]; cbn; [reflexivity | now rewrite IH]. Qed.

Lemma length_take (k : nat) (s : string) :
  String.length (Py.take k s) = Nat.min k (String.length s).
Proof.
  revert s. induction k as [|k IH]; intros [|c s]; cbn; try reflexivity.
  now rewrite IH.
Qed.

Lemma length_drop (k : nat) (s : string) :
  String.length (Py.drop k s) = (String.length s - k)%nat.
Proof.
  revert s. induction k as [|k IH]; intros [|c s]; cbn; try reflexivity.
  apply IH.
Qed.

Lemma take_drop (k : nat) (s : string) : Py.take k s ++ Py.drop k s = s.
Proof.
  revert s. induction k as [|k IH]; intros [|c s]; cbn; try reflexivity.
  now rewrite IH.
Qed.

Lemma take_app_exact (a b : string) : Py.take (String.length a) (a ++ b) = a.
Proof. induction a as [|c a IH]; cbn; [now destruct b | now rewrite IH]. Qed.

Lemma drop_app_exact (a b : string) : Py.drop (String.length a) (a ++ b) = b.
Proof. induction a as [|c a IH]; cbn; [reflexivity | exact IH]. Qed.

Lemma take_all (s : string) : Py.take (String.length s) s = s.
Proof. induction s as [|c s IH]; cbn; [reflexivity | now rewrite IH]. Qed.

Lemma drop_all (s : string) : Py.drop (String.length s) s = "".
Proof. induction s as [|c s IH]; cbn; [reflexivity | exact IH]. Qed.

Lemma chr_ord (c : ascii) : Py.chr (Curses.ord c) = c.
Proof.
  unfold Py.chr, Curses.ord. rewrite N2Z.id. apply ascii_N_embedding.
Qed.

(** Every editing key keeps the cursor inside the buffer and the buffer
    within [max_len] characters. *)
Lemma edit_key_ok (max_len key : Z) (st : EditState) :
  edit_ok max_len st -> edit_ok max_len (edit_key max_len key st).
Proof.
  unfold edit_ok, edit_key, Py.len. intros [Hc Hl].
  destruct st as [s c]; cbn [input_str cursor_pos] in *.
  split_ifs; cbn [input_str cursor_pos];
    rewrite ?length_append, ?length_take, ?length_drop; cbn [String.length];
    rewrite ?length_drop;
    repeat match goal with
           | H : (_ <? _)%nat = true |- _ => apply Nat.ltb_lt in H
           | H : (_ <? _)%nat = false |- _ => apply Nat.ltb_ge in H
           end;
    bool_hyps; unfold Py.len in *; split; lia.
Qed.

Lemma consume_escape_length (keys : list Z) :
  (List.length (consume_escape keys) <= List.length keys)%nat.
Proof.
  induction keys as [|k keys IH]; cbn; [lia|].
  split_ifs; cbn; lia.
Qed.

(** Fuel beyond the number of keys changes nothing. *)
Lemma input_loop_fuel (f1 : nat) :
  forall (f2 : nat) (max_len : Z) (st : EditState) (keys : list Z),
    (List.length keys <= f1)%nat -> (List.length keys <= f2)%nat ->
    input_loop f1 max_len st keys = input_loop f2 max_len st keys.
Proof.
  induction f1 as [|f1 IH]; intros f2 max_len st keys H1 H2.
  - destruct keys; [|cbn in H1; lia]. now destruct f2.
  - destruct keys as [|key rest]; [now destruct f2|].
    destruct f2 as [|f2]; [cbn in H2; lia|].
    cbn [List.length] in H1, H2. cbn [input_loop].
    pose proof (consume_escape_length (List.tl rest)) as Hce.
    assert (Htl : (List.length (List.tl rest) <= List.length rest)%nat)
      by (destruct rest; cbn; lia).
    split_ifs; try reflexivity; apply IH; lia.
Qed.

(** The loop leaves with a buffer of [max_len] characters at most. *)
Lemma input_loop_bound (fuel : nat) :
  forall (max_len : Z) (st : EditState) (keys : list Z) (s : string),
    edit_ok max_len st ->
    input_loop fuel max_len st keys = Some s ->
    Py.len s <= Z.max 0 max_len.
Proof.
  induction fuel as [|fuel IH]; intros max_len st keys s Hok; [discriminate|].
  destruct keys as [|key rest]; [discriminate|]. cbn [input_loop].
  split_ifs; try (now apply IH).
  - intros [= <-]. unfold Py.len; cbn. lia.
  - intros [= <-]. exact (proj2 Hok).
  - apply IH. now apply edit_key_ok.
Qed.

(** The inner loop stops after the final byte of the sequence. *)
Lemma consume_escape_sequence (params : list Z) (final : Z) (rest : list Z) :
  Forall is_param params -> 64 <= final <= 126 ->
  consume_escape (params ++ final :: rest) = rest.
Proof.
  intros Hp Hf. induction Hp as [|p params [Hp1 Hp2] _ IH]; cbn [app consume_escape].
  - replace (final =? -1) with false by lia.
    replace ((64 <=? final) && (final <=? 126)) with true; [reflexivity|].
    symmetry. apply andb_true_iff. split; lia.
  - replace (p =? -1) with false by lia.
    replace ((64 <=? p) && (p <=? 126)) with false; [exact IH|].
    symmetry. apply andb_false_iff. lia.
Qed.

Lemma input_loop_escape_sequence (fuel : nat) (max_len : Z) (st : EditState)
    (intro : Z) (params : list Z) (final : Z) (rest : list Z) :
  intro = 91 \/ intro = 79 ->
  Forall is_param params -> 64 <= final <= 126 ->
  (List.length (escape_sequence intro params final ++ rest) <= fuel)%nat ->
  input_loop fuel max_len st (escape_sequence intro params final ++ rest)
  = input_loop fuel max_len st rest.
Proof.
  intros Hi Hp Hf Hfuel. unfold escape_sequence in *.
  cbn [app List.length] in Hfuel. rewrite length_app, length_app in Hfuel.
  cbn [List.length] in Hfuel.
  destruct fuel as [|fuel]; [lia|].
  transitivity (input_loop fuel max_len st rest); [|apply input_loop_fuel; lia].
  cbn [app input_loop List.tl].
  change (27 =? Curses.KEY_MOUSE) with false. change (27 >? 255) with false.
  cbn [andb]. change (27 =? 27) with true. cbv iota.
  replace ((intro =? 91) || (intro =? 79)) with true
    by (destruct Hi as [-> | ->]; reflexivity).
  rewrite <- app_assoc. cbn [app].
  rewrite (consume_escape_sequence params final rest Hp Hf).
  reflexivity.
Qed.

(** Typing printable characters at the end of the buffer, with room left. *)
Lemma fold_edit_key_typed (max_len : Z) (s t : string) :
  Forall printable (keys_of s) ->
  Py.len (t ++ s) <= max_len ->
  List.fold_left (fun st k => edit_key max_len k st) (keys_of s)
                 (mkEdit t (String.length t))
  = mkEdit (t ++ s) (String.length (t ++ s)).
Proof.
  revert t. induction s as [|c s IH]; intros t Hp Hl; cbn [keys_of fold_left].
  - replace (t ++ "") with t; [reflexivity|].
    clear. induction t as [|c t IH]; cbn; [reflexivity | now rewrite <- IH].
  - inversion Hp as [|k ks Hk Hks]; subst.
    assert (Happ : t ++ String c s = (t ++ String c "") ++ s).
    { clear. induction t as [|x t IH]; cbn; [reflexivity | now rewrite IH]. }
    rewrite Happ in *.
    assert (Hstep : edit_key max_len (Curses.ord c) (mkEdit t (String.length t))
                    = mkEdit (t ++ String c "") (String.length (t ++ String c ""))).
    { unfold edit_key, printable in *. cbn [input_str cursor_pos].
      unfold key_in, Curses.KEY_BACKSPACE, Curses.KEY_DC, Curses.KEY_LEFT,
        Curses.KEY_RIGHT, Curses.KEY_HOME, Curses.KEY_END; cbn [existsb].
      replace (Curses.ord c =? 263) with false by lia.
      replace (Curses.ord c =? 127) with false by lia.
      replace (Curses.ord c =? 8) with false by lia.
      replace (Curses.ord c =? 330) with false by lia.
      replace (Curses.ord c =? 260) with false by lia.
      replace (Curses.ord c =? 261) with false by lia.
      replace (Curses.ord c =? 262) with false by lia.
      replace (Curses.ord c =? 360) with false by lia.
      cbn [orb].
      replace ((32 <=? Curses.ord c) && (Curses.ord c <=? 126)) with true
        by (symmetry; apply andb_true_iff; split; lia).
      unfold Py.len in *. rewrite !length_append in Hl. cbn [String.length] in Hl.
      replace (Z.of_nat (String.length t) <? max_len) with true by lia.
      rewrite take_all, drop_all, chr_ord, length_append. cbn [String.length].
      reflexivity. }
    rewrite Hstep. apply IH; assumption.
Qed.

End EditFacts.

(** X7. Typing a non-empty text made of printable characters that fits
    the field ([len(s) <= w - 28]) and pressing Enter makes
    [get_input_string] return exactly that text, whatever the default. *)
Theorem X7_typed_text_is_returned (scr_w : Z) (default_value s : string) :
  s <> "" ->
  Forall Dialog.printable (Typing.keys_of s) ->
  Py.len s <= scr_w - 28 ->
  Dialog.get_input_string scr_w default_value (Typing.keys_of s ++ [10]) = Some s.
Proof.
  intros Hne Hp Hl. unfold Dialog.get_input_string.
  rewrite length_app; cbn [List.length].
  rewrite (input_loop_typed (Typing.keys_of s) Hp 1).
  change Dialog.edit_init with (Dialog.mkEdit "" (String.length "")).
  rewrite (fold_edit_key_typed (scr_w - 20 - 8) s "" Hp) by (cbn [append]; lia).
  cbn [append]. rewrite (input_loop_enter 0 _ 10) by now left.
  cbn [Dialog.input_str].
  destruct (String.eqb_spec s "") as [E | _]; [contradiction | reflexivity].
Qed.

Lemma X7_witness :
  Dialog.get_input_string 80 "backup.img" (Typing.keys_of "sda_2024.img" ++ [10])
  = Some "sda_2024.img".
Proof.
  apply (X7_typed_text_is_returned 80 "backup.img" "sda_2024.img").
  - discriminate.
  - repeat (apply Forall_cons; [unfold Dialog.printable; cbn; lia|]). apply Forall_nil.
  - cbn; lia.
Defined.

(** X8. Whatever keys arrive, the text [get_input_string] returns is the
    pre-supplied default or has at most [max(0, w - 28)] characters: the
    field never overflows. *)
Theorem X8_input_never_longer_than_field
    (scr_w : Z) (default_value : string) (keys : list Z) (s : string) :
  Dialog.get_input_string scr_w default_value keys = Some s ->
  s = default_value \/ Py.len s <= Z.max 0 (scr_w - 28).
Proof.
  unfold Dialog.get_input_string.
  destruct (Dialog.input_loop _ _ _ keys) as [buf|] eqn:E; [|discriminate].
  apply input_loop_bound in E.
  - destruct (_ && _); intros [= <-]; [now left | right].
    replace (scr_w - 28) with (scr_w - 20 - 8) by lia. exact E.
  - unfold Typing.edit_ok, Dialog.edit_init, Py.len; cbn. lia.
Qed.

Lemma X8_witness :
  "abc" = "backup.img" \/ Py.len "abc" <= Z.max 0 (31 - 28).
Proof.
  exact (X8_input_never_longer_than_field 31 "backup.img"
           [97; 98; 99; 100; 101; 10] "abc" eq_refl).
Defined.

(** X9. An escape sequence (Esc, then [[] or [O], parameter bytes, a final
    byte in 64..126), as sent by arrow keys or mouse reports, is dropped
    whole: with it or without it after the printable text typed so far,
    [get_input_string] gives the same result. *)
Theorem X9_escape_sequences_are_ignored
    (scr_w : Z) (default_value : string) (typed : list Z)
    (intro : Z) (params : list Z) (final : Z) (rest : list Z) :
  Forall Dialog.printable typed ->
  intro = 91 \/ intro = 79 ->
  Forall Typing.is_param params -> 64 <= final <= 126 ->
  Dialog.get_input_string scr_w default_value
    (typed ++ Typing.escape_sequence intro params final ++ rest)
  = Dialog.get_input_string scr_w default_value (typed ++ rest).
Proof.
  intros Ht Hi Hp Hf. unfold Dialog.get_input_string.
  rewrite !length_app.
  rewrite (input_loop_typed typed Ht), (input_loop_typed typed Ht).
  rewrite <- length_app.
  rewrite (input_loop_escape_sequence _ _ _ intro params final rest Hi Hp Hf) by lia.
  rewrite (input_loop_fuel _ (List.length rest)); [reflexivity | | lia].
  rewrite length_app. lia.
Qed.

Lemma X9_witness :
  Dialog.get_input_string 80 ""
    ([100; 100] ++ Typing.escape_sequence 91 [60; 54; 52; 59; 49; 48; 59; 50; 48] 77
                ++ [105; 10])
  = Dialog.get_input_string 80 "" ([100; 100] ++ [105; 10]).
Proof.
  apply (X9_escape_sequences_are_ignored 80 "" [100; 100] 91
           [60; 54; 52; 59; 49; 48; 59; 50; 48] 77 [105; 10]).
  - repeat (apply Forall_cons; [unfold Dialog.printable; lia|]). apply Forall_nil.
  - now left.
  - repeat (apply Forall_cons; [unfold Typing.is_param; lia|]). apply Forall_nil.
  - lia.
Defined.

(** X10. Backspace undoes the insertion of a character: for a printable
    key typed with room left in the field and the cursor inside the
    buffer, the state after the key and a Backspace is the state before. *)
Theorem X10_backspace_undoes_typing
    (max_len key back : Z) (st : Dialog.EditState) :
  Dialog.printable key ->
  back = Curses.KEY_BACKSPACE \/ back = 127 \/ back = 8 ->
  (Dialog.cursor_pos st <= String.length (Dialog.input_str st))%nat ->
  Py.len (Dialog.input_str st) < max_len ->
  Dialog.edit_key max_len back (Dialog.edit_key max_len key st) = st.
Proof.
  unfold Dialog.printable. intros Hk Hb Hc Hl.
  destruct st as [s c]; cbn [Dialog.input_str Dialog.cursor_pos] in *.
  assert (Hins : Dialog.edit_key max_len key (Dialog.mkEdit s c)
                 = Dialog.mkEdit (Py.take c s ++ String (Py.chr key) (Py.drop c s)) (c + 1)).
  { unfold Dialog.edit_key. cbn [Dialog.input_str Dialog.cursor_pos].
    unfold Dialog.key_in, Curses.KEY_BACKSPACE, Curses.KEY_DC, Curses.KEY_LEFT,
      Curses.KEY_RIGHT, Curses.KEY_HOME, Curses.KEY_END; cbn [existsb].
    replace (key =? 263) with false by lia. replace (key =? 127) with false by lia.
    replace (key =? 8) with false by lia. replace (key =? 330) with false by lia.
    replace (key =? 260) with false by lia. replace (key =? 261) with false by lia.
    replace (key =? 262) with false by lia. replace (key =? 360) with false by lia.
    cbn [orb].
    replace ((32 <=? key) && (key <=? 126)) with true
      by (symmetry; apply andb_true_iff; split; lia).
    replace (Py.len s <? max_len) with true by lia. reflexivity. }
  rewrite Hins. unfold Dialog.edit_key. cbn [Dialog.input_str Dialog.cursor_pos].
  replace (Dialog.key_in back [Curses.KEY_BACKSPACE; 127; 8]) with true
    by (destruct Hb as [-> | [-> | ->]]; reflexivity).
  replace (0 <? c + 1)%nat with true by (symmetry; apply Nat.ltb_lt; lia).
  replace (c + 1 - 1)%nat with c by lia.
  assert (Hlen : String.length (Py.take c s) = c) by (rewrite length_take; lia).
  f_equal.
  rewrite <- Hlen at 1. rewrite take_app_exact.
  replace (c + 1)%nat with (String.length (Py.take c s ++ String (Py.chr key) ""))
    by (rewrite length_append; cbn; lia).
  replace (Py.take c s ++ String (Py.chr key) (Py.drop c s))
    with ((Py.take c s ++ String (Py.chr key) "") ++ Py.drop c s).
  - rewrite drop_app_exact. apply take_drop.
  - generalize (Py.take c s) as a. intros a.
    induction a as [|x a IH]; cbn; [reflexivity | now rewrite IH].
Qed.

Lemma X10_witness :
  Dialog.edit_key 52 127 (Dialog.edit_key 52 120 (Dialog.mkEdit "sda.img" 3))
  = Dialog.mkEdit "sda.img" 3.
Proof.
  apply (X10_backspace_undoes_typing 52 120 127 (Dialog.mkEdit "sda.img" 3)).
  - unfold Dialog.printable; lia.
  - right; now left.
  - cbn; lia.
  - cbn; lia.
Defined.

(** ** The monitored run as a whole *)

Section RunFacts.
Import Monitor Run.

(** A turn whose line has no byte count changes neither the ranges, nor
    the draws, nor the last byte count. *)
Lemma step_without_count_keeps (total : Z) (st : State) (t : Tick) :
  parse_bytes (tick_line t) = None ->
  error_ranges (step total st t) = error_ranges st
  /\ draws (step total st t) = draws st
  /\ last_bytes_copied (step total st t) = last_bytes_copied st.
Proof.
  intros P. rewrite (step_without_count _ _ _ P).
  destruct st as [m fd lb lep er sl pw bw rp dr].
  destruct (String.eqb (tick_line t) "");
    unfold on_key;
    destruct ((tick_key t =? Curses.ord "v") || (tick_key t =? Curses.ord "V"));
    fields; try (repeat split; reflexivity);
    unfold append_line; fields; unfold note_error;
    destruct (error_re_search (tick_line t)); fields; repeat split; reflexivity.
Qed.

(** A turn whose line has a byte count calls one renderer, once, with the
    sample of that count. *)
Lemma step_with_count_draws (total : Z) (st : State) (t : Tick) (bytes : Z) :
  parse_bytes (tick_line t) = Some bytes ->
  exists m fd rs,
    draws (step total st t)
    = (draws st ++ [mkDraw m (compute_sample total bytes (tick_elapsed t)) fd rs])%list.
Proof.
  intros P. rewrite (step_with_count _ _ _ _ P).
  generalize (compute_sample total bytes (tick_elapsed t)) as smp. intros smp.
  destruct st as [m fd lb lep er sl pw bw rp dr].
  unfold on_key;
    destruct ((tick_key t =? Curses.ord "v") || (tick_key t =? Curses.ord "V"));
    fields; unfold append_line; fields;
    unfold note_error; destruct (error_re_search (tick_line t)); fields;
    unfold close_error; fields;
    match goal with
    | |- context [if ?b then _ else _] => destruct b
    end; unfold draw_sample; fields; eexists _, _, _; reflexivity.
Qed.

Lemma step_error_ranges (total : Z) (st : State) (t : Tick) :
  exists added,
    error_ranges (step total st t) = (error_ranges st ++ added)%list
    /\ Forall (fun r => 0 < fst r /\ 0 <= snd r) added
    /\ (List.length added
        <= List.length (parsed_counts [t]))%nat.
Proof.
  unfold parsed_counts; cbn [flat_map]. rewrite app_nil_r.
  destruct (parse_bytes (tick_line t)) as [bytes|] eqn:P.
  - destruct (count_line_closes_pending total st t bytes P) as [E _].
    cbv zeta in E. rewrite E.
    match goal with
    | |- context [if ?b then _ else _] => destruct b eqn:Hp
    end.
    + eexists; split; [reflexivity|]. split; [|cbn; lia].
      constructor; [|constructor]. cbn [fst snd]. split.
      * rewrite Z.gtb_ltb in Hp. now apply Z.ltb_lt in Hp.
      * exact (parse_bytes_nonneg _ _ P).
    + exists []. rewrite app_nil_r. repeat split; [constructor | cbn; lia].
  - destruct (step_without_count_keeps total st t P) as [E _]. rewrite E.
    exists []. rewrite app_nil_r. repeat split; [constructor | cbn; lia].
Qed.

Lemma parsed_counts_cons (t : Tick) (ticks : list Tick) :
  parsed_counts (t :: ticks) = (parsed_counts [t] ++ parsed_counts ticks)%list.
Proof. unfold parsed_counts; cbn [flat_map]. now rewrite app_nil_r. Qed.

Lemma run_loop_error_ranges (total : Z) (ticks : list Tick) (st : State) :
  exists added,
    error_ranges (run_loop total st ticks) = (error_ranges st ++ added)%list
    /\ Forall (fun r => 0 < fst r /\ 0 <= snd r) added
    /\ (List.length added <= List.length (parsed_counts ticks))%nat.
Proof.
  unfold run_loop. revert st. induction ticks as [|t ticks IH]; intros st; cbn [fold_left].
  - exists []. rewrite app_nil_r. repeat split; [constructor | cbn; lia].
  - destruct (step_error_ranges total st t) as [a1 [E1 [F1 L1]]].
    destruct (IH (step total st t)) as [a2 [E2 [F2 L2]]].
    exists (a1 ++ a2)%list. rewrite E2, E1, app_assoc. split; [reflexivity|].
    split; [apply Forall_app; now split|].
    rewrite parsed_counts_cons, !length_app. lia.
Qed.

Lemma run_loop_draws (total : Z) (ticks : list Tick) (st : State) :
  let st' := run_loop total st ticks in
  List.map (fun d => bytes_copied (drawn_sample d)) (draws st')
  = (List.map (fun d => bytes_copied (drawn_sample d)) (draws st) ++ parsed_counts ticks)%list
  /\ (Forall (fun d => (0 <= percentage (drawn_sample d) <= 100)%Q) (draws st) ->
      Forall (fun d => (0 <= percentage (drawn_sample d) <= 100)%Q) (draws st')).
Proof.
  cbv zeta. unfold run_loop. revert st.
  induction ticks as [|t ticks IH]; intros st; cbn [fold_left].
  - split; [now rewrite app_nil_r | auto].
  - destruct (IH (step total st t)) as [E F]. rewrite E, parsed_counts_cons.
    unfold parsed_counts at 2; cbn [flat_map]. rewrite app_nil_r.
    destruct (parse_bytes (tick_line t)) as [bytes|] eqn:P.
    + destruct (step_with_count_draws total st t bytes P) as [m [fd [rs D]]].
      rewrite D. split.
      * rewrite map_app, <- app_assoc. reflexivity.
      * intros H. apply F. rewrite D. apply Forall_app. split; [exact H|].
        constructor; [|constructor]. cbn [drawn_sample percentage compute_sample].
        apply compute_percentage_range. exact (parse_bytes_nonneg _ _ P).
    + destruct (step_without_count_keeps total st t P) as [_ [D _]].
      rewrite D in *. split; [reflexivity | exact F].
Qed.

(** What a turn does to [first_draw]. *)
Lemma step_first_draw (total : Z) (st : State) (t : Tick) :
  first_draw (step total st t)
  = match parse_bytes (tick_line t) with
    | Some _ => false
    | None => if is_toggle (tick_key t) then true else first_draw st
    end.
Proof.
  unfold is_toggle.
  destruct (parse_bytes (tick_line t)) as [bytes|] eqn:P.
  - rewrite (step_with_count _ _ _ _ P).
    generalize (compute_sample total bytes (tick_elapsed t)) as smp. intros smp.
    destruct st as [m fd lb lep er sl pw bw rp dr].
    unfold on_key;
      destruct ((tick_key t =? Curses.ord "v") || (tick_key t =? Curses.ord "V"));
      fields; unfold append_line; fields;
      unfold note_error; destruct (error_re_search (tick_line t)); fields;
      unfold close_error; fields;
      match goal with
      | |- context [if ?b then _ else _] => destruct b
      end; unfold draw_sample; fields; reflexivity.
  - rewrite (step_without_count _ _ _ P).
    destruct st as [m fd lb lep er sl pw bw rp dr].
    destruct (String.eqb (tick_line t) "");
      unfold on_key;
      destruct ((tick_key t =? Curses.ord "v") || (tick_key t =? Curses.ord "V"));
      fields; try reflexivity;
      unfold append_line; fields; unfold note_error;
      destruct (error_re_search (tick_line t)); fields; reflexivity.
Qed.

Lemma step_win_inv (total : Z) (st : State) (t : Tick) :
  win_inv st -> win_inv (step total st t).
Proof.
  unfold win_inv.
  destruct (parse_bytes (tick_line t)) as [bytes|] eqn:P.
  - rewrite (step_with_count _ _ _ _ P).
    generalize (compute_sample total bytes (tick_elapsed t)) as smp. intros smp.
    destruct st as [m fd lb lep er sl pw bw rp dr]. fields. intros [-> ->].
    unfold on_key;
      destruct ((tick_key t =? Curses.ord "v") || (tick_key t =? Curses.ord "V"));
      fields; unfold append_line; fields;
      unfold note_error; destruct (error_re_search (tick_line t)); fields;
      unfold close_error; fields;
      match goal with
      | |- context [if ?b then _ else _] => destruct b
      end; unfold draw_sample; fields; destruct m, fd; split; reflexivity.
  - rewrite (step_without_count _ _ _ P).
    destruct st as [m fd lb lep er sl pw bw rp dr]. fields. intros [-> ->].
    destruct (String.eqb (tick_line t) "");
      unfold on_key;
      destruct ((tick_key t =? Curses.ord "v") || (tick_key t =? Curses.ord "V"));
      fields; try (destruct m, fd; split; reflexivity);
      unfold append_line; fields; unfold note_error;
      destruct (error_re_search (tick_line t)); fields;
      destruct m, fd; split; reflexivity.
Qed.

Lemma run_loop_win_inv (total : Z) (ticks : list Tick) (st : State) :
  win_inv st -> win_inv (run_loop total st ticks).
Proof.
  unfold run_loop. revert st. induction ticks as [|t ticks IH]; intros st H; cbn [fold_left].
  - exact H.
  - apply IH. now apply step_win_inv.
Qed.

Lemma result_shown_first_draw (st : State) :
  win_inv st -> result_shown st = negb (first_draw st).
Proof.
  unfold win_inv, result_shown. intros [Hp Hb].
  destruct (current_mode st); [rewrite Hp | rewrite Hb]; apply andb_true_r.
Qed.

Lemma drawn_after_cons (t : Tick) (ticks : list Tick) :
  drawn_after_last_toggle (t :: ticks)
  <-> drawn_after_last_toggle ticks
      \/ (parse_bytes (tick_line t) <> None
          /\ Forall (fun u => is_toggle (tick_key u) = false) ticks).
Proof.
  unfold drawn_after_last_toggle. split.
  - intros [pre [x [post [E [Hx Hpost]]]]]. destruct pre as [|p pre]; cbn in E.
    + injection E as <- <-. right. now split.
    + injection E as <- ->. left. now exists pre, x, post.
  - intros [[pre [x [post [-> [Hx Hpost]]]]] | [Ht Hpost]].
    + now exists (t :: pre), x, post.
    + now exists [], t, ticks.
Qed.

Lemma run_loop_first_draw (total : Z) (ticks : list Tick) (st : State) :
  first_draw (run_loop total st ticks) = false
  <-> drawn_after_last_toggle ticks
      \/ (first_draw st = false
          /\ Forall (fun u => is_toggle (tick_key u) = false) ticks).
Proof.
  unfold run_loop. revert st. induction ticks as [|t ticks IH]; intros st; cbn [fold_left].
  - split.
    + intros H. right. split; [exact H | constructor].
    + intros [[pre [x [post [E _]]]] | [H _]]; [now destruct pre | exact H].
  - rewrite IH, drawn_after_cons, step_first_draw.
    destruct (parse_bytes (tick_line t)) as [bytes|] eqn:P.
    + split.
      * intros [H | [_ H]]; [left; now left | left; right; split; [discriminate | exact H]].
      * intros [[H | [_ H]] | [_ H]]; [now left | right; now split |].
        right. inversion H; subst. now split.
    + destruct (is_toggle (tick_key t)) eqn:T.
      * split.
        -- intros [H | [H _]]; [left; now left | discriminate].
        -- intros [[H | [H _]] | [_ H]]; [now left | contradiction |].
           inversion H; subst. congruence.
      * split.
        -- intros [H | [H1 H2]]; [left; now left | right]. split; [exact H1|].
           now constructor.
        -- intros [[H | [H _]] | [H1 H2]]; [now left | contradiction | right].
           inversion H2; subst. now split.
Qed.

End RunFacts.

(** X11. Error ranges are only ever appended: after any turns the list is
    the old list followed by new ranges, every new range starts at a
    positive offset and ends at a parsed byte count, and there are no more
    new ranges than progress lines read. *)
Theorem X11_error_ranges_append_only
    (total_size_bytes : Z) (st : Monitor.State) (ticks : list Monitor.Tick) :
  exists added,
    Monitor.error_ranges (Monitor.run_loop total_size_bytes st ticks)
    = (Monitor.error_ranges st ++ added)%list
    /\ Forall (fun r => 0 < fst r /\ 0 <= snd r) added
    /\ (List.length added <= List.length (Run.parsed_counts ticks))%nat.
Proof. apply run_loop_error_ranges. Qed.


(** X13. The final success or failure screen is painted (and a key
    awaited) exactly when some progress line was drawn after the last
    press of the toggle key; a run without progress lines, or one toggled
    after its last progress line, ends without any result screen. *)
Theorem X13_result_screen_needs_a_draw_after_last_toggle
    (total_size_bytes : Z) (display_mode : Monitor.Mode) (ticks : list Monitor.Tick) :
  Monitor.result_shown
    (Monitor.run_loop total_size_bytes (Monitor.init_state display_mode) ticks) = true
  <-> Run.drawn_after_last_toggle ticks.
Proof.
  rewrite result_shown_first_draw
    by (apply run_loop_win_inv; unfold Run.win_inv; cbn; destruct display_mode; now split).
  rewrite negb_true_iff, run_loop_first_draw. split.
  - intros [H | [H _]]; [exact H | discriminate].
  - intros H. now left.
Qed.

(** ** Numbers: truncation and floor *)


Section NumberFacts.
Local Open Scope Q_scope.

Lemma Qnum_neg_iff (q : Q) : (Qnum q <? 0)%Z = true <-> q < 0.
Proof. rewrite Z.ltb_lt. unfold Qlt; cbn. lia. Qed.

Lemma Qnum_pos_iff (q : Q) : (0 <? Qnum q)%Z = true <-> 0 < q.
Proof. rewrite Z.ltb_lt. unfold Qlt; cbn. lia. Qed.

(** [int] of a number that is not negative is its floor. *)
Lemma int_of_floor (q : Q) : 0 <= q -> Py.int_of q = Qfloor q.
Proof.
  intros H. unfold Py.int_of. destruct q as [n d]; cbn [Qnum Qden Qfloor].
  apply Z.quot_div_nonneg; [|lia]. unfold Qle in H; cbn in H. lia.
Qed.

Lemma Qfloor_unique (q : Q) (z : Z) :
  inject_Z z <= q -> q < inject_Z (z + 1) -> Qfloor q = z.
Proof.
  intros Hlo Hhi. apply Z.le_antisymm.
  - assert (H : inject_Z (Qfloor q) < inject_Z (z + 1))
      by (eapply Qle_lt_trans; [apply Qfloor_le | exact Hhi]).
    rewrite <- Zlt_Qlt in H. lia.
  - rewrite <- (Qfloor_Z z). now apply Qfloor_resp_le.
Qed.

Lemma Qfloor_nonneg (q : Q) : 0 <= q -> (0 <= Qfloor q)%Z.
Proof. intros H. change 0%Z with (Qfloor 0). now apply Qfloor_resp_le. Qed.

Lemma Qfloor_lt_int (q : Q) (z : Z) : q < inject_Z z -> (Qfloor q < z)%Z.
Proof.
  intros H. rewrite Zlt_Qlt. eapply Qle_lt_trans; [apply Qfloor_le | exact H].
Qed.

Lemma Qfloor_ge_int (q : Q) (z : Z) : inject_Z z <= q -> (z <= Qfloor q)%Z.
Proof. intros H. rewrite <- (Qfloor_Z z). now apply Qfloor_resp_le. Qed.

(** The share of [n] cells that a percentage fills. *)
Lemma share_bounds (n : Z) (pct : Q) :
  (0 <= n)%Z -> 0 <= pct <= 100 ->
  0 <= inject_Z n * pct / 100 <= inject_Z n.
Proof.
  intros Hn Hp. assert (Hq : 0 <= inject_Z n) by (unfold Qle; cbn; lia).
  unfold Qdiv. change (/ 100) with (1 # 100). nra.
Qed.

Lemma share_full (n : Z) (pct : Q) :
  (0 <= n)%Z -> 100 <= pct -> inject_Z n <= inject_Z n * pct / 100.
Proof.
  intros Hn Hp. assert (Hq : 0 <= inject_Z n) by (unfold Qle; cbn; lia).
  unfold Qdiv. change (/ 100) with (1 # 100). nra.
Qed.

Lemma share_partial (n : Z) (pct : Q) :
  (0 < n)%Z -> pct < 100 -> inject_Z n * pct / 100 < inject_Z n.
Proof.
  intros Hn Hp. assert (Hq : 0 < inject_Z n) by (unfold Qlt; cbn; lia).
  unfold Qdiv. change (/ 100) with (1 # 100). nra.
Qed.

(** When the bytes copied reach the total the percentage is 100. *)
Lemma compute_percentage_complete (bytes total : Z) :
  (0 < total <= bytes)%Z -> 100 <= Monitor.compute_percentage bytes total.
Proof.
  intros H. rewrite (compute_percentage_full bytes total H). apply Qle_refl.
Qed.

End NumberFacts.

(** X14. For a percentage between 0 and 100 the progress bar is exactly
    [bar_width] glyphs wide, filled glyphs first; it is completely filled
    at 100 and only there. *)
Theorem X14_progress_bar_shape (scr_w : Z) (pct : Q) :
  (0 <= pct <= 100)%Q ->
  let bw := Widgets.bar_width scr_w in
  let fl := Widgets.filled_len scr_w pct in
  0 <= fl <= bw
  /\ Widgets.progress_bar scr_w pct
     = (List.repeat true (Z.to_nat fl) ++ List.repeat false (Z.to_nat (bw - fl)))%list
  /\ List.length (Widgets.progress_bar scr_w pct) = Z.to_nat bw
  /\ ((100 <= pct)%Q -> fl = bw)
  /\ ((pct < 100)%Q -> fl < bw).
Proof.
  intros Hp bw fl.
  assert (Hbw : 1 <= bw) by (subst bw; unfold Widgets.bar_width; lia).
  destruct (share_bounds bw pct ltac:(lia) Hp) as [Hlo Hhi].
  assert (Hfl : fl = Qfloor (inject_Z bw * pct / 100)%Q)
    by (subst fl; unfold Widgets.filled_len; now apply int_of_floor).
  assert (Hrange : 0 <= fl <= bw).
  { rewrite Hfl. split; [now apply Qfloor_nonneg|].
    rewrite <- (Qfloor_Z bw) at 2. now apply Qfloor_resp_le. }
  assert (Hbar : Widgets.progress_bar scr_w pct
                 = (List.repeat true (Z.to_nat fl)
                    ++ List.repeat false (Z.to_nat (bw - fl)))%list).
  { unfold Widgets.progress_bar. fold bw. fold fl.
    apply firstn_all2. rewrite length_app, !repeat_length. lia. }
  split; [exact Hrange|]. split; [exact Hbar|]. split; [|split].
  - rewrite Hbar, length_app, !repeat_length. lia.
  - intros H100. apply Z.le_antisymm; [lia|].
    rewrite Hfl. apply Qfloor_ge_int. apply share_full; [lia | exact H100].
  - intros Hlt. rewrite Hfl. apply Qfloor_lt_int. apply share_partial; [lia | exact Hlt].
Qed.

Lemma X14_witness :
  let bw := Widgets.bar_width 80 in
  let fl := Widgets.filled_len 80 25 in
  0 <= fl <= bw
  /\ Widgets.progress_bar 80 25
     = (List.repeat true (Z.to_nat fl) ++ List.repeat false (Z.to_nat (bw - fl)))%list
  /\ List.length (Widgets.progress_bar 80 25) = Z.to_nat bw
  /\ ((100 <= 25)%Q -> fl = bw)
  /\ ((25 < 100)%Q -> fl < bw).
Proof.
  apply (X14_progress_bar_shape 80 25). split; discriminate.
Defined.

(** X15. Once the bytes copied reach the total size, and with no error
    range recorded, every cell the block map writes is a completed cell:
    none is left pending or in progress. *)
Theorem X15_block_map_complete_at_total
    (map_width map_height total_size_bytes bytes : Z) (y x : Z) (g : Monitor.Glyph) :
  0 < total_size_bytes <= bytes ->
  In (y, x, g)
     (Monitor.draw_cells map_width map_height total_size_bytes
        (Monitor.compute_percentage bytes total_size_bytes) []) ->
  g = Monitor.GComplete.
Proof.
  intros Hb Hin. apply draw_cells_spec in Hin.
  destruct Hin as [row [col [Hrow [Hcol [_ [_ ->]]]]]].
  unfold Monitor.cell_glyph. cbn [Monitor.has_error existsb].
  set (tc := Monitor.total_chars map_width map_height).
  assert (Htc : 0 <= row * map_width + col < tc)
    by (subst tc; unfold Monitor.total_chars; nia).
  assert (Hfilled : tc <= Monitor.filled_chars map_width map_height
                            (Monitor.compute_percentage bytes total_size_bytes)).
  { unfold Monitor.filled_chars. fold tc.
    pose proof (share_full tc _ ltac:(lia) (compute_percentage_complete _ _ Hb)) as Hs.
    rewrite int_of_floor.
    - now apply Qfloor_ge_int.
    - eapply Qle_trans; [|exact Hs]. unfold Qle; cbn; lia. }
  replace (row * map_width + col <? _) with true by lia. reflexivity.
Qed.

Lemma X15_witness :
  0 < 1000 <= 1024
  /\ In (6, 5, Monitor.GComplete)
        (Monitor.draw_cells 4 2 1000 (Monitor.compute_percentage 1024 1000) [])
  /\ Monitor.GComplete = Monitor.GComplete.
Proof.
  assert (Hin : In (6, 5, Monitor.GComplete)
                   (Monitor.draw_cells 4 2 1000 (Monitor.compute_percentage 1024 1000) []))
    by (vm_compute; do 7 right; left; reflexivity).
  split; [lia|]. split; [exact Hin|].
  apply (X15_block_map_complete_at_total 4 2 1000 1024 6 5 Monitor.GComplete);
    [lia | exact Hin].
Defined.

(** ** Sizes and durations as text *)

Section FormatFacts.
Import Format.
Local Open Scope Q_scope.

Lemma Qle_bool_false (x y : Q) : Qle_bool x y = false -> y < x.
Proof.
  intros H. apply Qnot_le_lt. intros Hle. apply Qle_bool_iff in Hle. congruence.
Qed.

(** The two [divmod] of [format_time] on a duration of [f] whole seconds. *)
Lemma minutes_of_seconds (sec : Q) :
  0 <= sec -> Qfloor (sec / 60) = (Qfloor sec / 60)%Z.
Proof.
  intros Hs. apply Qfloor_unique.
  - apply Qle_shift_div_l; [reflexivity|].
    eapply Qle_trans; [|apply Qfloor_le].
    change 60 with (inject_Z 60). rewrite <- inject_Z_mult, <- Zle_Qle.
    pose proof (Z.mul_div_le (Qfloor sec) 60 ltac:(lia)). lia.
  - apply Qlt_shift_div_r; [reflexivity|].
    eapply Qlt_le_trans; [apply Qlt_floor|].
    change 60 with (inject_Z 60). rewrite <- inject_Z_mult, <- Zle_Qle.
    pose proof (Z.mul_succ_div_gt (Qfloor sec) 60 ltac:(lia)). lia.
Qed.

Lemma seconds_remainder (sec : Q) (m0 : Z) :
  0 <= sec -> m0 = (Qfloor sec / 60)%Z ->
  0 <= sec - inject_Z (60 * m0)
  /\ Qfloor (sec - inject_Z (60 * m0)) = (Qfloor sec mod 60)%Z.
Proof.
  intros Hs ->. set (f := Qfloor sec).
  assert (Hf : (60 * (f / 60) = f - f mod 60)%Z) by (pose proof (Z.div_mod f 60); lia).
  rewrite Hf.
  pose proof (Qfloor_le sec) as Hlo. pose proof (Qlt_floor sec) as Hhi. fold f in Hlo, Hhi.
  rewrite inject_Z_plus in Hhi. change (inject_Z 1) with 1 in Hhi.
  pose proof (Z.mod_pos_bound f 60 ltac:(lia)) as Hm.
  unfold Zminus. rewrite inject_Z_plus, inject_Z_opp.
  assert (Hm0 : 0 <= inject_Z (f mod 60)) by (unfold Qle; cbn; lia).
  split; [lra|].
  apply Qfloor_unique; rewrite ?inject_Z_plus; change (inject_Z 1) with 1; lra.
Qed.

End FormatFacts.

(** X16. For a duration that is not negative, [format_time] shows hours,
    minutes and seconds with minutes and seconds below 60, and the three
    fields add up to the whole seconds of the duration; a negative or
    missing duration is shown as [??:??:??]. *)
Theorem X16_format_time_fields (sec : Q) :
  (0 <= sec)%Q ->
  exists h m s,
    Format.format_time_fields (Some sec) = Some (h, m, s)
    /\ 0 <= h /\ 0 <= m < 60 /\ 0 <= s < 60
    /\ h * 3600 + m * 60 + s = Qfloor sec.
Proof.
  intros Hs. unfold Format.format_time_fields.
  assert (Hn : (Qnum sec <? 0) = false).
  { destruct (Qnum sec <? 0) eqn:E; [|reflexivity].
    apply Qnum_neg_iff in E. exfalso. exact (Qlt_not_le _ _ E Hs). }
  rewrite Hn, (minutes_of_seconds sec Hs).
  destruct (seconds_remainder sec (Qfloor sec / 60) Hs eq_refl) as [Hr0 Hr].
  rewrite (int_of_floor _ Hr0), Hr.
  pose proof (Qfloor_nonneg sec Hs) as Hf.
  set (f := Qfloor sec) in *.
  eexists _, _, _. split; [reflexivity|].
  pose proof (Z.div_mod f 60 ltac:(lia)).
  pose proof (Z.div_mod (f / 60) 60 ltac:(lia)).
  pose proof (Z.mod_pos_bound f 60 ltac:(lia)).
  pose proof (Z.mod_pos_bound (f / 60) 60 ltac:(lia)).
  assert (0 <= f / 60) by (apply Z.div_pos; lia).
  assert (0 <= f / 60 / 60) by (apply Z.div_pos; lia).
  repeat split; lia.
Qed.

Lemma X16_witness :
  exists h m s,
    Format.format_time_fields (Some (7384.5)%Q) = Some (h, m, s)
    /\ 0 <= h /\ 0 <= m < 60 /\ 0 <= s < 60
    /\ h * 3600 + m * 60 + s = Qfloor (7384.5)%Q.
Proof. apply (X16_format_time_fields (7384.5)%Q). discriminate. Defined.

(** The text for the durations quoted above, and for the undefined ETA. *)
Example format_time_examples :
  Format.format_time (Some (7384.5)%Q) = "02:03:04"
  /\ Format.format_time (Some 0%Q) = "00:00:00"
  /\ Format.format_time (Some (-1)%Q) = "??:??:??"
  /\ Format.format_time None = "??:??:??".
Proof. repeat split; vm_compute; reflexivity. Qed.

(** X17. The ETA is shown as unknown ([??:??:??]) exactly when no time has
    elapsed, nothing was copied yet, or more bytes were copied than the
    total size announced. *)
Theorem X17_eta_unknown_iff (total_size_bytes bytes : Z) (elapsed : Q) :
  Format.format_time_fields
    (Some (Monitor.compute_eta bytes total_size_bytes
             (Monitor.compute_speed bytes elapsed))) = None
  <-> ~ ((0 < elapsed)%Q /\ 0 < bytes /\ bytes <= total_size_bytes).
Proof.
  unfold Format.format_time_fields, Monitor.compute_eta, Monitor.compute_speed,
    Monitor.Qpositive.
  destruct (0 <? Qnum elapsed) eqn:Ee.
  - apply Qnum_pos_iff in Ee.
    destruct (0 <? Qnum (inject_Z bytes / elapsed)) eqn:Es.
    + apply Qnum_pos_iff in Es.
      assert (Hb : 0 < bytes).
      { rewrite Zlt_Qlt. apply Qnot_le_lt. intros Hle.
        assert (H0 : (inject_Z bytes / elapsed <= 0)%Q).
        { apply Qle_shift_div_r; [exact Ee|]. now rewrite Qmult_0_l. }
        exact (Qlt_not_le _ _ Es H0). }
      destruct (Qnum (inject_Z (total_size_bytes - bytes) / (inject_Z bytes / elapsed)) <? 0)
        eqn:En.
      * apply Qnum_neg_iff in En. split; [intros _|reflexivity].
        intros [_ [_ Hle]].
        assert (H0 : (0 <= inject_Z (total_size_bytes - bytes)
                           / (inject_Z bytes / elapsed))%Q).
        { apply Qle_shift_div_l; [exact Es|]. rewrite Qmult_0_l.
          change 0%Q with (inject_Z 0). rewrite <- Zle_Qle. lia. }
        exact (Qlt_not_le _ _ En H0).
      * split; [discriminate|]. intros Hnot. exfalso. apply Hnot.
        split; [exact Ee|]. split; [exact Hb|].
        apply Z.le_ngt. intros Hgt.
        assert (Hneg : (inject_Z (total_size_bytes - bytes)
                        / (inject_Z bytes / elapsed) < 0)%Q).
        { apply Qlt_shift_div_r; [exact Es|]. rewrite Qmult_0_l.
          change 0%Q with (inject_Z 0). rewrite <- Zlt_Qlt. lia. }
        apply Qnum_neg_iff in Hneg. congruence.
    + split; [intros _|reflexivity]. intros [_ [Hb _]].
      assert (Hpos : (0 < inject_Z bytes / elapsed)%Q).
      { apply Qlt_shift_div_l; [exact Ee|]. rewrite Qmult_0_l.
        change 0%Q with (inject_Z 0). now rewrite <- Zlt_Qlt. }
      apply Qnum_pos_iff in Hpos. congruence.
  - split; [intros _|reflexivity]. intros [He _].
    apply Qnum_pos_iff in He. congruence.
Qed.

(** The unit [format_bytes] picks for a positive size, and the sizes for
    which the label is missing. *)
Lemma format_bytes_cases (b : Q) :
  (0 < b)%Q ->
  ((1125899906842624 <= b)%Q ->
   Format.format_bytes (Some b) = Choice.Raised "KeyError")
  /\ ((b < 1125899906842624)%Q ->
      exists v n label,
        Format.format_bytes (Some b) = Choice.Returned (Format.Scaled v label)
        /\ Format.power_labels n = Some label
        /\ (v * inject_Z (1024 ^ n) == b)%Q
        /\ (v < 1024)%Q
        /\ ((b < 1024)%Q -> n = 0)
        /\ ((1024 <= b)%Q -> (1 <= v)%Q)).
Proof.
  intros Hb. unfold Format.format_bytes.
  assert (Hn : (Qnum b <? 0) = false).
  { destruct (Qnum b <? 0) eqn:E; [|reflexivity].
    apply Qnum_neg_iff in E. exfalso. exact (Qlt_irrefl _ (Qlt_trans _ _ _ Hb E)). }
  assert (Hz : (Qnum b =? 0) = false).
  { destruct (Qnum b =? 0) eqn:E; [|reflexivity].
    apply Z.eqb_eq in E. unfold Qlt in Hb; cbn in Hb. lia. }
  rewrite Hn, Hz. cbn [Format.scale_loop].
  change (0 <? 5) with true. change (0 + 1 <? 5) with true.
  change (0 + 1 + 1 <? 5) with true. change (0 + 1 + 1 + 1 <? 5) with true.
  change (0 + 1 + 1 + 1 + 1 <? 5) with true. rewrite !andb_true_r.
  destruct (Qle_bool 1024 b) eqn:E1;
    [apply Qle_bool_iff in E1
    |apply Qle_bool_false in E1; split; [intros; exfalso; lra|]; intros _;
     exists b, 0, "B"; repeat split; try reflexivity; try lra;
     change (inject_Z (1024 ^ 0)) with 1%Q; lra].
  destruct (Qle_bool 1024 (b / 1024)) eqn:E2;
    [apply Qle_bool_iff in E2
    |apply Qle_bool_false in E2; unfold Qdiv in *; change (/ 1024)%Q with (1 # 1024)%Q in *;
     split; [intros; exfalso; lra|]; intros _;
     exists (b * (1 # 1024))%Q, 1, "KiB"; repeat split; try reflexivity; try lra;
     change (inject_Z (1024 ^ 1)) with 1024%Q; lra].
  destruct (Qle_bool 1024 (b / 1024 / 1024)) eqn:E3;
    [apply Qle_bool_iff in E3
    |apply Qle_bool_false in E3; unfold Qdiv in *; change (/ 1024)%Q with (1 # 1024)%Q in *;
     split; [intros; exfalso; lra|]; intros _;
     exists (b * (1 # 1024) * (1 # 1024))%Q, 2, "MiB";
     repeat split; try reflexivity; try lra;
     change (inject_Z (1024 ^ 2)) with 1048576%Q; lra].
  destruct (Qle_bool 1024 (b / 1024 / 1024 / 1024)) eqn:E4;
    [apply Qle_bool_iff in E4
    |apply Qle_bool_false in E4; unfold Qdiv in *; change (/ 1024)%Q with (1 # 1024)%Q in *;
     split; [intros; exfalso; lra|]; intros _;
     exists (b * (1 # 1024) * (1 # 1024) * (1 # 1024))%Q, 3, "GiB";
     repeat split; try reflexivity; try lra;
     change (inject_Z (1024 ^ 3)) with 1073741824%Q; lra].
  destruct (Qle_bool 1024 (b / 1024 / 1024 / 1024 / 1024)) eqn:E5;
    [apply Qle_bool_iff in E5
    |apply Qle_bool_false in E5; unfold Qdiv in *; change (/ 1024)%Q with (1 # 1024)%Q in *;
     split; [intros; exfalso; lra|]; intros _;
     exists (b * (1 # 1024) * (1 # 1024) * (1 # 1024) * (1 # 1024))%Q, 4, "TiB";
     repeat split; try reflexivity; try lra;
     change (inject_Z (1024 ^ 4)) with 1099511627776%Q; lra].
  cbn. unfold Qdiv in *. change (/ 1024)%Q with (1 # 1024)%Q in *.
  split; [reflexivity | intros; exfalso; lra].
Qed.

(** X18. For a positive size below 1024^5 bytes (1 PiB) [format_bytes]
    picks the unit [B], [KiB], [MiB], [GiB] or [TiB] so that the number
    shown, times the unit, is the size, and the number is below 1024 (and
    at least 1 from [KiB] on); from 1 PiB on the loop runs one unit too
    far and the lookup of the label raises [KeyError]. *)
Theorem X18_format_bytes_units (b : Q) :
  (0 < b)%Q ->
  ((1125899906842624 <= b)%Q ->
   Format.format_bytes (Some b) = Choice.Raised "KeyError")
  /\ ((b < 1125899906842624)%Q ->
      exists v n label,
        Format.format_bytes (Some b) = Choice.Returned (Format.Scaled v label)
        /\ Format.power_labels n = Some label
        /\ (v * inject_Z (1024 ^ n) == b)%Q
        /\ (v < 1024)%Q
        /\ ((b < 1024)%Q -> n = 0)
        /\ ((1024 <= b)%Q -> (1 <= v)%Q)).
Proof. exact (format_bytes_cases b). Qed.

Lemma X18_witness :
  ((1125899906842624 <= 1610612736)%Q ->
   Format.format_bytes (Some 1610612736%Q) = Choice.Raised "KeyError")
  /\ ((1610612736 < 1125899906842624)%Q ->
      exists v n label,
        Format.format_bytes (Some 1610612736%Q)
        = Choice.Returned (Format.Scaled v label)
        /\ Format.power_labels n = Some label
        /\ (v * inject_Z (1024 ^ n) == 1610612736)%Q
        /\ (v < 1024)%Q
        /\ ((1610612736 < 1024)%Q -> n = 0)
        /\ ((1024 <= 1610612736)%Q -> (1 <= v)%Q)).
Proof. apply (X18_format_bytes_units 1610612736%Q). reflexivity. Defined.

(** A disk of 1.5 GiB, and one of 2 PiB. *)
Example format_bytes_examples :
  (exists v, Format.format_bytes (Some 1610612736%Q)
             = Choice.Returned (Format.Scaled v "GiB") /\ (v == 1.5)%Q)
  /\ Format.format_bytes (Some 2251799813685248%Q) = Choice.Raised "KeyError"
  /\ Format.format_bytes (Some 0%Q) = Choice.Returned Format.ZeroBytes
  /\ Format.format_bytes (Some (-1)%Q) = Choice.Returned Format.NotAvailable
  /\ Format.format_bytes None = Choice.Returned Format.NotAvailable.
Proof.
  split; [eexists; split; [vm_compute; reflexivity | reflexivity]|].
  repeat split; vm_compute; reflexivity.
Qed.

(** ** Columns and rows *)

Section LayoutFacts.

Lemma length_repeat_char (c : ascii) (n : nat) :
  String.length (PyMore.repeat_char c n) = n.
Proof. induction n as [|n IH]; cbn; [reflexivity | now rewrite IH]. Qed.

Lemma append_empty_r (s : string) : s ++ "" = s.
Proof. induction s as [|c s IH]; cbn; [reflexivity | now rewrite IH]. Qed.

Lemma len_slice_to (k : Z) (s : string) :
  0 <= k -> Py.len (PyMore.slice_to k s) = Z.min k (Py.len s).
Proof.
  intros Hk. unfold PyMore.slice_to, Py.len. replace (k <? 0) with false by lia.
  rewrite length_take. lia.
Qed.

Lemma enumerate_from_length {A : Type} (l : list A) (i : Z) :
  List.length (PyMore.enumerate_from i l) = List.length l.
Proof. revert i. induction l as [|x l IH]; intros i; cbn; [reflexivity | now rewrite IH]. Qed.

Lemma enumerate_from_in {A : Type} (l : list A) (i j : Z) (x : A) :
  In (j, x) (PyMore.enumerate_from i l) ->
  i <= j < i + Z.of_nat (List.length l).
Proof.
  revert i. induction l as [|y l IH]; intros i; cbn [PyMore.enumerate_from In List.length].
  - contradiction.
  - intros [[= <- <-] | H]; [lia|]. apply IH in H. lia.
Qed.

Lemma enumerate_from_snd {A B : Type} (f : A -> B) (l : list A) (i : Z) :
  List.map snd (List.map (fun '(j, x) => (j, f x)) (PyMore.enumerate_from i l))
  = List.map f l.
Proof. revert i. induction l as [|x l IH]; intros i; cbn; [reflexivity | now rewrite IH]. Qed.

End LayoutFacts.

(** X19. In the file browser the name column is always exactly
    [max_width - 30] characters wide (for [max_width >= 33]): a name that
    fits is padded with spaces, a longer one is cut to [max_width - 33]
    characters followed by three dots. *)
Theorem X19_name_column_width (name : string) (max_width : Z) :
  33 <= max_width ->
  let max_name_len := max_width - 30 in
  Py.len (Format.name_column name max_width) = max_name_len
  /\ (Py.len name <= max_name_len ->
      Format.name_column name max_width
      = name ++ PyMore.repeat_char " " (Z.to_nat (max_name_len - Py.len name)))
  /\ (max_name_len < Py.len name ->
      Format.name_column name max_width
      = Py.take (Z.to_nat (max_name_len - 3)) name ++ "...").
Proof.
  intros Hw mnl. unfold Format.name_column. fold mnl.
  assert (Hcut : Py.len (PyMore.slice_to (mnl - 3) name ++ "...")
                 = Z.min (mnl - 3) (Py.len name) + 3).
  { unfold Py.len at 1. rewrite length_append. cbn [String.length].
    pose proof (len_slice_to (mnl - 3) name ltac:(subst mnl; lia)) as H.
    unfold Py.len in H at 1. lia. }
  destruct (Py.len name >? mnl) eqn:E; rewrite Z.gtb_ltb in E.
  - apply Z.ltb_lt in E. unfold PyMore.ljust. rewrite Hcut.
    replace (Z.to_nat (mnl - (Z.min (mnl - 3) (Py.len name) + 3))) with 0%nat by lia.
    cbn [PyMore.repeat_char]. rewrite append_empty_r.
    split; [rewrite Hcut; lia|]. split; [lia|]. intros _.
    unfold PyMore.slice_to. replace (mnl - 3 <? 0) with false by (subst mnl; lia).
    reflexivity.
  - apply Z.ltb_ge in E. unfold PyMore.ljust. split; [|split; [reflexivity | lia]].
    unfold Py.len. rewrite length_append, length_repeat_char.
    unfold Py.len in E. lia.
Qed.

Lemma X19_witness :
  let max_name_len := 70 - 30 in
  Py.len (Format.name_column "debian-12.5.0-amd64-netinst-backup-of-sda.img.gz" 70)
  = max_name_len
  /\ (Py.len "debian-12.5.0-amd64-netinst-backup-of-sda.img.gz" <= max_name_len ->
      Format.name_column "debian-12.5.0-amd64-netinst-backup-of-sda.img.gz" 70
      = "debian-12.5.0-amd64-netinst-backup-of-sda.img.gz"
        ++ PyMore.repeat_char " "
             (Z.to_nat (max_name_len
                        - Py.len "debian-12.5.0-amd64-netinst-backup-of-sda.img.gz")))
  /\ (max_name_len < Py.len "debian-12.5.0-amd64-netinst-backup-of-sda.img.gz" ->
      Format.name_column "debian-12.5.0-amd64-netinst-backup-of-sda.img.gz" 70
      = Py.take (Z.to_nat (max_name_len - 3))
          "debian-12.5.0-amd64-netinst-backup-of-sda.img.gz" ++ "...").
Proof.
  apply (X19_name_column_width "debian-12.5.0-amd64-netinst-backup-of-sda.img.gz" 70). lia.
Defined.

(** X20. When a record is logged, the redraw of the log pad (of [h >= 1]
    rows and [w >= 1] columns) writes the last [h - 1] messages, or all of
    them if there are fewer, on rows 0, 1, ... below [h - 1], each cut to
    [w - 1] characters: it never writes outside the pad. *)
Theorem X20_log_pad_redraw_stays_inside (h w : Z) (log_messages : list string) :
  1 <= h -> 1 <= w ->
  let rows := Widgets.emit_rows h w log_messages in
  List.length rows
  = Z.to_nat (Z.min (Z.of_nat (List.length log_messages)) (h - 1))
  /\ (forall i txt, In (i, txt) rows -> 0 <= i < h - 1 /\ Py.len txt <= w - 1)
  /\ List.map snd rows
     = List.map (Py.take (Z.to_nat (w - 1)))
         (List.skipn (List.length log_messages - Z.to_nat (h - 1)) log_messages).
Proof.
  intros Hh Hw rows. subst rows. unfold Widgets.emit_rows, PyMore.enumerate, PyMore.list_from.
  set (n := List.length log_messages).
  set (start := Z.to_nat (Z.max 0 (Z.of_nat n - (h - 1)))).
  assert (Hstart : start = (n - Z.to_nat (h - 1))%nat) by (subst start; lia).
  split; [|split].
  - rewrite length_map, enumerate_from_length, length_skipn. fold n. lia.
  - intros i txt Hin. apply in_map_iff in Hin. destruct Hin as [[j line] [[= <- <-] Hin]].
    apply enumerate_from_in in Hin. rewrite length_skipn in Hin. fold n in Hin.
    split; [lia|]. rewrite len_slice_to by lia. lia.
  - rewrite Hstart.
    rewrite (enumerate_from_snd (PyMore.slice_to (w - 1))).
    apply map_ext. intros s. unfold PyMore.slice_to.
    replace (w - 1 <? 0) with false by lia. reflexivity.
Qed.

Lemma X20_witness :
  let rows := Widgets.emit_rows 3 6 ["first line"; "second"; "third line"] in
  List.length rows
  = Z.to_nat (Z.min (Z.of_nat (List.length ["first line"; "second"; "third line"])) (3 - 1))
  /\ (forall i txt, In (i, txt) rows -> 0 <= i < 3 - 1 /\ Py.len txt <= 6 - 1)
  /\ List.map snd rows
     = List.map (Py.take (Z.to_nat (6 - 1)))
         (List.skipn (List.length ["first line"; "second"; "third line"] - Z.to_nat (3 - 1))
                     ["first line"; "second"; "third line"]).
Proof.
  apply (X20_log_pad_redraw_stays_inside 3 6 ["first line"; "second"; "third line"]); lia.
Defined.

(** X21. The block size recommended for a device is always positive.
    With [opt] the optimal I/O size reported ([blockdev]'s value, or
    [fdisk]'s when [blockdev] gives none or 0): if [opt] lies between 1
    byte and 1 MiB the recommendation is [opt]; otherwise it is the
    physical block size when that is above 64 KiB, and 64 KiB in every
    other case.  The text shown for it is a whole number of bytes, KiB or
    MiB that rounds the size down, never up. *)
Theorem X21_recommended_block_size
    (opt_size fdisk_opt_size phys_size log_size : option Z) :
  let opt := Devices.value (Devices.effective_opt opt_size fdisk_opt_size) in
  let r := Devices.recommended opt_size fdisk_opt_size phys_size log_size in
  let q := fst (Devices.recommended_parts r) in
  let u := snd (Devices.recommended_parts r) in
  opt = (if Devices.value opt_size =? 0
         then Devices.value fdisk_opt_size else Devices.value opt_size)
  /\ 0 < r
  /\ (1 <= opt <= 1048576 -> r = opt)
  /\ (~ (1 <= opt <= 1048576) -> r = Z.max 65536 (Devices.value phys_size))
  /\ 1 <= q /\ q * u <= r < (q + 1) * u
  /\ Devices.recommended_str r
     = Py.str_of_int q
       ++ (if u =? 1048576 then "M" else if u =? 1024 then "K" else "").
Proof.
  cbv zeta.
  set (opt := Devices.value (Devices.effective_opt opt_size fdisk_opt_size)).
  set (r := Devices.recommended opt_size fdisk_opt_size phys_size log_size).
  assert (Hopt : opt = (if Devices.value opt_size =? 0
                        then Devices.value fdisk_opt_size else Devices.value opt_size)).
  { subst opt. unfold Devices.effective_opt, Devices.truthy, Devices.value.
    destruct opt_size as [o|]; destruct fdisk_opt_size as [f|]; cbn [negb orb andb];
      try destruct (Z.eqb_spec o 0); try destruct (Z.eqb_spec f 0);
      subst; cbn [negb orb andb]; try reflexivity; try lia. }
  assert (Hin : 1 <= opt <= 1048576 -> r = opt).
  { subst r opt. unfold Devices.recommended.
    set (e := Devices.effective_opt opt_size fdisk_opt_size).
    intros H. destruct e as [v|]; unfold Devices.truthy, Devices.value in *.
    - replace (negb (v =? 0) && (v >? 0) && (v <=? 1048576)) with true by lia. reflexivity.
    - lia. }
  assert (Hout : ~ (1 <= opt <= 1048576) -> r = Z.max 65536 (Devices.value phys_size)).
  { subst r opt. unfold Devices.recommended.
    set (e := Devices.effective_opt opt_size fdisk_opt_size).
    intros H.
    replace (Devices.truthy e && (Devices.value e >? 0) && (Devices.value e <=? 1048576))
      with false
      by (destruct e as [v|]; unfold Devices.truthy, Devices.value in *; lia).
    destruct phys_size as [p|]; unfold Devices.truthy, Devices.value;
      split_ifs; bool_hyps; lia. }
  assert (Hpos : 0 < r).
  { destruct (Z_le_dec 1 opt) as [H1|H1]; [destruct (Z_le_dec opt 1048576) as [H2|H2]|].
    - rewrite Hin by lia. lia.
    - rewrite Hout by lia. lia.
    - rewrite Hout by lia. lia. }
  split; [exact Hopt|]. split; [exact Hpos|]. split; [exact Hin|]. split; [exact Hout|].
  unfold Devices.recommended_parts, Devices.recommended_str.
  destruct (r >=? 1048576) eqn:E1; rewrite Z.geb_leb in E1.
  - apply Z.leb_le in E1. cbn [fst snd]. change (1048576 =? 1048576) with true.
    pose proof (Z.div_mod r 1048576 ltac:(lia)).
    pose proof (Z.mod_pos_bound r 1048576 ltac:(lia)).
    assert (1 <= r / 1048576) by (apply Z.div_le_lower_bound; lia).
    repeat split; try lia.
  - apply Z.leb_gt in E1. destruct (r >=? 1024) eqn:E2; rewrite Z.geb_leb in E2.
    + apply Z.leb_le in E2. cbn [fst snd].
      change (1024 =? 1048576) with false. change (1024 =? 1024) with true.
      pose proof (Z.div_mod r 1024 ltac:(lia)).
      pose proof (Z.mod_pos_bound r 1024 ltac:(lia)).
      assert (1 <= r / 1024) by (apply Z.div_le_lower_bound; lia).
      repeat split; try lia.
    + cbn [fst snd]. change (1 =? 1048576) with false. change (1 =? 1024) with false.
      rewrite append_empty_r. repeat split; lia.
Qed.

Lemma X21_witness :
  Devices.recommended (Some 0) (Some 1536) (Some 4096) (Some 512)
  = Devices.value (Devices.effective_opt (Some 0) (Some 1536))
  /\ Devices.recommended None None (Some 2097152) (Some 4096)
     = Z.max 65536 (Devices.value (Some 2097152)).
Proof.
  split.
  - apply (X21_recommended_block_size (Some 0) (Some 1536) (Some 4096) (Some 512)).
    vm_compute. split; discriminate.
  - apply (X21_recommended_block_size None None (Some 2097152) (Some 4096)).
    vm_compute. intros [H _]. now apply H.
Defined.

(** A 4K-sector drive that reports no optimal I/O size, one that reports
    1536 bytes, and one with 2 MiB physical blocks. *)
Example recommended_block_size_examples :
  Devices.recommended_str (Devices.recommended (Some 0) None (Some 4096) (Some 512)) = "64K"
  /\ Devices.recommended (Some 0) (Some 1536) (Some 4096) (Some 512) = 1536
  /\ Devices.recommended_str 1536 = "1K"
  /\ Devices.recommended_str (Devices.recommended None None (Some 2097152) (Some 4096)) = "2M".
Proof. repeat split; vm_compute; reflexivity. Qed.

(** ** The mount check *)

Section MountFacts.

Lemma all_space_app (a b : string) :
  Py.all_space a = true -> Py.all_space b = true -> Py.all_space (a ++ b) = true.
Proof.
  induction a as [|c a IH]; cbn [append Py.all_space]; [auto|].
  intros H Hb. apply andb_prop in H as [Hc Ha]. rewrite Hc. cbn [andb]. now apply IH.
Qed.

Lemma strip_empty_all_space (s : string) :
  Py.strip s = "" -> Py.all_space s = true.
Proof.
  unfold Py.strip. intros H.
  destruct (lstrip_decompose s) as [l [Hl Hsl]].
  destruct (rstrip_decompose (Py.lstrip s)) as [r [Hr Hsr]].
  rewrite H in Hr. cbn [append] in Hr. rewrite Hr in Hl. rewrite Hl.
  now apply all_space_app.
Qed.

Lemma split_ws_aux_all_space (cur s : string) :
  Py.all_space s = true ->
  PyMore.split_ws_aux cur s = if String.eqb cur "" then [] else [cur].
Proof.
  revert cur. induction s as [|c s IH]; intros cur; cbn [Py.all_space PyMore.split_ws_aux].
  - reflexivity.
  - intros H. apply andb_prop in H as [Hc Hs]. rewrite Hc.
    rewrite (IH "" Hs). cbn [String.eqb]. reflexivity.
Qed.

Lemma blank_line_has_no_field (line : string) :
  Py.strip line = "" -> PyMore.split_ws line = [].
Proof.
  intros H. unfold PyMore.split_ws.
  now rewrite split_ws_aux_all_space by now apply strip_empty_all_space.
Qed.

Lemma prefix_refl (s : string) : String.prefix s s = true.
Proof. apply prefix_app. exists "". now rewrite append_empty_r. Qed.

Lemma starts_with_absorbs_equal (device mounted_device : string) :
  String.eqb mounted_device device || String.prefix device mounted_device
  = String.prefix device mounted_device.
Proof.
  destruct (String.eqb mounted_device device) eqn:E; [|reflexivity].
  apply String.eqb_eq in E. subst. now rewrite prefix_refl.
Qed.

Lemma first_mount_spec (device : string) (lines : list string) :
  (fst (Devices.first_mount device lines) = true <->
   exists line mounted_device mount_point more,
     In line lines
     /\ PyMore.split_ws line = mounted_device :: mount_point :: more
     /\ String.prefix device mounted_device = true)
  /\ (fst (Devices.first_mount device lines) = true <->
      snd (Devices.first_mount device lines) <> None).
Proof.
  induction lines as [|l rest [IH1 IH2]]; cbn [Devices.first_mount].
  - split; split; cbn; try discriminate; try congruence.
    intros (line & _ & _ & _ & [] & _).
  - assert (Skip :
               (forall d p m, PyMore.split_ws l = d :: p :: m ->
                              String.prefix device d = false) ->
               (fst (Devices.first_mount device rest) = true <->
                exists line mounted_device mount_point more,
                  In line (l :: rest)
                  /\ PyMore.split_ws line = mounted_device :: mount_point :: more
                  /\ String.prefix device mounted_device = true)).
    { intros Hno. rewrite IH1. split.
      - intros (line & d & p & m & Hin & Hs & Hp).
        exists line, d, p, m. split; [now right | now split].
      - intros (line & d & p & m & [<- | Hin] & Hs & Hp).
        + rewrite (Hno _ _ _ Hs) in Hp. discriminate.
        + exists line, d, p, m. now repeat split. }
    destruct (String.eqb (Py.strip l) "") eqn:Eb.
    { apply String.eqb_eq in Eb. apply blank_line_has_no_field in Eb.
      split; [|exact IH2]. apply Skip. intros d p m Hs. congruence. }
    destruct (PyMore.split_ws l) as [|d [|p m]] eqn:Es.
    { split; [|exact IH2]. apply Skip. intros; discriminate. }
    { split; [|exact IH2]. apply Skip. intros; discriminate. }
    rewrite starts_with_absorbs_equal.
    destruct (String.prefix device d) eqn:Ep.
    + cbn [fst snd]. split; split; try reflexivity; try discriminate.
      intros _. exists l, d, p, m. split; [now left | now split].
    + split; [|exact IH2]. apply Skip. intros d' p' m' [= <- <- <-]. exact Ep.
Qed.

End MountFacts.

(** X22. [is_device_mounted] answers true exactly when some line of
    [/proc/mounts] has two fields at least and a device field that starts
    with the device name (so [/dev/sda] is reported mounted when only
    [/dev/sda1], or another disk such as [/dev/sdab], is), and it reports
    a mount point exactly when it answers true. *)
Theorem X22_mounted_iff_some_device_field_starts_with (mounts device : string) :
  (fst (Devices.is_device_mounted mounts device) = true <->
   exists line mounted_device mount_point more,
     In line (Py.split_lf mounts)
     /\ PyMore.split_ws line = mounted_device :: mount_point :: more
     /\ String.prefix device mounted_device = true)
  /\ (fst (Devices.is_device_mounted mounts device) = true <->
      snd (Devices.is_device_mounted mounts device) <> None).
Proof. unfold Devices.is_device_mounted. apply first_mount_spec. Qed.

Example is_device_mounted_examples :
  let LF := String "010" "" in
  let mounts :=
    "proc /proc proc rw 0 0" ++ LF ++ LF
    ++ "/dev/sdab1 /mnt/data ext4 rw 0 0" ++ LF
    ++ "/dev/nvme0n1p2 / ext4 rw 0 0" ++ LF in
  Devices.is_device_mounted mounts "/dev/sda" = (true, Some "/mnt/data")
  /\ Devices.is_device_mounted mounts "/dev/nvme0n1" = (true, Some "/")
  /\ Devices.is_device_mounted mounts "/dev/sdb" = (false, None).
Proof. repeat split; vm_compute; reflexivity. Qed.

(** ** The free-space check and the generated file name *)

Section StorageFacts.
Import Storage.

Lemma format_bytes_of_int (z : Z) :
  (z < 1125899906842624 -> exists t, Format.format_bytes (Some (inject_Z z)) = Choice.Returned t)
  /\ (1125899906842624 <= z ->
      Format.format_bytes (Some (inject_Z z)) = Choice.Raised "KeyError").
Proof.
  destruct (Z.le_gt_cases z 0) as [Hz | Hz].
  - split; [intros _ | lia]. unfold Format.format_bytes. cbn [Qnum inject_Z].
    destruct (z <? 0) eqn:E1; [eexists; reflexivity|].
    replace (z =? 0) with true by lia. eexists; reflexivity.
  - assert (Hq : (0 < inject_Z z)%Q) by (change 0%Q with (inject_Z 0); now rewrite <- Zlt_Qlt).
    destruct (format_bytes_cases (inject_Z z) Hq) as [Hbig Hsmall]. split.
    + intros Hlt. destruct Hsmall as (v & n & label & H & _).
      { change 1125899906842624%Q with (inject_Z 1125899906842624). now rewrite <- Zlt_Qlt. }
      eexists; exact H.
    + intros Hge. apply Hbig.
      change 1125899906842624%Q with (inject_Z 1125899906842624). now rewrite <- Zle_Qle.
Qed.

Lemma prefix_slash (c : ascii) (s : string) :
  String.prefix "/" (String c s) = Ascii.eqb c "/".
Proof.
  cbn [String.prefix]. destruct (ascii_dec "/" c) as [<- | Hne].
  - destruct s; reflexivity.
  - symmetry. apply Ascii.eqb_neq. congruence.
Qed.

Lemma contains_slash_cons (c : ascii) (s : string) :
  Py.contains "/" (String c s) = Ascii.eqb c "/" || Py.contains "/" s.
Proof. cbn [Py.contains]. now rewrite prefix_slash. Qed.

Lemma replace_slash_no_slash (s : string) :
  Py.contains "/" (replace "/" "_" s) = false.
Proof.
  unfold replace. induction s as [|c s IH]; cbn [replace_from]; [reflexivity|].
  rewrite prefix_slash. cbn [String.length Nat.sub].
  destruct (Ascii.eqb c "/") eqn:E.
  - cbn [append]. rewrite contains_slash_cons, IH. reflexivity.
  - rewrite contains_slash_cons, E, IH. reflexivity.
Qed.

Lemma replace_without_slash (old new s : string) (rest : string) :
  old = String "/" rest ->
  Py.contains "/" s = false -> replace old new s = s.
Proof.
  intros ->. unfold replace. induction s as [|c s IH]; cbn [replace_from]; [reflexivity|].
  rewrite contains_slash_cons. intros H. apply orb_false_elim in H as [Hc Hs].
  cbn [String.prefix]. destruct (ascii_dec "/" c) as [<- | Hne]; [discriminate|].
  now rewrite (IH Hs).
Qed.

Lemma device_short_dev (name : string) :
  Py.contains "/" name = false -> device_short ("/dev/" ++ name) = name.
Proof.
  intros H. unfold device_short.
  assert (E : replace "/dev/" "" ("/dev/" ++ name) = name).
  { unfold replace. cbn [append replace_from].
    replace (String.prefix "/dev/" (String "/" (String "d" (String "e" (String "v" (String "/" name))))))
      with true by (symmetry; apply (prefix_of_app "/dev/" name)).
    cbn [String.length Nat.sub append replace_from].
    apply (replace_without_slash "/dev/" "" name "dev/"); [reflexivity | exact H]. }
  rewrite E. apply (replace_without_slash "/" "_" name ""); [reflexivity | exact H].
Qed.

End StorageFacts.

(** X23. With less than 1 PiB (1024^5 bytes) required, [check_free_space]
    answers whether the free space [f_bavail * f_frsize] covers the
    required size as long as the free space is below 1 PiB too; from 1 PiB
    of free space on it answers [None] with the text "Unknown".  With
    1 PiB or more required, it raises [KeyError] whatever the free space
    is. *)
Theorem X23_free_space_check (f_bavail f_frsize required_bytes : Z) :
  let free_bytes := f_bavail * f_frsize in
  (required_bytes < 1125899906842624 ->
   exists free_str required_str,
     Storage.check_free_space (Some (f_bavail, f_frsize)) required_bytes
     = Choice.Returned
         (if free_bytes <? 1125899906842624
          then Some (required_bytes <=? free_bytes) else None,
          free_str, required_str)
     /\ (free_str = Storage.Unknown <-> 1125899906842624 <= free_bytes))
  /\ (1125899906842624 <= required_bytes ->
      forall stat,
        Storage.check_free_space stat required_bytes = Choice.Raised "KeyError").
Proof.
  cbv zeta. split.
  - intros Hreq. unfold Storage.check_free_space, Storage.could_not_check.
    destruct (format_bytes_of_int required_bytes) as [[tr Hr] _]; [exact Hreq|].
    rewrite Hr.
    destruct (Z.lt_ge_cases (f_bavail * f_frsize) 1125899906842624) as [Hf | Hf].
    + destruct (format_bytes_of_int (f_bavail * f_frsize)) as [[tf Htf] _]; [exact Hf|].
      rewrite Htf. replace (f_bavail * f_frsize <? 1125899906842624) with true by lia.
      exists (Storage.Formatted tf), tr. rewrite Z.geb_leb.
      split; [reflexivity|]. split; [discriminate | lia].
    + destruct (format_bytes_of_int (f_bavail * f_frsize)) as [_ Htf].
      rewrite (Htf Hf). replace (f_bavail * f_frsize <? 1125899906842624) with false by lia.
      exists Storage.Unknown, tr. split; [reflexivity|]. split; [intros _; exact Hf | reflexivity].
  - intros Hreq stat. unfold Storage.check_free_space, Storage.could_not_check.
    destruct (format_bytes_of_int required_bytes) as [_ Hr]. rewrite (Hr Hreq).
    destruct stat as [[a f]|]; [|reflexivity].
    destruct (Format.format_bytes (Some (inject_Z (a * f)))); reflexivity.
Qed.

Lemma X23_witness :
  exists free_str required_str,
    Storage.check_free_space (Some (2500000, 4096)) 16000000000
    = Choice.Returned
        (if 2500000 * 4096 <? 1125899906842624
         then Some (16000000000 <=? 2500000 * 4096) else None,
         free_str, required_str)
    /\ (free_str = Storage.Unknown <-> 1125899906842624 <= 2500000 * 4096).
Proof. apply (proj1 (X23_free_space_check 2500000 4096 16000000000)). lia. Defined.

(** X24. The device part of a generated file name never contains a
    slash, and for a device [/dev/NAME] whose [NAME] has no slash (the
    names [lsblk] lists) the file name is
    [PREFIX_NAME_TIMESTAMP] followed by the extension, where the prefix is
    the base name, or the host name when the base name is empty. *)
Theorem X24_generated_filename (base_name name extension timestamp hostname : string) :
  Py.contains "/" name = false ->
  Storage.generate_filename base_name ("/dev/" ++ name) extension timestamp hostname
  = (if String.eqb base_name "" then hostname else base_name)
    ++ "_" ++ name ++ "_" ++ timestamp ++ extension
  /\ forall device_name, Py.contains "/" (Storage.device_short device_name) = false.
Proof.
  intros H. split.
  - unfold Storage.generate_filename. rewrite (device_short_dev name H).
    destruct (String.eqb base_name ""); reflexivity.
  - intros device_name. apply replace_slash_no_slash.
Qed.

Lemma X24_witness :
  Storage.generate_filename "" ("/dev/" ++ "nvme0n1") ".img.gz" "20240131_235959" "rescue"
  = (if String.eqb "" "" then "rescue" else "")
    ++ "_" ++ "nvme0n1" ++ "_" ++ "20240131_235959" ++ ".img.gz"
  /\ forall device_name, Py.contains "/" (Storage.device_short device_name) = false.
Proof.
  apply (X24_generated_filename "" "nvme0n1" ".img.gz" "20240131_235959" "rescue").
  reflexivity.
Defined.

Example generate_filename_examples :
  Storage.generate_filename "" "/dev/sda" ".img" "20240131_235959" "rescue"
  = "rescue_sda_20240131_235959.img"
  /\ Storage.device_short "/dev/mapper/vg0-root" = "mapper_vg0-root"
  /\ Storage.device_short "/dev//dev/sdb" = "sdb"
  /\ Storage.check_free_space None 1125899906842624 = Choice.Raised "KeyError".
Proof. repeat split; vm_compute; reflexivity. Qed.

(** ** The monitor loop and the exceptions of the renderers *)

Section RenderFacts.
Import Monitor Run Render.

Lemma format_bytes_small (b : Q) :
  (b < 1125899906842624)%Q -> exists t, Format.format_bytes (Some b) = Choice.Returned t.
Proof.
  intros Hb. destruct (Qlt_le_dec 0 b) as [P | N].
  - destruct (format_bytes_cases b P) as [_ H].
    destruct (H Hb) as (v & n & label & E & _). eexists; exact E.
  - unfold Format.format_bytes.
    destruct (Qnum b <? 0) eqn:E1; [eexists; reflexivity|].
    replace (Qnum b =? 0) with true; [eexists; reflexivity|].
    symmetry. apply Z.eqb_eq. unfold Qle in N. cbn in N. lia.
Qed.

Lemma round_speed_small (speed : Q) :
  (speed <= 1125899906842623)%Q -> (Binary64.round speed < 1125899906842624)%Q.
Proof.
  intros H. apply (round_mono speed 1125899906842623) in H.
  change (Binary64.round 1125899906842623) with 1125899906842623%Q in H. lra.
Qed.

(** Below 1024^5 bytes a turn raises nothing. *)
Lemma turn_raises_nothing (total bytes : Z) (elapsed : Q) :
  0 <= total < 1125899906842624 -> 0 <= bytes < 1125899906842624 ->
  (compute_speed bytes elapsed <= 1125899906842623)%Q ->
  turn_raises total bytes elapsed = None.
Proof.
  intros Ht Hb Hs. unfold turn_raises.
  rewrite (overflows_int_below bytes) by lia. rewrite andb_false_r.
  rewrite (percentage_never_overflows bytes total) by lia.
  rewrite (overflows_int_below (total - bytes)) by lia. rewrite andb_false_r.
  unfold stats_raise. cbn [compute_sample speed_bps bytes_copied].
  destruct (format_bytes_small (inject_Z total)) as [t1 E1].
  { change 1125899906842624%Q with (inject_Z 1125899906842624). rewrite <- Zlt_Qlt. lia. }
  destruct (format_bytes_small (Binary64.round (compute_speed bytes elapsed))) as [t2 E2].
  { now apply round_speed_small. }
  destruct (format_bytes_small (inject_Z bytes)) as [t3 E3].
  { change 1125899906842624%Q with (inject_Z 1125899906842624). rewrite <- Zlt_Qlt. lia. }
  rewrite E1, E2, E3. reflexivity.
Qed.

(** From 1024^5 bytes copied on, the turn raises. *)
Lemma turn_raises_large (total bytes : Z) (elapsed : Q) :
  1125899906842624 <= bytes -> exists e, turn_raises total bytes elapsed = Some e.
Proof.
  intros Hb. unfold turn_raises.
  destruct (_ && _); [eexists; reflexivity|].
  destruct (percentage_overflows bytes total); [eexists; reflexivity|].
  destruct (_ && _); [eexists; reflexivity|].
  unfold stats_raise. cbn [compute_sample bytes_copied].
  destruct (format_bytes_of_int bytes) as [_ E]. rewrite (E Hb).
  destruct (raised (Format.format_bytes (Some (inject_Z total)))); [eexists; reflexivity|].
  destruct (raised (Format.format_bytes _)); eexists; reflexivity.
Qed.

Lemma run_loop_checked_returns (total : Z) (ticks : list Tick) (st : State) :
  0 <= total < 1125899906842624 ->
  Forall (fun t => forall bytes,
            parse_bytes (tick_line t) = Some bytes ->
            bytes < 1125899906842624
            /\ (compute_speed bytes (tick_elapsed t) <= 1125899906842623)%Q) ticks ->
  run_loop_checked total st ticks = Choice.Returned (run_loop total st ticks).
Proof.
  intros Ht H. revert st. induction H as [|t ticks Hd _ IH]; intros st.
  - reflexivity.
  - cbn [run_loop_checked]. unfold run_loop. cbn [fold_left].
    fold (run_loop total (step total st t) ticks).
    unfold step_checked. destruct (parse_bytes (tick_line t)) as [bytes|] eqn:P.
    + destruct (Hd bytes eq_refl) as [Hb Hs].
      pose proof (parse_bytes_nonneg _ _ P) as H0.
      rewrite (turn_raises_nothing total bytes (tick_elapsed t) Ht (conj H0 Hb) Hs).
      apply IH.
    + apply IH.
Qed.

End RenderFacts.

(** X12. With a total size, byte counts and speeds all below 1024^5 the
    loop raises nothing and calls a renderer once per progress line, in
    order: the byte counts of the samples drawn are exactly the byte
    counts parsed from the lines read, and every sample drawn has a
    percentage between 0 and 100.  A progress line that reports 1024^5
    bytes or more makes its turn raise (the renderer's [format_bytes]
    raises [KeyError], which nothing catches). *)
Theorem X12_one_draw_per_progress_line
    (total_size_bytes : Z) (display_mode : Monitor.Mode) (ticks : list Monitor.Tick) :
  0 <= total_size_bytes < 1125899906842624 ->
  Forall (fun t => forall bytes,
            Monitor.parse_bytes (Monitor.tick_line t) = Some bytes ->
            bytes < 1125899906842624
            /\ (Monitor.compute_speed bytes (Monitor.tick_elapsed t)
                <= 1125899906842623)%Q) ticks ->
  let st := Monitor.run_loop total_size_bytes (Monitor.init_state display_mode) ticks in
  Render.run_loop_checked total_size_bytes (Monitor.init_state display_mode) ticks
  = Choice.Returned st
  /\ List.map (fun d => Monitor.bytes_copied (Monitor.drawn_sample d)) (Monitor.draws st)
     = Run.parsed_counts ticks
  /\ Forall (fun d => (0 <= Monitor.percentage (Monitor.drawn_sample d) <= 100)%Q)
            (Monitor.draws st)
  /\ forall st0 t bytes,
       Monitor.parse_bytes (Monitor.tick_line t) = Some bytes ->
       1125899906842624 <= bytes ->
       exists e, Render.step_checked total_size_bytes st0 t = Choice.Raised e.
Proof.
  intros Ht Hticks st. subst st.
  destruct (run_loop_draws total_size_bytes ticks (Monitor.init_state display_mode))
    as [E F].
  split; [now apply run_loop_checked_returns|].
  split; [exact E|]. split; [apply F; constructor|].
  intros st0 t bytes P Hb. unfold Render.step_checked. rewrite P.
  destruct (turn_raises_large total_size_bytes bytes (Monitor.tick_elapsed t) Hb) as [e ->].
  now exists e.
Qed.

Lemma X12_witness :
  let ticks := [Monitor.mkTick (-1) "262144 bytes (262 kB, 256 KiB) copied, 1 s" 1;
                Monitor.mkTick 118 "1+0 records in" 2;
                Monitor.mkTick (-1) "1048576 bytes (1.0 MB, 1.0 MiB) copied, 3 s" 3] in
  let st := Monitor.run_loop 1048576 (Monitor.init_state Monitor.Progress) ticks in
  Render.run_loop_checked 1048576 (Monitor.init_state Monitor.Progress) ticks
  = Choice.Returned st
  /\ List.map (fun d => Monitor.bytes_copied (Monitor.drawn_sample d)) (Monitor.draws st)
     = Run.parsed_counts ticks
  /\ Forall (fun d => (0 <= Monitor.percentage (Monitor.drawn_sample d) <= 100)%Q)
            (Monitor.draws st)
  /\ forall st0 t bytes,
       Monitor.parse_bytes (Monitor.tick_line t) = Some bytes ->
       1125899906842624 <= bytes ->
       exists e, Render.step_checked 1048576 st0 t = Choice.Raised e.
Proof.
  apply (X12_one_draw_per_progress_line 1048576 Monitor.Progress
           [Monitor.mkTick (-1) "262144 bytes (262 kB, 256 KiB) copied, 1 s" 1;
            Monitor.mkTick 118 "1+0 records in" 2;
            Monitor.mkTick (-1) "1048576 bytes (1.0 MB, 1.0 MiB) copied, 3 s" 3]).
  - lia.
  - repeat (apply Forall_cons;
            [intros bytes H; vm_compute in H;
             first [discriminate H
                   | injection H as <-; split; [lia | vm_compute; discriminate]]|]).
    apply Forall_nil.
Defined.

(** A progress line of 2 PiB ends the run with [KeyError]. *)
Example huge_count_raises :
  Render.run_loop_checked 4503599627370496 (Monitor.init_state Monitor.Progress)
    [Monitor.mkTick (-1) "2251799813685248 bytes (2.3 PB, 2.0 PiB) copied" 1]
  = Choice.Raised "KeyError".
Proof. vm_compute. reflexivity. Qed.
